(** * ffmpeg-tools: the option-to-argument-vector compiler

    Shallow embedding of the [handleSubmit] functions of the extension's
    commands (convert, compress, speed, resolution-video, resize-image and
    the unified resize), up to the point where the external process is
    spawned: each handler is a function from the component state it reads
    and the submitted form values to the argument list and the output path,
    or to the exception it throws. *)

From Stdlib Require Import List Bool Arith ZArith Lia.
From Stdlib Require Import Ascii String DecimalString.
From Stdlib Require Import Floats.SpecFloat.
Import ListNotations.

Open Scope list_scope.
Open Scope string_scope.

(* ================================================================== *)
(** * Strings as the runtime sees them *)

(** A string is a sequence of code units; the list view is used by the
    scanning functions and the [string] view by the handlers. *)
Definition chars (s : string) : list ascii := list_ascii_of_string s.
Definition str (l : list ascii) : string := string_of_list_ascii l.

Fixpoint takeWhile {A} (f : A -> bool) (l : list A) : list A :=
  match l with
  | [] => []
  | x :: l' => if f x then x :: takeWhile f l' else []
  end.

Fixpoint dropWhile {A} (f : A -> bool) (l : list A) : list A :=
  match l with
  | [] => []
  | x :: l' => if f x then dropWhile f l' else l
  end.

Definition list_eqb (a b : list ascii) : bool := String.eqb (str a) (str b).

(** Truthiness of an optional string field: [undefined] and the empty
    string are falsy. *)
Definition truthy (v : option string) : bool :=
  match v with
  | None => false
  | Some s => negb (String.eqb s "")
  end.

(** Truthiness of an optional checkbox. *)
Definition truthy_bool (v : option bool) : bool :=
  match v with
  | Some true => true
  | _ => false
  end.

(** A value interpolated in a template literal. *)
Definition tmpl (v : option string) : string :=
  match v with
  | None => "undefined"
  | Some s => s
  end.

(** [a || b] on optional strings, [b] a string. *)
Definition or_else (v : option string) (d : string) : string :=
  if truthy v then tmpl v else d.

(* ================================================================== *)
(** * The [path] module (POSIX flavour) *)

Module Path.

Local Open Scope list_scope.

Definition is_sep (c : ascii) : bool := Ascii.eqb c "/".
Definition not_sep (c : ascii) : bool := negb (is_sep c).
Definition is_dot (c : ascii) : bool := Ascii.eqb c ".".
Definition not_dot (c : ascii) : bool := negb (is_dot c).

Definition dot : list ascii := ["."%char].
Definition dotdot : list ascii := ["."%char; "."%char].

(** The right-most path component, reversed: trailing separators are
    skipped, then characters are taken up to the next separator. *)
Definition last_component_rev (p : list ascii) : list ascii :=
  takeWhile not_sep (dropWhile is_sep (rev p)).

Definition trailing_seps (p : list ascii) : list ascii :=
  takeWhile is_sep (rev p).

(** Matching an explicit suffix against the component, both read from
    the right. *)
Inductive suffix_match :=
| Matched (rest_rev : list ascii)   (* suffix exhausted *)
| Mismatch
| ComponentExhausted.

Fixpoint match_suffix (suf_rev comp_rev : list ascii) : suffix_match :=
  match suf_rev, comp_rev with
  | [], _ => Matched comp_rev
  | _ :: _, [] => ComponentExhausted
  | a :: suf', b :: comp' =>
      if Ascii.eqb a b then match_suffix suf' comp' else Mismatch
  end.

(** [basename(path, suffix)]: the last component, without [suffix] when
    it ends with it and is more than it.  A suffix longer than the path
    is ignored; a suffix equal to the whole path gives the empty string;
    when the component runs out before the suffix does, the scan keeps the
    trailing separators. *)
Definition basename_l (p suffix : list ascii) : list ascii :=
  let crev := last_component_rev p in
  match suffix with
  | [] => rev crev
  | _ :: _ =>
      if Nat.ltb (List.length p) (List.length suffix) then rev crev
      else if list_eqb suffix p then []
      else
        match match_suffix (rev suffix) crev with
        | Matched [] => rev crev
        | Matched rest => rev rest
        | Mismatch => rev crev
        | ComponentExhausted => rev crev ++ trailing_seps p
        end
  end.

(** [extname(path)]: from the last dot of the last component to its end;
    empty when there is no dot, when nothing stands before the dot, and
    for the component [..]. *)
Definition extname_l (p : list ascii) : list ascii :=
  let crev := last_component_rev p in
  let after_rev := takeWhile not_dot crev in
  match dropWhile not_dot crev with
  | [] => []                         (* no dot in the component *)
  | _ :: before_rev =>
      match before_rev with
      | [] => []                     (* nothing before the dot *)
      | _ :: _ =>
          if list_eqb (rev crev) dotdot then []
          else "."%char :: rev after_rev
      end
  end.

(** [dirname(path)]: the path up to the separator before the last
    component; the scan stops before the first character, so a relative
    path without directory gives [.] and a rooted one [/]. *)
Definition dirname_l (p : list ascii) : list ascii :=
  match p with
  | [] => dot
  | c0 :: tl =>
      let hasRoot := is_sep c0 in
      match dropWhile not_sep (dropWhile is_sep (rev tl)) with
      | [] => if hasRoot then ["/"%char] else dot
      | _ :: before_rev =>
          match before_rev with
          | [] => if hasRoot then ["/"%char; "/"%char] else [c0]
          | _ :: _ => c0 :: rev before_rev
          end
      end
  end.

(** The segments between separators. *)
Fixpoint split_sep (p : list ascii) : list (list ascii) :=
  match p with
  | [] => [[]]
  | c :: p' =>
      if is_sep c then [] :: split_sep p'
      else match split_sep p' with
           | [] => [[c]]
           | s :: ss => (c :: s) :: ss
           end
  end.

(** One step of [normalizeString]: the stack of kept segments is held
    with its top first. *)
Definition push_segment (allowAboveRoot : bool)
           (stack : list (list ascii)) (seg : list ascii)
  : list (list ascii) :=
  match seg with
  | [] => stack
  | _ :: _ =>
      if list_eqb seg dot then stack
      else if list_eqb seg dotdot then
        match stack with
        | top :: below =>
            if list_eqb top dotdot then
              (if allowAboveRoot then dotdot :: stack else stack)
            else below
        | [] => if allowAboveRoot then [dotdot] else []
        end
      else seg :: stack
  end.

Fixpoint join_segments (segs : list (list ascii)) : list ascii :=
  match segs with
  | [] => []
  | [s] => s
  | s :: rest => s ++ "/"%char :: join_segments rest
  end.

Definition normalizeString (p : list ascii) (allowAboveRoot : bool)
  : list ascii :=
  join_segments
    (rev (fold_left (push_segment allowAboveRoot) (split_sep p) [])).

(** [normalize(path)]: the kept segments joined again, with the root and
    a trailing separator put back. *)
Definition normalize_l (p : list ascii) : list ascii :=
  match p with
  | [] => dot
  | c0 :: _ =>
      let isAbsolute := is_sep c0 in
      let trailingSeparator :=
        match rev p with c :: _ => is_sep c | [] => false end in
      let res := normalizeString p (negb isAbsolute) in
      match res with
      | [] =>
          if isAbsolute then ["/"%char]
          else if trailingSeparator then ["."%char; "/"%char] else dot
      | _ :: _ =>
          let res' := if trailingSeparator then res ++ ["/"%char] else res in
          if isAbsolute then "/"%char :: res' else res'
      end
  end.

(** [join] of two arguments: empty arguments are skipped. *)
Definition join_l (a b : list ascii) : list ascii :=
  match a, b with
  | [], [] => dot
  | [], _ => normalize_l b
  | _, [] => normalize_l a
  | _, _ => normalize_l (a ++ "/"%char :: b)
  end.

Definition basename (p ext : string) : string :=
  str (basename_l (chars p) (chars ext)).
Definition extname (p : string) : string := str (extname_l (chars p)).
Definition dirname (p : string) : string := str (dirname_l (chars p)).
Definition normalize (p : string) : string := str (normalize_l (chars p)).
Definition join (a b : string) : string :=
  str (join_l (chars a) (chars b)).

End Path.

Import Path.


(* ================================================================== *)
(** * Number values: [parseFloat], [===], [/] and number-to-string

    Numbers are IEEE-754 binary64 values ([prec] 53, [emax] 1024).
    [parseFloat] rounds the decimal literal it recognises to the nearest
    value; the conversion to a string picks the shortest decimal that
    reads back as the same value. *)

Module JSNumber.

Definition prec : Z := 53.
Definition emax : Z := 1024.

Definition number := spec_float.

Definition NaN : number := S754_nan.

(** The number nearest to [(-1)^neg * m * 10^e]. *)
Definition of_decimal (neg : bool) (m e : Z) : number :=
  match m with
  | Z0 => S754_zero neg
  | Zpos p =>
      if (0 <=? e)%Z then
        binary_round prec emax neg (Z.to_pos (m * 10 ^ e)) 0
      else
        let '(q, e', l) :=
          SFdiv_core_binary prec emax m 0 (10 ^ (- e)) 0 in
        binary_round_aux prec emax neg q e' l
  | Zneg _ => NaN
  end.

Definition of_Z (z : Z) : number :=
  of_decimal (z <? 0)%Z (Z.abs z) 0.

Definition div (x y : number) : number := SFdiv prec emax x y.

(** [x === y] on numbers. *)
Definition strict_eqb (x y : number) : bool := SFeqb x y.

(** ** parseFloat *)

(** White space and line terminators, in the UTF-8 form strings have
    here.  One byte: TAB, LF, VT, FF, CR and the space. *)
Definition is_space1 (c : ascii) : bool :=
  let n := nat_of_ascii c in
  (Nat.eqb n 32 || (Nat.leb 9 n && Nat.leb n 13))%bool.

(** Two bytes: the no-break space U+00A0. *)
Definition is_space2 (c1 c2 : ascii) : bool :=
  (Nat.eqb (nat_of_ascii c1) 194 && Nat.eqb (nat_of_ascii c2) 160)%bool.

(** Three bytes: U+1680, U+2000 to U+200A, the line and paragraph
    separators U+2028 and U+2029, U+202F, U+205F, U+3000 and the byte
    order mark U+FEFF. *)
Definition is_space3 (c1 c2 c3 : ascii) : bool :=
  let n1 := nat_of_ascii c1 in
  let n2 := nat_of_ascii c2 in
  let n3 := nat_of_ascii c3 in
  if Nat.eqb n1 225 then (Nat.eqb n2 154 && Nat.eqb n3 128)%bool
  else if Nat.eqb n1 226 then
    if Nat.eqb n2 128 then
      ((Nat.leb 128 n3 && Nat.leb n3 138)
       || Nat.eqb n3 168 || Nat.eqb n3 169 || Nat.eqb n3 175)%bool
    else (Nat.eqb n2 129 && Nat.eqb n3 159)%bool
  else if Nat.eqb n1 227 then (Nat.eqb n2 128 && Nat.eqb n3 128)%bool
  else if Nat.eqb n1 239 then (Nat.eqb n2 187 && Nat.eqb n3 191)%bool
  else false.

(** The string without its leading white space. *)
Fixpoint trim_start (l : list ascii) : list ascii :=
  match l with
  | [] => []
  | c1 :: r1 =>
      if is_space1 c1 then trim_start r1
      else
        match r1 with
        | [] => l
        | c2 :: r2 =>
            if is_space2 c1 c2 then trim_start r2
            else
              match r2 with
              | [] => l
              | c3 :: r3 => if is_space3 c1 c2 c3 then trim_start r3 else l
              end
        end
  end.

Definition is_digit (c : ascii) : bool :=
  let n := nat_of_ascii c in (Nat.leb 48 n && Nat.leb n 57)%bool.

Definition digit_val (c : ascii) : Z := Z.of_nat (nat_of_ascii c) - 48.

Definition digits_val (ds : list ascii) : Z :=
  fold_left (fun acc c => acc * 10 + digit_val c)%Z ds 0%Z.

Fixpoint starts_with (pre l : list ascii) : bool :=
  match pre, l with
  | [], _ => true
  | _ :: _, [] => false
  | a :: pre', b :: l' => (Ascii.eqb a b && starts_with pre' l')%bool
  end.

Definition read_sign (l : list ascii) : bool * list ascii :=
  match l with
  | "-"%char :: l' => (true, l')
  | "+"%char :: l' => (false, l')
  | _ => (false, l)
  end.

(** The exponent part, when one is present and complete. *)
Definition read_exponent (l : list ascii) : Z :=
  match l with
  | c :: l' =>
      if (Ascii.eqb c "e" || Ascii.eqb c "E")%bool then
        let '(neg, l'') := read_sign l' in
        match takeWhile is_digit l'' with
        | [] => 0%Z
        | ds => if neg then (- digits_val ds)%Z else digits_val ds
        end
      else 0%Z
  | [] => 0%Z
  end.

(** The longest prefix, after leading white space, that is a decimal
    literal: a sign, then [Infinity] or digits with an optional fraction
    and exponent; [NaN] when there is none. *)
Definition parseFloat_l (l : list ascii) : number :=
  let '(neg, l1) := read_sign (trim_start l) in
  if starts_with (chars "Infinity") l1 then S754_infinity neg
  else
    let int_ds := takeWhile is_digit l1 in
    let l2 := dropWhile is_digit l1 in
    let '(frac_ds, l3) :=
      match l2 with
      | "."%char :: l2' => (takeWhile is_digit l2', dropWhile is_digit l2')
      | _ => ([], l2)
      end in
    match (int_ds ++ frac_ds)%list with
    | [] => NaN
    | ds =>
        of_decimal neg (digits_val ds)
                   (read_exponent l3 - Z.of_nat (List.length frac_ds))
    end.

Definition parseFloat (s : string) : number := parseFloat_l (chars s).

(** ** Number to string *)

Definition dec (z : Z) : string :=
  NilZero.string_of_uint (N.to_uint (Z.to_N z)).

Fixpoint zeros (n : nat) : string :=
  match n with
  | O => ""
  | S n' => String "0" (zeros n')
  end.

(** [a / b < 10 ^ n], for positive [a] and [b]. *)
Definition below_pow10 (a b n : Z) : bool :=
  if (0 <=? n)%Z then (a <? b * 10 ^ n)%Z else (a * 10 ^ (- n) <? b)%Z.

(** The least [n], counting up from [n0], with [a / b < 10 ^ n]. *)
Fixpoint magnitude (fuel : nat) (a b n0 : Z) : Z :=
  match fuel with
  | O => n0
  | S fuel' =>
      if below_pow10 a b n0 then n0 else magnitude fuel' a b (n0 + 1)
  end.

(** The [k]-digit candidates around [a / b], whose integer part has
    [n] digits: the decimal just below (or equal) and the one just
    above, each as digits and exponent position, kept when it reads
    back as [x]; of two that do, the closer one, and the even one on a
    tie. *)
Definition candidate (x : number) (a b n k : Z) : option (Z * Z) :=
  let '(num, den) :=
    if (0 <=? k - n)%Z then (a * 10 ^ (k - n), b)%Z
    else (a, b * 10 ^ (n - k))%Z in
  let lo := (num / den)%Z in
  let r := (num mod den)%Z in
  let hi := (lo + 1)%Z in
  let reads s := strict_eqb (of_decimal false s (n - k)) x in
  let norm s := if (s =? 10 ^ k)%Z then (10 ^ (k - 1), n + 1)%Z
                else (s, n) in
  match reads lo, reads hi with
  | true, true =>
      match (2 * r ?= den)%Z with
      | Lt => Some (lo, n)
      | Gt => Some (norm hi)
      | Eq => if Z.even lo then Some (lo, n) else Some (norm hi)
      end
  | true, false => Some (lo, n)
  | false, true => Some (norm hi)
  | false, false => None
  end.

Fixpoint shortest (fuel : nat) (x : number) (a b n k : Z) : Z * Z :=
  match fuel with
  | O => (a / b, n)%Z
  | S fuel' =>
      match candidate x a b n k with
      | Some sn => sn
      | None => shortest fuel' x a b n (k + 1)
      end
  end.

Definition format (s n : Z) : string :=
  let ds := dec s in
  let k := Z.of_nat (String.length ds) in
  if ((-5 <=? n) && (n <=? 21))%Z%bool then
    if (k <=? n)%Z then ds ++ zeros (Z.to_nat (n - k))
    else if (0 <? n)%Z then
      substring 0 (Z.to_nat n) ds ++ "." ++
      substring (Z.to_nat n) (Z.to_nat (k - n)) ds
    else "0." ++ zeros (Z.to_nat (- n)) ++ ds
  else
    let e := (n - 1)%Z in
    let sign := if (0 <? e)%Z then "+" else "-" in
    if (k =? 1)%Z then ds ++ "e" ++ sign ++ dec (Z.abs e)
    else substring 0 1 ds ++ "." ++ substring 1 (Z.to_nat (k - 1)) ds
         ++ "e" ++ sign ++ dec (Z.abs e).

Definition to_string (x : number) : string :=
  match x with
  | S754_nan => "NaN"
  | S754_zero _ => "0"
  | S754_infinity s => if s then "-Infinity" else "Infinity"
  | S754_finite s m e =>
      let '(a, b) :=
        if (0 <=? e)%Z then (Zpos m * 2 ^ e, 1)%Z
        else (Zpos m, 2 ^ (- e))%Z in
      let n := magnitude 700 a b (-330) in
      let '(d, n') := shortest 17 (S754_finite false m e) a b n 1 in
      (if s then "-" else "") ++ format d n'
  end.

End JSNumber.

Import JSNumber.

(* ================================================================== *)
(** * What a handler produces *)

Inductive MediaKind := Video | Audio | Image.

(** The exceptions the handlers can raise before the process is spawned;
    each is caught by the handler's own [catch] and reported as a failure,
    and no process is started. *)
Inductive exn :=
| InvalidPathArgument     (* TypeError: the "path" argument must be a string *)
| UndefinedLookup         (* TypeError: cannot read properties of undefined *)
| UnsupportedFileType.    (* Error("Unsupported file type") *)

Inductive result (A : Type) :=
| Ok (a : A)
| Throw (e : exn).
Arguments Ok {A} a.
Arguments Throw {A} e.

Record CompiledJob := mkJob {
  argv : list string;
  outputPath : string
}.

(** [args.push(...)]. *)
Definition push (args new : list string) : list string := (args ++ new)%list.

(** [values.x === "lit"] for an optional string field. *)
Definition str_is (v : option string) (lit : string) : bool :=
  match v with
  | Some s => String.eqb s lit
  | None => false
  end.

(* ================================================================== *)
(** * The convert command (convert.tsx) *)

Module Convert.

Record ConvertFormValues := {
  inputFile : list string;
  format : string;
  codec : option string;
  quality : option string;
  maintainQuality : option bool
}.

(** The component state in scope of the handler. *)
Record State := {
  defaultFile : list string;
  fileType : option MediaKind;
  maintainQualityState : bool
}.

(** The branch on the file type: what is pushed on [args] and what is
    appended to [outputName]. *)
Definition encode (fileType : option MediaKind) (values : ConvertFormValues)
           (args : list string) (outputName : string)
  : list string * string :=
  match fileType with
  | Some Video =>
      if str_is (codec values) "libvpx-vp9" then
        let args := push args ["-c:v"; "libvpx-vp9"; "-b:v"; "0"] in
        let '(args, outputName) :=
          if negb (truthy_bool (maintainQuality values)) then
            (push args ["-crf"; or_else (quality values) "30"; "-row-mt"; "1"],
             outputName ++ "." ++ tmpl (codec values) ++ ".q"
                        ++ or_else (quality values) "30")
          else
            (push args ["-crf"; "0"; "-row-mt"; "1"; "-cpu-used"; "0"],
             outputName ++ "." ++ tmpl (codec values) ++ ".lossless") in
        (push args ["-c:a"; "libopus"], outputName)
      else if (truthy (codec values) && negb (str_is (codec values) "copy"))%bool
      then
        let args := push args ["-c:v"; tmpl (codec values)] in
        let outputName := outputName ++ "." ++ tmpl (codec values) in
        let x26x := (str_is (codec values) "libx264"
                     || str_is (codec values) "libx265")%bool in
        let '(args, outputName) :=
          if negb (truthy_bool (maintainQuality values)) then
            if x26x then
              (push args ["-crf"; or_else (quality values) "23"],
               outputName ++ ".q" ++ or_else (quality values) "23")
            else (args, outputName)
          else
            if x26x then
              (push args ["-crf"; "0"; "-preset"; "veryslow"],
               outputName ++ ".lossless")
            else (args, outputName) in
        (push args ["-c:a"; "copy"], outputName)
      else
        (push args ["-c:v"; "copy"; "-c:a"; "copy"], outputName)
  | Some Audio =>
      if negb (truthy_bool (maintainQuality values)) then
        if truthy (quality values) then
          (push args ["-b:a"; tmpl (quality values) ++ "k"],
           outputName ++ "." ++ tmpl (quality values) ++ "k")
        else (args, outputName)
      else
        (push args ["-c:a"; "flac"; "-compression_level"; "12"],
         outputName ++ ".lossless")
  | Some Image =>
      if negb (truthy_bool (maintainQuality values)) then
        if truthy (quality values) then
          (push args ["-q:v"; tmpl (quality values)],
           outputName ++ ".q" ++ tmpl (quality values))
        else (args, outputName)
      else
        (push args ["-q:v"; "1"], outputName ++ ".max")
  | None => (args, outputName)
  end.

Definition handleSubmit (st : State) (values : ConvertFormValues)
  : result CompiledJob :=
  match inputFile values with
  | [] => Throw InvalidPathArgument
  | inputPath :: _ =>
      let baseFileName := basename inputPath (extname inputPath) in
      let outputName := baseFileName in
      let args := ["-i"; inputPath] in
      let '(args, outputName) := encode (fileType st) values args outputName in
      let outputPath :=
        join (dirname inputPath) (outputName ++ "." ++ format values) in
      let args := push args ["-y"; outputPath] in
      Ok (mkJob args outputPath)
  end.

End Convert.

(* ================================================================== *)
(** * The resolution-video command *)

Module ResolutionVideo.

Record ResolutionVideoFormValues := {
  inputFile : list string;
  width : string;
  height : string;
  maintainAspectRatio : bool;
  preset : string;
  filter : string;
  keepAudioBitrate : bool
}.

Record State := { defaultFile : list string }.

Definition resolution (values : ResolutionVideoFormValues) : string :=
  if maintainAspectRatio values then width values ++ "p"
  else width values ++ "x" ++ height values.

Definition presetSuffix (values : ResolutionVideoFormValues) : string :=
  if negb (String.eqb (preset values) "medium") then "." ++ preset values
  else "".

Definition scaleFilter (values : ResolutionVideoFormValues) : string :=
  if maintainAspectRatio values then
    "scale=" ++ width values ++ ":-2:flags=" ++ filter values
  else
    "scale=" ++ width values ++ ":" ++ height values
             ++ ":flags=" ++ filter values.

Definition handleSubmit (st : State) (values : ResolutionVideoFormValues)
  : result CompiledJob :=
  match inputFile values with
  | [] => Throw InvalidPathArgument
  | inputPath :: _ =>
      let extension := extname inputPath in
      let baseFileName := basename inputPath extension in
      let outputPath :=
        join (dirname inputPath)
             (baseFileName ++ "." ++ resolution values
                           ++ presetSuffix values ++ extension) in
      let args :=
        ["-i"; inputPath; "-vf"; scaleFilter values;
         "-preset"; preset values] in
      let args :=
        if keepAudioBitrate values then push args ["-c:a"; "copy"] else args in
      let args := push args ["-y"; outputPath] in
      Ok (mkJob args outputPath)
  end.

End ResolutionVideo.

(* ================================================================== *)
(** * The resize-image command *)

Module ResizeImage.

Record ResizeImageFormValues := {
  inputFile : list string;
  width : string;
  height : string;
  maintainAspectRatio : bool;
  quality : string;
  filter : string
}.

Record State := { defaultFile : list string }.

Definition resolution (values : ResizeImageFormValues) : string :=
  if maintainAspectRatio values then width values ++ "w"
  else width values ++ "x" ++ height values.

Definition qualitySuffix (values : ResizeImageFormValues) : string :=
  if truthy (Some (quality values)) then ".q" ++ quality values else "".

Definition scaleFilter (values : ResizeImageFormValues) : string :=
  if maintainAspectRatio values then
    "scale=" ++ width values ++ ":-1:flags=" ++ filter values
  else
    "scale=" ++ width values ++ ":" ++ height values
             ++ ":flags=" ++ filter values.

Definition handleSubmit (st : State) (values : ResizeImageFormValues)
  : result CompiledJob :=
  match inputFile values with
  | [] => Throw InvalidPathArgument
  | inputPath :: _ =>
      let extension := extname inputPath in
      let baseFileName := basename inputPath extension in
      let outputPath :=
        join (dirname inputPath)
             (baseFileName ++ "." ++ resolution values
                           ++ qualitySuffix values ++ extension) in
      let args := ["-i"; inputPath; "-vf"; scaleFilter values] in
      let args :=
        if truthy (Some (quality values))
        then push args ["-q:v"; quality values] else args in
      let args := push args ["-y"; outputPath] in
      Ok (mkJob args outputPath)
  end.

End ResizeImage.

(* ================================================================== *)
(** * The speed command *)

Module Speed.

Record SpeedFormValues := {
  inputFile : list string;
  speed : string;
  maintainPitch : option bool;
  customAudioSpeed : option string
}.

(** [fileType] is ["video" | "audio" | null]; the handler only tests it
    against ["video"]. *)
Record State := {
  defaultFile : list string;
  fileType : option MediaKind
}.

Definition audioSpeed (values : SpeedFormValues) : number :=
  if truthy (customAudioSpeed values)
  then parseFloat (tmpl (customAudioSpeed values))
  else parseFloat (speed values).

(** The video branch's [speedSuffix]. *)
Definition speedSuffix (values : SpeedFormValues) : string :=
  let speed := parseFloat (speed values) in
  let audioSpeed := audioSpeed values in
  let speedSuffix := to_string speed ++ "x" in
  let speedSuffix :=
    if negb (strict_eqb audioSpeed speed)
    then speedSuffix ++ ".a" ++ to_string audioSpeed ++ "x"
    else speedSuffix in
  if truthy_bool (maintainPitch values) then speedSuffix ++ ".pitch"
  else speedSuffix.

Definition videoFilter (values : SpeedFormValues) : string :=
  let pts := div (of_Z 1) (parseFloat (speed values)) in
  "setpts=" ++ to_string pts ++ "*PTS".

Definition audioFilter (values : SpeedFormValues) : string :=
  if truthy_bool (maintainPitch values) then
    "asetrate=44100*" ++ to_string (audioSpeed values)
                      ++ ",aresample=44100,atempo=1"
  else "atempo=" ++ to_string (audioSpeed values).

Definition handleSubmit (st : State) (values : SpeedFormValues)
  : result CompiledJob :=
  match inputFile values with
  | [] => Throw InvalidPathArgument
  | inputPath :: _ =>
      let extension := extname inputPath in
      let baseFileName := basename inputPath extension in
      let speed := parseFloat (speed values) in
      let '(outputPath, ffmpegArgs) :=
        match fileType st with
        | Some Video =>
            (join (dirname inputPath)
                  (baseFileName ++ "." ++ speedSuffix values ++ extension),
             ["-i"; inputPath;
              "-filter:v"; videoFilter values;
              "-filter:a"; audioFilter values])
        | _ =>
            let speedSuffix := to_string speed ++ "x" in
            (join (dirname inputPath)
                  (baseFileName ++ "." ++ speedSuffix ++ extension),
             ["-i"; inputPath; "-filter:a"; "atempo=" ++ to_string speed])
        end in
      let ffmpegArgs := push ffmpegArgs ["-y"; outputPath] in
      Ok (mkJob ffmpegArgs outputPath)
  end.

End Speed.

(* ================================================================== *)
(** * The resize command (video and image unified) *)

Module Resize.

(** [fileType: "image" | "video"], a field of the form. *)
Inductive ResizeKind := image | video.

Record ResizeFormValues := {
  inputFile : list string;
  width : string;
  height : option string;
  maintainAspectRatio : bool;
  filter : string;
  fileType : ResizeKind;
  quality : option string;
  preset : option string;
  keepAudioBitrate : option bool
}.

Record State := {
  defaultFile : list string;
  fileTypeState : ResizeKind
}.

(** [s.replace(/[^a-zA-Z0-9\.-]/g, '')] *)
Definition allowed (c : ascii) : bool :=
  let n := nat_of_ascii c in
  ((Nat.leb 97 n && Nat.leb n 122)       (* a-z *)
   || (Nat.leb 65 n && Nat.leb n 90)     (* A-Z *)
   || (Nat.leb 48 n && Nat.leb n 57)     (* 0-9 *)
   || Nat.eqb n 46                       (* . *)
   || Nat.eqb n 45)%bool.                (* - *)

Definition sanitize (s : string) : string :=
  str (List.filter allowed (chars s)).

(** The pair ([resolution], [scaleFilter]) set by the branch on the file
    type. *)
Definition scaling (values : ResizeFormValues) : string * string :=
  match fileType values with
  | video =>
      (width values ++ "p",
       "scale=" ++ width values ++ ":-2:flags=" ++ filter values)
  | image =>
      if (truthy (height values) && negb (maintainAspectRatio values))%bool
      then
        (width values ++ "x" ++ tmpl (height values),
         "scale=" ++ width values ++ ":" ++ tmpl (height values)
                  ++ ":flags=" ++ filter values)
      else
        (width values ++ "w",
         "scale=" ++ width values ++ ":-1:flags=" ++ filter values)
  end.

Definition resolution (values : ResizeFormValues) : string :=
  fst (scaling values).
Definition scaleFilter (values : ResizeFormValues) : string :=
  snd (scaling values).

Definition is_image (k : ResizeKind) : bool :=
  match k with image => true | video => false end.
Definition is_video (k : ResizeKind) : bool :=
  match k with video => true | image => false end.

Definition qualitySuffix (values : ResizeFormValues) : string :=
  if (is_image (fileType values) && truthy (quality values))%bool
  then ".q" ++ tmpl (quality values) else "".

Definition presetSuffix (values : ResizeFormValues) : string :=
  if (is_video (fileType values)
      && negb (str_is (preset values) "medium"))%bool
  then "." ++ tmpl (preset values) else "".

Definition sanitizedResolution (values : ResizeFormValues) : string :=
  sanitize (resolution values).

Definition handleSubmit (st : State) (values : ResizeFormValues)
  : result CompiledJob :=
  match inputFile values with
  | [] => Throw InvalidPathArgument
  | inputPath :: _ =>
      let extension := extname inputPath in
      let baseFileName := basename inputPath extension in
      let outputPath :=
        join (dirname inputPath)
             (baseFileName ++ "." ++ sanitizedResolution values
                           ++ qualitySuffix values ++ presetSuffix values
                           ++ extension) in
      let args := ["-i"; inputPath; "-vf"; scaleFilter values] in
      let args :=
        if (is_image (fileType values) && truthy (quality values))%bool then
          push args ["-q:v"; tmpl (quality values)]
        else if is_video (fileType values) then
          let args := push args ["-preset"; or_else (preset values) "medium"] in
          if truthy_bool (keepAudioBitrate values)
          then push args ["-c:a"; "copy"] else args
        else args in
      let args := push args ["-y"; outputPath] in
      Ok (mkJob args outputPath)
  end.

End Resize.

(* ================================================================== *)
(** * The compress command *)

Module Compress.

(** The values of the Compression Level dropdown. *)
Inductive Preset := lossless | high | medium | low | very_low.

Record CompressFormValues := {
  inputFile : list string;
  quality : string;
  preset : Preset
}.

Record State := {
  defaultFile : list string;
  fileType : option MediaKind
}.

Definition QUALITY_PRESETS (kind : MediaKind) (p : Preset) : string :=
  match kind with
  | Video =>
      match p with
      | lossless => "0" | high => "18" | medium => "23"
      | low => "28" | very_low => "33"
      end
  | Audio =>
      match p with
      | lossless => "320" | high => "256" | medium => "192"
      | low => "128" | very_low => "96"
      end
  | Image =>
      match p with
      | lossless => "2" | high => "5" | medium => "10"
      | low => "15" | very_low => "20"
      end
  end.

(** [values.quality || QUALITY_PRESETS[fileType][values.preset]]: the
    right operand is evaluated only when the quality field is empty, and
    indexing [QUALITY_PRESETS[null]] raises. *)
Definition qualityValue (fileType : option MediaKind)
           (values : CompressFormValues) : result string :=
  if truthy (Some (quality values)) then Ok (quality values)
  else match fileType with
       | Some kind => Ok (QUALITY_PRESETS kind (preset values))
       | None => Throw UndefinedLookup
       end.

Definition handleSubmit (st : State) (values : CompressFormValues)
  : result CompiledJob :=
  match inputFile values with
  | [] => Throw InvalidPathArgument
  | inputPath :: _ =>
      let extension := extname inputPath in
      let baseFileName := basename inputPath extension in
      match qualityValue (fileType st) values with
      | Throw e => Throw e
      | Ok qualityValue =>
          match
            match fileType st with
            | Some Video =>
                Ok (join (dirname inputPath)
                         (baseFileName ++ ".crf" ++ qualityValue ++ extension),
                    ["-i"; inputPath; "-crf"; qualityValue;
                     "-preset"; "medium"])
            | Some Audio =>
                Ok (join (dirname inputPath)
                         (baseFileName ++ "." ++ qualityValue ++ "kbps"
                                       ++ extension),
                    ["-i"; inputPath; "-b:a"; qualityValue ++ "k"])
            | Some Image =>
                Ok (join (dirname inputPath)
                         (baseFileName ++ ".q" ++ qualityValue ++ extension),
                    ["-i"; inputPath; "-q:v"; qualityValue])
            | None => Throw UnsupportedFileType
            end
          with
          | Throw e => Throw e
          | Ok (outputPath, ffmpegArgs) =>
              let ffmpegArgs := push ffmpegArgs ["-y"; outputPath] in
              Ok (mkJob ffmpegArgs outputPath)
          end
      end
  end.

End Compress.

(* ================================================================== *)
(** * Recognising the media kind of a file *)

(** [s.toLowerCase()], on the bytes of the string: the letters A-Z, and
    the two characters outside ASCII whose lower case holds an ASCII
    letter, the Kelvin sign (bytes E2 84 AA, to [k]) and the dotted
    capital I (bytes C4 B0, to [i] and a combining dot, bytes CC 87).
    Every other character outside ASCII is mapped by the runtime to
    characters outside ASCII again and is kept as it is here: the tests
    made on the result compare against ASCII words only. *)
Definition is_upper (c : ascii) : bool :=
  let n := nat_of_ascii c in (Nat.leb 65 n && Nat.leb n 90)%bool.

Definition lower_char (c : ascii) : ascii :=
  if is_upper c then ascii_of_nat (nat_of_ascii c + 32) else c.

Definition byte_is (c : ascii) (n : nat) : bool := Nat.eqb (nat_of_ascii c) n.

Fixpoint toLowerCase_l (l : list ascii) : list ascii :=
  match l with
  | [] => []
  | a :: r1 =>
      match r1 with
      | b :: r2 =>
          if (byte_is a 196 && byte_is b 176)%bool then
            "i"%char :: ascii_of_nat 204 :: ascii_of_nat 135
                     :: toLowerCase_l r2
          else
            match r2 with
            | c :: r3 =>
                if (byte_is a 226 && byte_is b 132 && byte_is c 170)%bool
                then "k"%char :: toLowerCase_l r3
                else lower_char a :: toLowerCase_l r1
            | [] => lower_char a :: toLowerCase_l r1
            end
      | [] => [lower_char a]
      end
  end.

Definition toLowerCase (s : string) : string := str (toLowerCase_l (chars s)).

(** The canonical form of a character under the [i] flag of a regular
    expression: its upper case, for the letters a-z. *)
Definition canonicalize (c : ascii) : ascii :=
  let n := nat_of_ascii c in
  if (Nat.leb 97 n && Nat.leb n 122)%bool then ascii_of_nat (n - 32) else c.

Fixpoint starts_with_ci (pre l : list ascii) : bool :=
  match pre, l with
  | [], _ => true
  | _ :: _, [] => false
  | a :: pre', b :: l' =>
      (Ascii.eqb (canonicalize a) (canonicalize b)
       && starts_with_ci pre' l')%bool
  end.

(** [s.match(/\.(w1|...|wn)$/i)], as a truth value. *)
Definition matches_extension (words : list string) (s : string) : bool :=
  existsb (fun w => starts_with_ci (rev (chars ("." ++ w))) (rev (chars s)))
          words.

Definition video_extensions : list string :=
  ["mp4"; "mov"; "avi"; "mkv"; "webm"].
Definition audio_extensions : list string :=
  ["mp3"; "wav"; "aac"; "ogg"; "m4a"; "flac"].
Definition speed_audio_extensions : list string :=
  ["mp3"; "m4a"; "wav"; "aac"; "ogg"].
Definition image_extensions : list string :=
  ["jpg"; "jpeg"; "png"; "gif"; "bmp"; "webp"].

(* ================================================================== *)
(** * [decodeURIComponent] and the clipboard path *)

Inductive decoded :=
| Decoded (s : list ascii)
| URIError.

Definition hex_val (c : ascii) : option nat :=
  let n := nat_of_ascii c in
  if (Nat.leb 48 n && Nat.leb n 57)%bool then Some (n - 48)
  else if (Nat.leb 65 n && Nat.leb n 70)%bool then Some (n - 55)
  else if (Nat.leb 97 n && Nat.leb n 102)%bool then Some (n - 87)
  else None.

Definition in_range (lo hi n : nat) : bool := (Nat.leb lo n && Nat.leb n hi)%bool.

(** The number of octets announced by the first octet of a sequence. *)
Definition sequence_length (b : nat) : option nat :=
  if Nat.ltb b 128 then Some 1
  else if Nat.ltb b 192 then None
  else if Nat.ltb b 224 then Some 2
  else if Nat.ltb b 240 then Some 3
  else if Nat.ltb b 248 then Some 4
  else None.

(** The octets are the UTF-8 encoding of one code point. *)
Definition valid_utf8 (octets : list nat) : bool :=
  match octets with
  | [b0; b1] => (in_range 194 223 b0 && in_range 128 191 b1)%bool
  | [b0; b1; b2] =>
      ((Nat.eqb b0 224 && in_range 160 191 b1
        || in_range 225 236 b0 && in_range 128 191 b1
        || Nat.eqb b0 237 && in_range 128 159 b1
        || in_range 238 239 b0 && in_range 128 191 b1)
       && in_range 128 191 b2)%bool
  | [b0; b1; b2; b3] =>
      ((Nat.eqb b0 240 && in_range 144 191 b1
        || in_range 241 243 b0 && in_range 128 191 b1
        || Nat.eqb b0 244 && in_range 128 143 b1)
       && in_range 128 191 b2 && in_range 128 191 b3)%bool
  | _ => false
  end.

(** The decoding loop.  [need] is the number of escapes still expected
    for the sequence under way and [octets] what was read of it. *)
Fixpoint decode (need : nat) (octets : list nat) (l : list ascii) : decoded :=
  match l with
  | [] => match need with O => Decoded [] | S _ => URIError end
  | c :: r1 =>
      if Ascii.eqb c "%" then
        match r1 with
        | h1 :: h2 :: r3 =>
            match hex_val h1, hex_val h2 with
            | Some d1, Some d2 =>
                let b := 16 * d1 + d2 in
                match need with
                | O =>
                    match sequence_length b with
                    | Some 1 =>
                        match decode 0 [] r3 with
                        | Decoded s => Decoded (ascii_of_nat b :: s)
                        | URIError => URIError
                        end
                    | Some n => decode (n - 1) [b] r3
                    | None => URIError
                    end
                | S O =>
                    let octets := (octets ++ [b])%list in
                    if valid_utf8 octets then
                      match decode 0 [] r3 with
                      | Decoded s =>
                          Decoded (List.map ascii_of_nat octets ++ s)%list
                      | URIError => URIError
                      end
                    else URIError
                | S need' => decode need' (octets ++ [b])%list r3
                end
            | _, _ => URIError
            end
        | _ => URIError
        end
      else
        match need with
        | O =>
            match decode 0 [] r1 with
            | Decoded s => Decoded (c :: s)
            | URIError => URIError
            end
        | S _ => URIError
        end
  end.

Definition decodeURIComponent (s : string) : decoded := decode 0 [] (chars s).

(** [s.replace(/^file:\/\/\//, "")] *)
Definition strip_file_scheme (s : string) : string :=
  if prefix "file:///" s then substring 8 (String.length s - 8) s else s.

(** The path a clipboard file entry stands for; [None] when the entry is
    missing or empty and when decoding raises (the caller catches the
    exception and does nothing more). *)
Definition clipboardPath (file : option string) : option string :=
  if truthy file then
    match decodeURIComponent (strip_file_scheme (tmpl file)) with
    | Decoded s => Some (str s)
    | URIError => None
    end
  else None.

(* ================================================================== *)
(** * Running the external process and reporting *)

Inductive ToastStyle := Animated | Success | Failure.

(** The text of a toast message: a string built by the handler, or the
    message of an exception raised by the runtime. *)
Inductive ToastMessage :=
| Text (s : string)
| MessageOf (e : exn).

Record Toast := mkToast {
  style : ToastStyle;
  title : string;
  message : ToastMessage
}.

(** A chunk of the error stream: the bytes as they were received. *)
Definition Buffer := list ascii.

(** What the first byte of a UTF-8 sequence announces: a character of
    its own, a sequence with the number of bytes still needed and the
    bounds of the next byte, or no sequence at all. *)
Inductive FirstByte :=
| Single
| Lead (needed lower upper : nat)
| Invalid.

Definition first_byte (b : nat) : FirstByte :=
  if Nat.ltb b 128 then Single
  else if in_range 194 223 b then Lead 1 128 191
  else if in_range 224 239 b then
    Lead 2 (if Nat.eqb b 224 then 160 else 128)
           (if Nat.eqb b 237 then 159 else 191)
  else if in_range 240 244 b then
    Lead 3 (if Nat.eqb b 240 then 144 else 128)
           (if Nat.eqb b 244 then 143 else 191)
  else Invalid.

(** U+FFFD, as UTF-8. *)
Definition replacement : list ascii :=
  [ascii_of_nat 239; ascii_of_nat 191; ascii_of_nat 189].

(** Decoding with replacement.  [seen] is what was read of the sequence
    under way, [needed] the number of bytes it still needs and [lower],
    [upper] the bounds of its next byte.  A byte that can not continue
    the sequence ends it with one U+FFFD and is read again as a first
    byte; a sequence cut by the end of the input gives one U+FFFD. *)
Fixpoint utf8_decode (seen : list ascii) (needed lower upper : nat)
         (l : list ascii) : list ascii :=
  match l with
  | [] => match seen with [] => [] | _ :: _ => replacement end
  | b :: r =>
      let start :=
        match first_byte (nat_of_ascii b) with
        | Single => b :: utf8_decode [] 0 128 191 r
        | Lead n lo hi => utf8_decode [b] n lo hi r
        | Invalid => (replacement ++ utf8_decode [] 0 128 191 r)%list
        end in
      match seen with
      | [] => start
      | _ :: _ =>
          if in_range lower upper (nat_of_ascii b) then
            match needed with
            | S (S n) => utf8_decode (seen ++ [b])%list (S n) 128 191 r
            | _ => (seen ++ b :: utf8_decode [] 0 128 191 r)%list
            end
          else (replacement ++ start)%list
      end
  end.

(** [data.toString()] on a chunk: its bytes decoded as UTF-8, each chunk
    on its own. *)
Definition toString (data : Buffer) : string :=
  str (utf8_decode [] 0 128 191 data).

(** How the spawned process settles the promise: an [error] event, or a
    [close] event with the exit code ([null] when a signal ended the
    process) after the chunks received on the error stream. *)
Inductive ProcessOutcome :=
| StartError (message : string)
| Close (code : option Z) (stderr : list Buffer).

(** [stderrData += data], over the chunks: each chunk is turned into a
    string when it is appended. *)
Definition stderrData (chunks : list Buffer) : string :=
  fold_left (fun acc data => acc ++ toString data) chunks "".

(** The exit code interpolated in a template literal. *)
Definition code_text (code : option Z) : string :=
  match code with
  | Some c => to_string (of_Z c)
  | None => "null"
  end.

(** The part of [handleSubmit] after the argument list is built: the
    process is spawned on [argv], the promise is awaited, and the toast
    that ends the handler is returned.  [compiled] is the outcome of the
    part before. *)
Definition report (successTitle failureTitle : string)
           (spawn : list string -> ProcessOutcome)
           (compiled : result CompiledJob) : Toast :=
  match compiled with
  | Throw e => mkToast Failure failureTitle (MessageOf e)
  | Ok job =>
      match spawn (argv job) with
      | StartError msg =>
          mkToast Failure failureTitle
                  (Text ("Failed to start FFmpeg: " ++ msg))
      | Close code chunks =>
          match code with
          | Some 0%Z =>
              mkToast Success successTitle
                      (Text ("Created " ++ basename (outputPath job) ""))
          | _ =>
              mkToast Failure failureTitle
                      (Text ("FFmpeg failed with code " ++ code_text code
                             ++ ". Error: " ++ stderrData chunks))
          end
      end
  end.

(** [`${fileType}`] for the component state. *)
Definition kind_text (k : option MediaKind) : string :=
  match k with
  | Some Video => "video"
  | Some Audio => "audio"
  | Some Image => "image"
  | None => "null"
  end.

(* ================================================================== *)
(** * The convert command: file picker, clipboard, report *)

Module ConvertCommand.

Definition detect (ext : string) : option MediaKind :=
  if matches_extension video_extensions ext then Some Video
  else if matches_extension audio_extensions ext then Some Audio
  else if matches_extension image_extensions ext then Some Image
  else None.

(** The [onChange] of the file picker: the file list is recorded, then
    the kind is set when the extension of the first file is recognised.
    With no file, taking the extension raises. *)
Definition onChange (st : Convert.State) (files : list string)
  : Convert.State * option exn :=
  let st := {| Convert.defaultFile := files;
               Convert.fileType := Convert.fileType st;
               Convert.maintainQualityState :=
                 Convert.maintainQualityState st |} in
  match files with
  | [] => (st, Some InvalidPathArgument)
  | file :: _ =>
      let ext := toLowerCase (extname file) in
      match detect ext with
      | Some kind =>
          ({| Convert.defaultFile := files;
              Convert.fileType := Some kind;
              Convert.maintainQualityState :=
                Convert.maintainQualityState st |}, None)
      | None => (st, None)
      end
  end.

Definition getClipboardFile (existsSync : string -> bool)
           (file : option string) (st : Convert.State) : Convert.State :=
  match clipboardPath file with
  | Some filePath =>
      if existsSync filePath then
        let ext := toLowerCase (extname filePath) in
        match detect ext with
        | Some kind =>
            {| Convert.defaultFile := [filePath];
               Convert.fileType := Some kind;
               Convert.maintainQualityState :=
                 Convert.maintainQualityState st |}
        | None => st
        end
      else st
  | None => st
  end.

Definition submit (spawn : list string -> ProcessOutcome)
           (st : Convert.State) (values : Convert.ConvertFormValues)
  : Toast :=
  report "Conversion successful" "Failed to convert" spawn
         (Convert.handleSubmit st values).

End ConvertCommand.

(* ================================================================== *)
(** * The compress command: file picker, clipboard, report *)

Module CompressCommand.

Definition detect (ext : string) : option MediaKind :=
  if matches_extension video_extensions ext then Some Video
  else if matches_extension audio_extensions ext then Some Audio
  else if matches_extension image_extensions ext then Some Image
  else None.

Definition onChange (st : Compress.State) (files : list string)
  : Compress.State * option exn :=
  let st := {| Compress.defaultFile := files;
               Compress.fileType := Compress.fileType st |} in
  match files with
  | [] => (st, Some InvalidPathArgument)
  | file :: _ =>
      let ext := toLowerCase (extname file) in
      match detect ext with
      | Some kind =>
          ({| Compress.defaultFile := files;
              Compress.fileType := Some kind |}, None)
      | None => (st, None)
      end
  end.

Definition getClipboardFile (existsSync : string -> bool)
           (file : option string) (st : Compress.State) : Compress.State :=
  match clipboardPath file with
  | Some filePath =>
      if existsSync filePath then
        let ext := toLowerCase (extname filePath) in
        match detect ext with
        | Some kind =>
            {| Compress.defaultFile := [filePath];
               Compress.fileType := Some kind |}
        | None => st
        end
      else st
  | None => st
  end.

(** [getQualityFieldProps]: the placeholder and the help text of the
    quality field. *)
Definition getQualityFieldProps (fileType : option MediaKind)
  : string * string :=
  match fileType with
  | Some Video => ("23", "CRF value (0-51). Lower values = higher quality")
  | Some Audio =>
      ("128", "Bitrate in kbps. Lower values = smaller file size")
  | Some Image => ("5", "Quality (2-31). Lower values = higher quality")
  | None => ("", "Select a file first")
  end.

Definition submit (spawn : list string -> ProcessOutcome)
           (st : Compress.State) (values : Compress.CompressFormValues)
  : Toast :=
  report (kind_text (Compress.fileType st) ++ " compressed successfully")
         "Failed to compress file" spawn
         (Compress.handleSubmit st values).

End CompressCommand.

(* ================================================================== *)
(** * The speed command: file picker, clipboard, report *)

Module SpeedCommand.

Definition detect (ext : string) : option MediaKind :=
  if matches_extension video_extensions ext then Some Video
  else if matches_extension speed_audio_extensions ext then Some Audio
  else None.

Definition onChange (st : Speed.State) (files : list string)
  : Speed.State * option exn :=
  let st := {| Speed.defaultFile := files;
               Speed.fileType := Speed.fileType st |} in
  match files with
  | [] => (st, Some InvalidPathArgument)
  | file :: _ =>
      let ext := toLowerCase (extname file) in
      match detect ext with
      | Some kind =>
          ({| Speed.defaultFile := files; Speed.fileType := Some kind |}, None)
      | None => (st, None)
      end
  end.

Definition getClipboardFile (existsSync : string -> bool)
           (file : option string) (st : Speed.State) : Speed.State :=
  match clipboardPath file with
  | Some filePath =>
      if existsSync filePath then
        let ext := toLowerCase (extname filePath) in
        match detect ext with
        | Some kind =>
            {| Speed.defaultFile := [filePath]; Speed.fileType := Some kind |}
        | None => st
        end
      else st
  | None => st
  end.

Definition submit (spawn : list string -> ProcessOutcome)
           (st : Speed.State) (values : Speed.SpeedFormValues) : Toast :=
  report (kind_text (Speed.fileType st) ++ " speed modified successfully")
         "Failed to modify speed" spawn
         (Speed.handleSubmit st values).

End SpeedCommand.

(* ================================================================== *)
(** * The resize command: clipboard, report *)

Module ResizeCommand.

(** The clipboard file is matched on its whole path, images first. *)
Definition getClipboardFile (existsSync : string -> bool)
           (file : option string) (st : Resize.State) : Resize.State :=
  match clipboardPath file with
  | Some filePath =>
      if existsSync filePath then
        if matches_extension image_extensions filePath then
          {| Resize.defaultFile := [filePath];
             Resize.fileTypeState := Resize.image |}
        else if matches_extension video_extensions filePath then
          {| Resize.defaultFile := [filePath];
             Resize.fileTypeState := Resize.video |}
        else st
      else st
  | None => st
  end.

Definition submit (spawn : list string -> ProcessOutcome)
           (st : Resize.State) (values : Resize.ResizeFormValues) : Toast :=
  report (match Resize.fileType values with
          | Resize.image => "Image resized successfully"
          | Resize.video => "Video resolution changed successfully"
          end)
         ("Failed to " ++ match Resize.fileType values with
                          | Resize.image => "resize image"
                          | Resize.video => "change video resolution"
                          end)
         spawn (Resize.handleSubmit st values).

End ResizeCommand.

(* ================================================================== *)
(** * The resolution-video and resize-image commands: clipboard, report *)

Module ResolutionVideoCommand.

Definition getClipboardFile (existsSync : string -> bool)
           (file : option string) (st : ResolutionVideo.State)
  : ResolutionVideo.State :=
  match clipboardPath file with
  | Some filePath =>
      if (existsSync filePath
          && matches_extension video_extensions filePath)%bool
      then {| ResolutionVideo.defaultFile := [filePath] |}
      else st
  | None => st
  end.

Definition submit (spawn : list string -> ProcessOutcome)
           (st : ResolutionVideo.State)
           (values : ResolutionVideo.ResolutionVideoFormValues) : Toast :=
  report "Video resolution changed successfully"
         "Failed to change video resolution" spawn
         (ResolutionVideo.handleSubmit st values).

End ResolutionVideoCommand.

Module ResizeImageCommand.

Definition getClipboardFile (existsSync : string -> bool)
           (file : option string) (st : ResizeImage.State)
  : ResizeImage.State :=
  match clipboardPath file with
  | Some filePath =>
      if (existsSync filePath
          && matches_extension image_extensions filePath)%bool
      then {| ResizeImage.defaultFile := [filePath] |}
      else st
  | None => st
  end.

Definition submit (spawn : list string -> ProcessOutcome)
           (st : ResizeImage.State)
           (values : ResizeImage.ResizeImageFormValues) : Toast :=
  report "Image resized successfully" "Failed to resize image" spawn
         (ResizeImage.handleSubmit st values).

End ResizeImageCommand.

(* ================================================================== *)
(** * Vocabulary of the statements *)

(** A plain file or directory name: not empty, not [.] or [..], and
    without a separator. *)
Definition plain_name (s : string) : bool :=
  (negb (String.eqb s "") && negb (String.eqb s ".")
   && negb (String.eqb s "..") && forallb not_sep (chars s))%bool.

(** A string without a separator. *)
Definition sep_free (s : string) : bool := forallb not_sep (chars s).

(** The absolute path [/d1/.../dn/file]. *)
Definition abs_path (dirs : list string) (file : string) : string :=
  "/" ++ String.concat "/" (dirs ++ [file])%list.

(** The directory [/d1/.../dn], and [/] when there is none. *)
Definition abs_dir (dirs : list string) : string :=
  "/" ++ String.concat "/" dirs.

Definition plain_l (s : list ascii) : Prop :=
  s <> [] /\ forallb not_sep s = true /\ s <> dot /\ s <> dotdot.

Definition file_path_l (dirs : list (list ascii)) (name : list ascii)
  : list ascii :=
  "/"%char :: join_segments (dirs ++ [name]).

Definition dir_path_l (dirs : list (list ascii)) : list ascii :=
  "/"%char :: join_segments dirs.

(** The input file name without its extension. *)
Definition stem (inputPath : string) : string :=
  basename inputPath (extname inputPath).

(** [argv] starts with [-i inputPath] and ends with [-y outputPath]. *)
Definition framed (inputPath : string) (job : CompiledJob) : Prop :=
  exists middle : list string,
    argv job = ("-i" :: inputPath :: middle ++ ["-y"; outputPath job])%list.

(** What a handler is expected to return on the submitted file list: a
    framed job for the first file, or an exception when [raises] holds. *)
Definition framed_or (raises : Prop) (files : list string)
           (r : result CompiledJob) : Prop :=
  match r with
  | Ok job => exists inputPath rest,
      files = inputPath :: rest /\ framed inputPath job
  | Throw _ => raises
  end.

(** [r] is a compiled job for [inputPath] whose options start with
    [front] and whose output file, in the directory of the input, is named
    [fileName]. *)
Definition compiles_to (r : result CompiledJob) (inputPath : string)
           (front : list string) (fileName : string) : Prop :=
  exists job more,
    r = Ok job
    /\ argv job = ("-i" :: inputPath :: front ++ more)%list
    /\ outputPath job = join (dirname inputPath) fileName.

(** Sample submissions. *)
Definition clip : string := "/Users/me/clip.mp4".
Definition photo : string := "/Users/me/photo.png".
Definition song : string := "/Users/me/song.mp3".

Definition rv_state : ResolutionVideo.State :=
  {| ResolutionVideo.defaultFile := [] |}.
Definition rv_values (keep : bool) (h : string)
  : ResolutionVideo.ResolutionVideoFormValues :=
  {| ResolutionVideo.inputFile := [clip];
     ResolutionVideo.width := "1920";
     ResolutionVideo.height := h;
     ResolutionVideo.maintainAspectRatio := keep;
     ResolutionVideo.preset := "medium";
     ResolutionVideo.filter := "bicubic";
     ResolutionVideo.keepAudioBitrate := true |}.

Definition ri_state : ResizeImage.State := {| ResizeImage.defaultFile := [] |}.
Definition ri_values (keep : bool) (w h : string)
  : ResizeImage.ResizeImageFormValues :=
  {| ResizeImage.inputFile := [photo];
     ResizeImage.width := w;
     ResizeImage.height := h;
     ResizeImage.maintainAspectRatio := keep;
     ResizeImage.quality := "";
     ResizeImage.filter := "lanczos" |}.

Definition rs_state : Resize.State :=
  {| Resize.defaultFile := []; Resize.fileTypeState := Resize.image |}.
Definition rs_video (keep : bool) (h : option string)
  : Resize.ResizeFormValues :=
  {| Resize.inputFile := [clip];
     Resize.width := "1920";
     Resize.height := h;
     Resize.maintainAspectRatio := keep;
     Resize.filter := "bicubic";
     Resize.fileType := Resize.video;
     Resize.quality := None;
     Resize.preset := Some "medium";
     Resize.keepAudioBitrate := Some true |}.
Definition rs_image (keep : bool) (w : string) (h : option string)
  : Resize.ResizeFormValues :=
  {| Resize.inputFile := [photo];
     Resize.width := w;
     Resize.height := h;
     Resize.maintainAspectRatio := keep;
     Resize.filter := "lanczos";
     Resize.fileType := Resize.image;
     Resize.quality := None;
     Resize.preset := None;
     Resize.keepAudioBitrate := None |}.

Definition sp_state : Speed.State :=
  {| Speed.defaultFile := []; Speed.fileType := Some Video |}.
Definition sp_values (s : string) (a : option string) (pitch : option bool)
  : Speed.SpeedFormValues :=
  {| Speed.inputFile := [clip];
     Speed.speed := s;
     Speed.maintainPitch := pitch;
     Speed.customAudioSpeed := a |}.

(** The options and the file-name token for a resolved quality value. *)
Definition compress_options (kind : MediaKind) (q : string) : list string :=
  match kind with
  | Video => ["-crf"; q; "-preset"; "medium"]
  | Audio => ["-b:a"; q ++ "k"]
  | Image => ["-q:v"; q]
  end.

Definition compress_token (kind : MediaKind) (q : string) : string :=
  match kind with
  | Video => "crf" ++ q
  | Audio => q ++ "kbps"
  | Image => "q" ++ q
  end.

Definition cp_state (k : option MediaKind) : Compress.State :=
  {| Compress.defaultFile := []; Compress.fileType := k |}.
Definition cp_values (f q : string) (p : Compress.Preset)
  : Compress.CompressFormValues :=
  {| Compress.inputFile := [f]; Compress.quality := q; Compress.preset := p |}.

Definition cv_state (k : option MediaKind) : Convert.State :=
  {| Convert.defaultFile := [];
     Convert.fileType := k;
     Convert.maintainQualityState := false |}.
Definition cv_values (fmt : string) (c q : option string) (m : option bool)
  : Convert.ConvertFormValues :=
  {| Convert.inputFile := [clip];
     Convert.format := fmt;
     Convert.codec := c;
     Convert.quality := q;
     Convert.maintainQuality := m |}.

(** For each command, the request: the input path (the first submitted
    file), the media kind where the handler reads one, and the option
    values. *)
Definition convert_request (st : Convert.State) (v : Convert.ConvertFormValues) :=
  (hd_error (Convert.inputFile v), Convert.fileType st,
   (Convert.format v, Convert.codec v, Convert.quality v,
    Convert.maintainQuality v)).

Definition resolution_video_request (st : ResolutionVideo.State)
           (v : ResolutionVideo.ResolutionVideoFormValues) :=
  (hd_error (ResolutionVideo.inputFile v),
   (ResolutionVideo.width v, ResolutionVideo.height v,
    ResolutionVideo.maintainAspectRatio v, ResolutionVideo.preset v,
    ResolutionVideo.filter v, ResolutionVideo.keepAudioBitrate v)).

Definition resize_image_request (st : ResizeImage.State)
           (v : ResizeImage.ResizeImageFormValues) :=
  (hd_error (ResizeImage.inputFile v),
   (ResizeImage.width v, ResizeImage.height v,
    ResizeImage.maintainAspectRatio v, ResizeImage.quality v,
    ResizeImage.filter v)).

Definition speed_request (st : Speed.State) (v : Speed.SpeedFormValues) :=
  (hd_error (Speed.inputFile v), Speed.fileType st,
   (Speed.speed v, Speed.maintainPitch v, Speed.customAudioSpeed v)).

Definition resize_request (st : Resize.State) (v : Resize.ResizeFormValues) :=
  (hd_error (Resize.inputFile v), Resize.fileType v,
   (Resize.width v, Resize.height v, Resize.maintainAspectRatio v,
    Resize.filter v, Resize.quality v, Resize.preset v,
    Resize.keepAudioBitrate v)).

Definition compress_request (st : Compress.State)
           (v : Compress.CompressFormValues) :=
  (hd_error (Compress.inputFile v), Compress.fileType st,
   (Compress.quality v, Compress.preset v)).

(** The characters the token may keep, as the claim lists them. *)
Definition safe_alphabet : string :=
  "abcdefghijklmnopqrstuvwxyzABCDEFGHIJKLMNOPQRSTUVWXYZ0123456789.-".

Definition safe_char (c : ascii) : Prop := In c (chars safe_alphabet).

(** The suffix the convert handler appends to the base name. *)
Definition convert_suffix (fileType : option MediaKind)
           (v : Convert.ConvertFormValues) : string :=
  snd (Convert.encode fileType v [] "").

(** The submissions for which the convert handler appends nothing: no
    codec other than copy for a video, neither maximum quality nor a
    quality for audio and images, and any submission when the media kind
    is undetermined. *)
Definition convert_keeps_name (fileType : option MediaKind)
           (v : Convert.ConvertFormValues) : bool :=
  match fileType with
  | None => true
  | Some Video =>
      (negb (truthy (Convert.codec v)) || str_is (Convert.codec v) "copy")%bool
  | Some _ =>
      (negb (truthy_bool (Convert.maintainQuality v))
       && negb (truthy (Convert.quality v)))%bool
  end.

(** [r] is a job whose output lies in the directory of [inputPath], and
    is [inputPath] itself exactly when [same] holds. *)
Definition placed_beside (inputPath : string) (r : result CompiledJob)
           (same : Prop) : Prop :=
  exists job,
    r = Ok job
    /\ dirname (outputPath job) = dirname inputPath
    /\ (outputPath job = inputPath <-> same).

(** [r] is a job whose output file is named after the input: the stem, a
    dot, a token that is not empty, and the extension of the input, which
    is then the extension of the output too when the input has one. *)
Definition named_after (inputPath : string) (r : result CompiledJob)
  : Prop :=
  exists job token,
    r = Ok job
    /\ token <> ""
    /\ basename (outputPath job) ""
       = stem inputPath ++ "." ++ token ++ extname inputPath
    /\ (extname inputPath <> "" ->
        extname (outputPath job) = extname inputPath).

(** A string without a dot. *)
Definition dot_free (s : string) : bool := forallb not_dot (chars s).

(** The characters a decimal literal can start with: a digit, a sign,
    the dot, and the first letter of [Infinity]. *)
Definition starts_numeral (c : ascii) : bool :=
  (is_digit c || Ascii.eqb c "+" || Ascii.eqb c "-"
   || Ascii.eqb c "." || Ascii.eqb c "I")%bool.

(** A string that holds white space only, or whose first character
    after the leading white space can not start a decimal literal. *)
Definition no_numeral (s : string) : bool :=
  match trim_start (chars s) with
  | [] => true
  | c :: _ => negb (starts_numeral c)
  end.

(** The no-break space U+00A0. *)
Definition nbsp : string :=
  String (ascii_of_nat 194) (String (ascii_of_nat 160) "").

(** The ideographic space U+3000. *)
Definition wide_space : string :=
  String (ascii_of_nat 227)
         (String (ascii_of_nat 128) (String (ascii_of_nat 128) "")).

(** The value of a decimal numeral. *)
Definition numeral (s : string) : Z := digits_val (chars s).

Definition rs_video_preset (p : option string) : Resize.ResizeFormValues :=
  {| Resize.inputFile := [clip];
     Resize.width := "1920";
     Resize.height := None;
     Resize.maintainAspectRatio := true;
     Resize.filter := "bicubic";
     Resize.fileType := Resize.video;
     Resize.quality := None;
     Resize.preset := p;
     Resize.keepAudioBitrate := None |}.

(** The position of a preset in the dropdown, best quality first. *)
Definition preset_rank (p : Compress.Preset) : nat :=
  match p with
  | Compress.lossless => 0
  | Compress.high => 1
  | Compress.medium => 2
  | Compress.low => 3
  | Compress.very_low => 4
  end.

(** A decimal numeral: digits only, at least one. *)
Definition is_numeral (s : string) : bool :=
  (negb (String.eqb s "") && forallb is_digit (chars s))%bool.

(** Two strings that differ in the case of ASCII letters only. *)
Definition same_up_to_case (s1 s2 : string) : Prop :=
  Forall2 (fun a b => canonicalize a = canonicalize b) (chars s1) (chars s2).

Definition notes : string := "/Users/me/notes.txt".

(** A string without a percent sign. *)
Definition percent_free (s : string) : bool :=
  forallb (fun c => negb (Ascii.eqb c "%")) (chars s).

(** [t] is a success toast that names the output file after the input:
    stem, dot, a token that is not empty, extension. *)
Definition announces (inputPath : string) (t : Toast) : Prop :=
  exists token,
    token <> ""
    /\ style t = Success
    /\ message t
       = Text ("Created " ++ stem inputPath ++ "." ++ token
                          ++ extname inputPath).

(** Well-formed UTF-8: a sequence of complete encodings of one code
    point each. *)
Fixpoint well_formed (l : list ascii) : bool :=
  match l with
  | [] => true
  | b0 :: r1 =>
      if Nat.ltb (nat_of_ascii b0) 128 then well_formed r1
      else
        match r1 with
        | [] => false
        | b1 :: r2 =>
            if valid_utf8 [nat_of_ascii b0; nat_of_ascii b1]
            then well_formed r2
            else
              match r2 with
              | [] => false
              | b2 :: r3 =>
                  if valid_utf8 [nat_of_ascii b0; nat_of_ascii b1;
                                 nat_of_ascii b2]
                  then well_formed r3
                  else
                    match r3 with
                    | [] => false
                    | b3 :: r4 =>
                        (valid_utf8 [nat_of_ascii b0; nat_of_ascii b1;
                                     nat_of_ascii b2; nat_of_ascii b3]
                         && well_formed r4)%bool
                    end
              end
        end
  end.

(** U+FFFD as a string. *)
Definition replacement_character : string := str replacement.

(** The two bytes of U+00E9, the letter e with an acute accent. *)
Definition e_acute : list ascii := [ascii_of_nat 195; ascii_of_nat 169].

(** A process that always exits with code 0. *)
Definition clean_exit (args : list string) : ProcessOutcome :=
  Close (Some 0%Z) [].

(** A clipboard file and a file system that holds it. *)
Definition only_file (path : string) (p : string) : bool := String.eqb p path.

(* ================================================================== *)
(** * The runtime model on known values *)

Example extname_samples :
  extname "/Users/me/clip.mp4" = ".mp4"
  /\ extname "index.coffee.md" = ".md"
  /\ extname "index." = "."
  /\ extname "index" = ""
  /\ extname ".index" = ""
  /\ extname ".index.md" = ".md"
  /\ extname "/a/b.c/" = ".c"
  /\ extname ".." = "".
Proof. repeat split; reflexivity. Qed.

Example basename_samples :
  basename "/foo/bar/baz/asdf/quux.html" "" = "quux.html"
  /\ basename "/foo/bar/baz/asdf/quux.html" ".html" = "quux"
  /\ basename "/Users/me/clip.mp4" (extname "/Users/me/clip.mp4") = "clip"
  /\ basename "/Users/me/.bashrc" (extname "/Users/me/.bashrc") = ".bashrc"
  /\ basename "/a/b//" "" = "b"
  /\ basename ".html" ".html" = ""
  /\ basename "/a/.html" ".html" = ".html"
  /\ basename "/x/aaa.mp4" "mp3" = "aaa.mp4".
Proof. repeat split; reflexivity. Qed.

Example dirname_samples :
  dirname "/foo/bar/baz/asdf/quux" = "/foo/bar/baz/asdf"
  /\ dirname "/Users/me/clip.mp4" = "/Users/me"
  /\ dirname "/clip.mp4" = "/"
  /\ dirname "clip.mp4" = "."
  /\ dirname "" = "."
  /\ dirname "a/b/" = "a"
  /\ dirname "/a//b" = "/a/"
  /\ dirname "//a" = "//".
Proof. repeat split; reflexivity. Qed.

Example join_samples :
  join "/foo/bar" "baz.txt" = "/foo/bar/baz.txt"
  /\ join "/foo/bar/baz/asdf" ".." = "/foo/bar/baz"
  /\ join "." "clip.mp4" = "clip.mp4"
  /\ join "/" "clip.mp4" = "/clip.mp4"
  /\ join "/a/./b/../c/" "x" = "/a/c/x"
  /\ join "../a" "../../../b" = "../../../b"
  /\ join "/a" "../../.." = "/"
  /\ join "a" ".." = "."
  /\ join "/Users/me" "photo.q1/2.png" = "/Users/me/photo.q1/2.png".
Proof. repeat split; reflexivity. Qed.

Example parseFloat_to_string_samples :
  to_string (parseFloat "2.0") = "2"
  /\ to_string (parseFloat "0.25") = "0.25"
  /\ to_string (parseFloat "0.1") = "0.1"
  /\ to_string (parseFloat "  -3.50e2xyz") = "-350"
  /\ to_string (parseFloat "abc") = "NaN"
  /\ to_string (parseFloat (nbsp ++ "1.5")) = "1.5"
  /\ to_string (parseFloat (" " ++ wide_space ++ nbsp ++ "-2x")) = "-2"
  /\ to_string (parseFloat (wide_space ++ "")) = "NaN"
  /\ to_string (parseFloat ".") = "NaN"
  /\ to_string (parseFloat ".5") = "0.5"
  /\ to_string (parseFloat "-0") = "0"
  /\ to_string (parseFloat "1e21") = "1e+21"
  /\ to_string (parseFloat "1e23") = "1e+23"
  /\ to_string (parseFloat "1e-7") = "1e-7"
  /\ to_string (parseFloat "0.000001") = "0.000001"
  /\ to_string (parseFloat "1e400") = "Infinity"
  /\ to_string (parseFloat "5e-324") = "5e-324"
  /\ to_string (parseFloat "0.30000000000000004") = "0.30000000000000004"
  /\ to_string (parseFloat "9007199254740993") = "9007199254740992"
  /\ to_string (parseFloat "123456789012345678901234567890")
     = "1.2345678901234568e+29".
Proof. repeat split; vm_compute; reflexivity. Qed.

(** Leading white space beyond the ASCII range is skipped as well: a
    custom audio speed written after a no-break space is read as the
    number it holds. *)
Example speed_after_no_break_space :
  Speed.handleSubmit sp_state (sp_values "2.0" (Some (nbsp ++ "1.5")) None)
  = Ok (mkJob ["-i"; clip; "-filter:v"; "setpts=0.5*PTS";
               "-filter:a"; "atempo=1.5";
               "-y"; "/Users/me/clip.2x.a1.5x.mp4"]
              "/Users/me/clip.2x.a1.5x.mp4").
Proof. vm_compute. reflexivity. Qed.

Example number_samples :
  to_string (div (of_Z 1) (parseFloat "3.0")) = "0.3333333333333333"
  /\ to_string (div (of_Z 1) (parseFloat "0.75")) = "1.3333333333333333"
  /\ to_string (div (of_Z 1) (parseFloat "0")) = "Infinity"
  /\ strict_eqb (parseFloat "2") (parseFloat "2.0") = true
  /\ strict_eqb (parseFloat "x") (parseFloat "x") = false
  /\ strict_eqb (parseFloat "0") (parseFloat "-0") = true.
Proof. repeat split; vm_compute; reflexivity. Qed.

(* ================================================================== *)
(** * Basic facts about strings *)

Lemma chars_app (a b : string) : chars (a ++ b) = (chars a ++ chars b)%list.
Proof. induction a as [|c a IH]; simpl; [reflexivity | now rewrite IH]. Qed.

Lemma str_app (a b : list ascii) : str (a ++ b)%list = str a ++ str b.
Proof. induction a as [|c a IH]; simpl; [reflexivity | now rewrite IH]. Qed.

Lemma str_chars (s : string) : str (chars s) = s.
Proof. apply string_of_list_ascii_of_string. Qed.

Lemma chars_str (l : list ascii) : chars (str l) = l.
Proof. apply list_ascii_of_string_of_list_ascii. Qed.

Lemma append_assoc (a b c : string) : (a ++ b) ++ c = a ++ b ++ c.
Proof. induction a as [|x a IH]; simpl; [reflexivity | now rewrite IH]. Qed.

Lemma append_nil_r (a : string) : a ++ "" = a.
Proof. induction a as [|x a IH]; simpl; [reflexivity | now rewrite IH]. Qed.

(* ================================================================== *)
(** * Paths of plain components *)

Section Scan.
Context {A : Type} (f : A -> bool).

Lemma takeWhile_app_stop (l : list A) x r :
  forallb f l = true -> f x = false -> takeWhile f (l ++ x :: r) = l.
Proof.
  induction l as [|y l IH]; simpl; intros H Hx.
  - now rewrite Hx.
  - apply andb_prop in H as [Hy Hl]. now rewrite Hy, IH.
Qed.

Lemma dropWhile_all (l : list A) :
  forallb f l = true -> dropWhile f l = [].
Proof.
  induction l as [|x l IH]; simpl; [reflexivity|].
  intros H. apply andb_prop in H as [Hx Hl]. now rewrite Hx, IH.
Qed.

Lemma dropWhile_app_stop (l : list A) x r :
  forallb f l = true -> f x = false -> dropWhile f (l ++ x :: r) = x :: r.
Proof.
  induction l as [|y l IH]; simpl; intros H Hx.
  - now rewrite Hx.
  - apply andb_prop in H as [Hy Hl]. now rewrite Hy, IH.
Qed.

Lemma dropWhile_head (l r : list A) :
  l <> [] -> forallb (fun a => negb (f a)) l = true ->
  dropWhile f (l ++ r) = (l ++ r)%list.
Proof.
  destruct l as [|x l]; [congruence|]. simpl. intros _ H.
  apply andb_prop in H as [Hx _]. apply negb_true_iff in Hx. now rewrite Hx.
Qed.

Lemma takeWhile_dropWhile (l : list A) :
  (takeWhile f l ++ dropWhile f l)%list = l.
Proof.
  induction l as [|x l IH]; simpl; [reflexivity|].
  destruct (f x); simpl; [now rewrite IH | reflexivity].
Qed.

Lemma takeWhile_forallb (l : list A) : forallb f (takeWhile f l) = true.
Proof.
  induction l as [|x l IH]; simpl; [reflexivity|].
  destruct (f x) eqn:E; simpl; [now rewrite E | reflexivity].
Qed.

Lemma dropWhile_stops (l : list A) x r :
  dropWhile f l = x :: r -> f x = false.
Proof.
  induction l as [|y l IH]; simpl; [discriminate|].
  destruct (f y) eqn:E; [assumption|]. intros H. injection H as <- <-.
  assumption.
Qed.

End Scan.

Lemma forallb_rev {A} (f : A -> bool) l : forallb f (rev l) = forallb f l.
Proof.
  induction l as [|x l IH]; simpl; [reflexivity|].
  rewrite forallb_app, IH. simpl. rewrite andb_true_r. apply andb_comm.
Qed.

Lemma list_eqb_eq a b : list_eqb a b = true <-> a = b.
Proof.
  unfold list_eqb. rewrite String.eqb_eq. split; [|now intros ->].
  intros H. rewrite <- (chars_str a), <- (chars_str b). now rewrite H.
Qed.

Lemma list_eqb_neq a b : a <> b -> list_eqb a b = false.
Proof.
  intros H. destruct (list_eqb a b) eqn:E; [|reflexivity].
  apply list_eqb_eq in E. contradiction.
Qed.

(** ** The last component of a path that ends in a separator-free name *)

Lemma last_component_rev_name pre file :
  file <> [] -> forallb not_sep file = true ->
  last_component_rev (pre ++ "/"%char :: file) = rev file.
Proof.
  intros Hne Hsf. unfold last_component_rev.
  rewrite rev_app_distr. simpl rev. rewrite <- app_assoc. simpl.
  rewrite dropWhile_head.
  - apply takeWhile_app_stop; [now rewrite forallb_rev | reflexivity].
  - intros H. apply (f_equal (@rev _)) in H. rewrite rev_involutive in H.
    now apply Hne.
  - change (forallb not_sep (rev file) = true). now rewrite forallb_rev.
Qed.

Lemma match_suffix_app s r : match_suffix s (s ++ r) = Matched r.
Proof.
  induction s as [|c s IH]; simpl; [now destruct r|].
  now rewrite Ascii.eqb_refl.
Qed.

(** The extension and the stem split the name: the stem is not empty and
    the extension, when there is one, is a dot followed by characters
    other than a dot. *)
Lemma stem_ext_split pre file :
  file <> [] -> forallb not_sep file = true ->
  let p := (pre ++ "/"%char :: file)%list in
  exists b e,
    file = (b ++ e)%list /\ b <> []
    /\ extname_l p = e /\ basename_l p e = b
    /\ (e = [] \/ exists e', e = "."%char :: e'
                             /\ forallb not_dot e' = true).
Proof.
  intros Hne Hsf p.
  assert (Hc : last_component_rev p = rev file)
    by now apply last_component_rev_name.
  assert (Hwhole : basename_l p [] = file).
  { unfold basename_l. now rewrite Hc, rev_involutive. }
  unfold extname_l. rewrite Hc.
  pose proof (takeWhile_dropWhile not_dot (rev file)) as Hsplit.
  destruct (dropWhile not_dot (rev file)) as [|d before_rev] eqn:Hd.
  { exists file, []. rewrite app_nil_r. repeat split; auto. }
  destruct before_rev as [|x before_rev'] eqn:Hb.
  { exists file, []. rewrite app_nil_r. repeat split; auto. }
  destruct (list_eqb (rev (rev file)) dotdot).
  { exists file, []. rewrite app_nil_r. repeat split; auto. }
  assert (Hdot : d = "."%char).
  { apply dropWhile_stops in Hd. unfold not_dot in Hd.
    apply negb_false_iff in Hd. now apply Ascii.eqb_eq in Hd. }
  subst d.
  set (after_rev := takeWhile not_dot (rev file)) in *.
  set (e := "."%char :: rev after_rev).
  assert (Hfile : file = (rev (x :: before_rev') ++ e)%list).
  { rewrite <- (rev_involutive file), <- Hsplit, rev_app_distr.
    unfold e. simpl. now rewrite <- app_assoc. }
  exists (rev (x :: before_rev')), e.
  split; [exact Hfile|]. split.
  { simpl. intros H. now apply app_eq_nil in H as [_ H]. }
  split; [reflexivity|]. split.
  - unfold basename_l, e. fold e. rewrite Hc.
    assert (Hlen : List.length e < List.length p).
    { unfold p. rewrite Hfile.
      repeat (rewrite ?length_app; simpl List.length). lia. }
    replace (Nat.ltb (List.length p) (List.length e)) with false
      by (symmetry; apply Nat.ltb_ge; lia).
    rewrite list_eqb_neq by (intros H; rewrite H in Hlen; lia).
    replace (rev file) with (rev e ++ x :: before_rev')%list.
    + now rewrite match_suffix_app.
    + rewrite Hfile at 1. rewrite rev_app_distr, rev_involutive.
      reflexivity.
  - right. exists (rev after_rev). split; [reflexivity|].
    rewrite forallb_rev. apply takeWhile_forallb.
Qed.

(** ** Absolute paths of plain components, as lists *)

Lemma join_segments_cons d rest :
  rest <> [] ->
  join_segments (d :: rest) = (d ++ "/"%char :: join_segments rest)%list.
Proof. destruct rest; [congruence | reflexivity]. Qed.

Lemma join_segments_snoc dirs name :
  join_segments (dirs ++ [name])
  = match dirs with
    | [] => name
    | _ :: _ => (join_segments dirs ++ "/"%char :: name)%list
    end.
Proof.
  induction dirs as [|d ds IH]; [reflexivity|].
  change ((d :: ds) ++ [name])%list with (d :: (ds ++ [name]))%list.
  rewrite join_segments_cons by (now destruct ds).
  rewrite IH. destruct ds as [|d' ds']; [reflexivity|].
  rewrite (join_segments_cons d (d' :: ds')) by discriminate.
  now rewrite <- app_assoc.
Qed.

Lemma join_segments_nonempty dirs :
  dirs <> [] -> Forall plain_l dirs -> join_segments dirs <> [].
Proof.
  destruct dirs as [|d ds]; [congruence|]. intros _ H.
  inversion H as [|? ? (Hd & _) _]; subst.
  destruct ds; simpl.
  - assumption.
  - intros E. apply app_eq_nil in E as [E _]. contradiction.
Qed.

Lemma rev_nonempty {A} (l : list A) : l <> [] -> rev l <> [].
Proof.
  intros H E. apply (f_equal (@rev A)) in E.
  rewrite rev_involutive in E. contradiction.
Qed.

Lemma dirname_abs dirs name :
  Forall plain_l dirs -> name <> [] -> forallb not_sep name = true ->
  dirname_l (file_path_l dirs name) = dir_path_l dirs.
Proof.
  intros Hd Hne Hsf. unfold dirname_l, file_path_l, dir_path_l.
  rewrite join_segments_snoc.
  assert (Hrev : forallb (fun a => negb (is_sep a)) (rev name) = true).
  { change (forallb not_sep (rev name) = true). now rewrite forallb_rev. }
  destruct dirs as [|d ds].
  - rewrite <- (app_nil_r (rev name)).
    rewrite dropWhile_head by (auto using rev_nonempty).
    rewrite app_nil_r, dropWhile_all by (now rewrite forallb_rev).
    reflexivity.
  - pose proof (join_segments_nonempty (d :: ds)) as Hj.
    assert (HJ : join_segments (d :: ds) <> [])
      by (apply Hj; [discriminate | assumption]).
    set (J := join_segments (d :: ds)) in *. clearbody J.
    rewrite rev_app_distr. simpl rev. rewrite <- app_assoc. simpl app.
    rewrite dropWhile_head by (auto using rev_nonempty).
    rewrite dropWhile_app_stop by (rewrite ?forallb_rev; auto).
    destruct (rev J) as [|c r] eqn:E.
    + exfalso. now apply (rev_nonempty J).
    + now rewrite <- E, rev_involutive.
Qed.

Lemma split_sep_name s : forallb not_sep s = true -> split_sep s = [s].
Proof.
  induction s as [|c s IH]; simpl; [reflexivity|].
  intros H. apply andb_prop in H as [Hc Hs].
  unfold not_sep in Hc. apply negb_true_iff in Hc.
  now rewrite Hc, IH.
Qed.

Lemma split_sep_app d r :
  forallb not_sep d = true ->
  split_sep (d ++ "/"%char :: r) = d :: split_sep r.
Proof.
  induction d as [|c d IH]; simpl; [reflexivity|].
  intros H. apply andb_prop in H as [Hc Hs].
  unfold not_sep in Hc. apply negb_true_iff in Hc.
  now rewrite Hc, IH.
Qed.

Lemma split_join segs :
  segs <> [] -> Forall plain_l segs -> split_sep (join_segments segs) = segs.
Proof.
  induction segs as [|s rest IH]; [congruence|]. intros _ H.
  inversion H as [|? ? (_ & Hs & _) Hrest]; subst.
  destruct rest as [|s' rest'].
  - simpl. now apply split_sep_name.
  - rewrite join_segments_cons by discriminate.
    rewrite split_sep_app by assumption.
    now rewrite IH.
Qed.

Lemma push_plain b stack seg :
  plain_l seg -> push_segment b stack seg = seg :: stack.
Proof.
  intros (Hne & _ & Hdot & Hdd). unfold push_segment.
  destruct seg; [congruence|].
  now rewrite !list_eqb_neq.
Qed.

Lemma fold_push_plain b segs stack :
  Forall plain_l segs ->
  fold_left (push_segment b) segs stack = (rev segs ++ stack)%list.
Proof.
  intros H. revert stack.
  induction H as [|s segs Hs _ IH]; intros stack; [reflexivity|].
  simpl. rewrite push_plain by assumption. rewrite IH.
  now rewrite <- app_assoc.
Qed.

Lemma normalize_core X Y dirs name :
  Forall plain_l dirs -> plain_l name ->
  fold_left (push_segment false) (split_sep X) [] = rev (dirs ++ [name]) ->
  X = (Y ++ name)%list ->
  normalize_l ("/"%char :: X) = file_path_l dirs name.
Proof.
  intros Hd (Hne & Hsf & Hn1 & Hn2) Hfold HX.
  unfold normalize_l, normalizeString.
  change (is_sep "/") with true. cbv beta iota zeta.
  change (split_sep ("/"%char :: X)) with ([] :: split_sep X).
  change (negb true) with false.
  simpl fold_left. rewrite Hfold, rev_involutive.
  assert (Hj : join_segments (dirs ++ [name]) <> []).
  { rewrite join_segments_snoc. destruct dirs; [assumption|].
    intros E. apply app_eq_nil in E as [_ E]. discriminate. }
  destruct (join_segments (dirs ++ [name])) as [|c r] eqn:E; [congruence|].
  assert (Htrail : match rev ("/"%char :: X) with
                   | c :: _ => is_sep c
                   | [] => false
                   end = false).
  { subst X. simpl rev. rewrite rev_app_distr.
    pose proof (rev_nonempty name Hne) as Hr.
    destruct (rev name) as [|x t] eqn:Er; [congruence|].
    simpl. assert (Hx : forallb not_sep (rev name) = true)
      by now rewrite forallb_rev.
    rewrite Er in Hx. simpl in Hx. apply andb_prop in Hx as [Hx _].
    unfold not_sep in Hx. now apply negb_true_iff in Hx. }
  rewrite Htrail. unfold file_path_l. now rewrite E.
Qed.

Lemma join_abs dirs name :
  Forall plain_l dirs -> plain_l name ->
  join_l (dir_path_l dirs) name = file_path_l dirs name.
Proof.
  intros Hd Hn. pose proof Hn as (Hne & Hsf & _).
  unfold join_l, dir_path_l.
  destruct name as [|c name'] eqn:En; [congruence|]. rewrite <- En in *.
  change (("/"%char :: join_segments dirs) ++ "/"%char :: name)%list
    with ("/"%char :: (join_segments dirs ++ "/"%char :: name))%list.
  destruct dirs as [|d ds].
  - apply normalize_core with (Y := ["/"%char]); auto.
    simpl join_segments. simpl app.
    change (split_sep ("/"%char :: name)) with ([] :: split_sep name).
    rewrite split_sep_name by assumption.
    simpl. now rewrite push_plain.
  - apply normalize_core
      with (Y := (join_segments (d :: ds) ++ ["/"%char])%list); auto.
    + replace (join_segments (d :: ds) ++ "/"%char :: name)%list
        with (join_segments ((d :: ds) ++ [name]))
        by (now rewrite join_segments_snoc).
      rewrite split_join.
      * rewrite fold_push_plain, app_nil_r; [reflexivity|].
        apply Forall_app. auto.
      * now destruct ds.
      * apply Forall_app. auto.
    + now rewrite <- app_assoc.
Qed.

Lemma file_path_inj dirs n1 n2 :
  file_path_l dirs n1 = file_path_l dirs n2 -> n1 = n2.
Proof.
  unfold file_path_l. rewrite !join_segments_snoc. intros H.
  injection H as H. destruct dirs; [assumption|].
  apply app_inv_head in H. now injection H.
Qed.

(** ** The same facts on strings *)

Lemma length_append (a b : string) :
  String.length (a ++ b) = String.length a + String.length b.
Proof. induction a as [|c a IH]; simpl; [reflexivity | now rewrite IH]. Qed.

Lemma append_inv_head (a b c : string) : a ++ b = a ++ c -> b = c.
Proof.
  induction a as [|x a IH]; simpl; [trivial|].
  intros H. injection H as H. auto.
Qed.

Lemma chars_inj (a b : string) : chars a = chars b -> a = b.
Proof.
  intros H. rewrite <- (str_chars a), <- (str_chars b). now rewrite H.
Qed.

Lemma chars_nonempty (s : string) : s <> "" -> chars s <> [].
Proof. destruct s; [congruence | discriminate]. Qed.

Lemma sep_free_app (a b : string) :
  sep_free (a ++ b) = (sep_free a && sep_free b)%bool.
Proof. unfold sep_free. now rewrite chars_app, forallb_app. Qed.

Lemma chars_cons c (s : string) : chars (String c s) = c :: chars s.
Proof. reflexivity. Qed.

Lemma chars_concat (ls : list string) :
  chars (String.concat "/" ls) = join_segments (map chars ls).
Proof.
  induction ls as [|x xs IH]; [reflexivity|].
  destruct xs as [|y ys]; [reflexivity|].
  change (String.concat "/" (x :: y :: ys))
    with (x ++ String "/" (String.concat "/" (y :: ys))).
  rewrite chars_app, chars_cons, IH. reflexivity.
Qed.

Lemma chars_abs_path dirs file :
  chars (abs_path dirs file) = file_path_l (map chars dirs) (chars file).
Proof.
  unfold abs_path, file_path_l.
  change ("/" ++ ?s) with (String "/" s).
  now rewrite chars_cons, chars_concat, map_app.
Qed.

Lemma chars_abs_dir dirs :
  chars (abs_dir dirs) = dir_path_l (map chars dirs).
Proof.
  unfold abs_dir, dir_path_l.
  change ("/" ++ ?s) with (String "/" s).
  now rewrite chars_cons, chars_concat.
Qed.

Lemma plain_name_l s : plain_name s = true -> plain_l (chars s).
Proof.
  unfold plain_name, plain_l. intros H.
  apply andb_prop in H as [H Hsf]. apply andb_prop in H as [H Hdd].
  apply andb_prop in H as [He Hd].
  apply negb_true_iff, String.eqb_neq in He, Hd, Hdd.
  repeat split; [now apply chars_nonempty | exact Hsf | |];
    intros E; [apply Hd | apply Hdd]; apply chars_inj; exact E.
Qed.

Lemma plain_names_l dirs :
  forallb plain_name dirs = true -> Forall plain_l (map chars dirs).
Proof.
  intros H. apply Forall_map, Forall_forall. intros d Hd.
  apply plain_name_l. rewrite forallb_forall in H. auto.
Qed.

Lemma plain_of_long s :
  sep_free s = true -> 3 <= String.length s -> plain_name s = true.
Proof.
  intros Hsf Hlen. unfold plain_name. fold (sep_free s). rewrite Hsf.
  destruct s as [|a [|b [|c s]]]; simpl in Hlen; try lia.
  now rewrite !(proj2 (String.eqb_neq _ _)) by discriminate.
Qed.

Section PlainPath.
Variables (dirs : list string) (file : string).
Hypothesis Hdirs : forallb plain_name dirs = true.
Hypothesis Hfile : plain_name file = true.

Let inputPath := abs_path dirs file.

Lemma dirname_abs_path : dirname inputPath = abs_dir dirs.
Proof.
  unfold dirname, inputPath. rewrite chars_abs_path.
  destruct (plain_name_l _ Hfile) as (Hne & Hsf & _).
  rewrite dirname_abs by (auto using plain_names_l).
  now rewrite <- chars_abs_dir, str_chars.
Qed.

Lemma stem_extname :
  file = stem inputPath ++ extname inputPath
  /\ stem inputPath <> ""
  /\ sep_free (stem inputPath) = true
  /\ sep_free (extname inputPath) = true
  /\ (extname inputPath = ""
      \/ exists e, extname inputPath = "." ++ e
                   /\ forallb not_dot (chars e) = true).
Proof.
  destruct (plain_name_l _ Hfile) as (Hne & Hsf & _).
  assert (Hp : chars inputPath
               = (("/"%char :: join_segments (map chars dirs))
                    ++ "/"%char :: chars file)%list
               \/ chars inputPath = ([] ++ "/"%char :: chars file)%list).
  { unfold inputPath. rewrite chars_abs_path. unfold file_path_l.
    rewrite join_segments_snoc.
    destruct (map chars dirs); [now right | now left]. }
  assert (Hsplit : exists pre,
             chars inputPath = (pre ++ "/"%char :: chars file)%list)
    by (destruct Hp as [Hp | Hp]; eexists; exact Hp).
  destruct Hsplit as (pre & Hpre).
  destruct (stem_ext_split pre (chars file) Hne Hsf)
    as (b & e & Hbe & Hb & He & Hbase & Hshape).
  rewrite <- Hpre in He, Hbase.
  assert (Hext : extname inputPath = str e)
    by (unfold extname; now rewrite He).
  assert (Hstem : stem inputPath = str b).
  { unfold stem, basename. rewrite Hext, chars_str. now rewrite Hbase. }
  rewrite Hext, Hstem.
  assert (Hsf' : (forallb not_sep b && forallb not_sep e)%bool = true)
    by (now rewrite <- forallb_app, <- Hbe).
  apply andb_prop in Hsf' as [Hsb Hse].
  repeat split.
  - apply chars_inj. now rewrite chars_app, !chars_str.
  - intros E. apply (f_equal chars) in E. rewrite chars_str in E.
    contradiction.
  - unfold sep_free. now rewrite chars_str.
  - unfold sep_free. now rewrite chars_str.
  - destruct Hshape as [-> | (e' & -> & Hdots)]; [now left|].
    right. exists (str e'). split; [reflexivity|]. now rewrite chars_str.
Qed.

Lemma join_abs_path name :
  plain_name name = true -> join (abs_dir dirs) name = abs_path dirs name.
Proof.
  intros Hn. unfold join. rewrite chars_abs_dir.
  rewrite join_abs by (auto using plain_names_l, plain_name_l).
  now rewrite <- chars_abs_path, str_chars.
Qed.

Lemma abs_path_inj n1 n2 : abs_path dirs n1 = abs_path dirs n2 -> n1 = n2.
Proof.
  intros H. apply (f_equal chars) in H. rewrite !chars_abs_path in H.
  apply file_path_inj in H. now apply chars_inj.
Qed.

(** A file named [name] written next to the input: it is in the
    directory of the input, and it is the input only when it has the
    input's name. *)
Lemma sibling name :
  plain_name name = true ->
  let out := join (dirname inputPath) name in
  dirname out = dirname inputPath /\ (out = inputPath <-> name = file).
Proof.
  intros Hn out. unfold out. rewrite dirname_abs_path, join_abs_path by auto.
  split.
  - unfold dirname. rewrite chars_abs_path.
    destruct (plain_name_l _ Hn) as (Hne & Hsf & _).
    rewrite dirname_abs by (auto using plain_names_l).
    now rewrite <- chars_abs_dir, str_chars.
  - split; [apply abs_path_inj | now intros ->].
Qed.

End PlainPath.

(** ** Names built next to the input *)

Section Siblings.
Variables (dirs : list string) (file : string).
Hypothesis Hdirs : forallb plain_name dirs = true.
Hypothesis Hfile : plain_name file = true.

Let inputPath := abs_path dirs file.

(** A name made of the stem, a dot, a token and the extension. *)
Lemma suffixed_sibling token :
  sep_free token = true -> token <> "" ->
  let out :=
    join (dirname inputPath)
         (stem inputPath ++ "." ++ token ++ extname inputPath) in
  dirname out = dirname inputPath /\ out <> inputPath.
Proof.
  intros Hsf Hne out.
  destruct (stem_extname dirs file Hfile)
    as (Hsplit & Hstem & Hsb & Hse & _).
  fold inputPath in Hsplit, Hstem, Hsb, Hse.
  assert (Hlen : 1 <= String.length token)
    by (destruct token; [congruence | simpl; lia]).
  assert (Hlen' : 1 <= String.length (stem inputPath))
    by (destruct (stem inputPath); [congruence | simpl; lia]).
  destruct (sibling dirs file Hdirs Hfile
              (stem inputPath ++ "." ++ token ++ extname inputPath))
    as (Hdir & Hsame).
  - apply plain_of_long.
    + rewrite !sep_free_app, Hsb, Hsf, Hse. reflexivity.
    + rewrite !length_append. simpl. lia.
  - split; [exact Hdir|]. intros E. apply Hsame in E.
    rewrite Hsplit in E. apply append_inv_head in E.
    apply (f_equal String.length) in E.
    rewrite !length_append in E. simpl in E. lia.
Qed.

(** A name made of the stem, a suffix that is empty or starts with a
    dot, and a new extension. *)
Lemma converted_sibling sfx fmt :
  sep_free sfx = true -> sep_free fmt = true -> fmt <> "" ->
  (sfx = "" \/ exists s, sfx = "." ++ s) ->
  let out :=
    join (dirname inputPath) ((stem inputPath ++ sfx) ++ "." ++ fmt) in
  dirname out = dirname inputPath
  /\ (out = inputPath <-> sfx = "" /\ "." ++ fmt = extname inputPath).
Proof.
  intros Hsf Hff Hne Hshape out.
  destruct (stem_extname dirs file Hfile)
    as (Hsplit & Hstem & Hsb & Hse & Hext).
  fold inputPath in Hsplit, Hstem, Hsb, Hse, Hext.
  assert (Hlen : 1 <= String.length fmt)
    by (destruct fmt; [congruence | simpl; lia]).
  assert (Hlen' : 1 <= String.length (stem inputPath))
    by (destruct (stem inputPath); [congruence | simpl; lia]).
  destruct (sibling dirs file Hdirs Hfile
              ((stem inputPath ++ sfx) ++ "." ++ fmt))
    as (Hdir & Hsame).
  - apply plain_of_long.
    + rewrite !sep_free_app, Hsb, Hsf, Hff. reflexivity.
    + rewrite !length_append. simpl. lia.
  - split; [exact Hdir|]. fold inputPath out in Hsame. rewrite Hsame.
    rewrite Hsplit at 1. rewrite append_assoc. split.
    + intros E. apply append_inv_head in E.
      destruct Hshape as [-> | (s & ->)]; [now split|].
      exfalso. destruct Hext as [He | (e & He & Hdots)].
      * rewrite He in E. discriminate E.
      * rewrite He in E. simpl in E. injection E as E.
        rewrite <- E, chars_app in Hdots. simpl in Hdots.
        rewrite forallb_app in Hdots. simpl in Hdots.
        now rewrite andb_false_r in Hdots.
    + intros (-> & <-). reflexivity.
Qed.

End Siblings.

(** ** Numbers print without a separator *)

Lemma sep_free_uint u : sep_free (NilEmpty.string_of_uint u) = true.
Proof. induction u; simpl; auto. Qed.

Lemma sep_free_dec z : sep_free (dec z) = true.
Proof.
  unfold dec, NilZero.string_of_uint.
  destruct (N.to_uint (Z.to_N z)); try reflexivity; apply sep_free_uint.
Qed.

Lemma sep_free_zeros n : sep_free (zeros n) = true.
Proof. induction n; simpl; auto. Qed.

Lemma sep_free_substring s :
  sep_free s = true -> forall n m, sep_free (substring n m s) = true.
Proof.
  induction s as [|c s IH]; intros H n m.
  - destruct n, m; reflexivity.
  - unfold sep_free in H. simpl in H. apply andb_prop in H as [Hc Hs].
    destruct n as [|n]; [destruct m as [|m]|]; simpl.
    + reflexivity.
    + unfold sep_free. simpl. rewrite Hc. now apply IH.
    + now apply IH.
Qed.

Lemma sep_free_format s n : sep_free (format s n) = true.
Proof.
  unfold format.
  pose proof (sep_free_dec s) as Hd.
  repeat match goal with
         | |- context [if ?b then _ else _] => destruct b
         end;
    rewrite ?sep_free_app, ?sep_free_zeros, ?sep_free_dec,
      ?sep_free_substring by assumption; reflexivity.
Qed.

Lemma to_string_sep_free x : sep_free (to_string x) = true.
Proof.
  destruct x as [s|s| |s m e]; unfold to_string;
    try (destruct s; reflexivity); try reflexivity.
  destruct (if (0 <=? e)%Z then _ else _) as [a b].
  match goal with
  | |- context [shortest ?f ?x ?a ?b ?n ?k] =>
      destruct (shortest f x a b n k) as [d n']
  end.
  rewrite sep_free_app, sep_free_format. now destruct s.
Qed.

(* ================================================================== *)
(** * The shape of the argument list *)

Lemma encode_appends ft values args name :
  exists extra, fst (Convert.encode ft values args name) = (args ++ extra)%list.
Proof.
  unfold Convert.encode, push.
  destruct ft as [[| |]|];
    repeat match goal with
           | |- context [if ?b then _ else _] => destruct b
           end; simpl;
    rewrite <- ?app_assoc;
    first [ eexists; reflexivity | exists []; symmetry; apply app_nil_r ].
Qed.

Ltac frame_with mid :=
  do 2 eexists; split; [reflexivity | exists mid; reflexivity].

(** C1. Every handler that compiles a job returns an argument list that
    starts with [-i] and the input path and whose last two tokens are [-y]
    and the output path it computed; the convert, resolution, resize-image,
    speed and resize handlers compile whenever a file was submitted, the
    compress handler whenever in addition the media kind is known. *)
Theorem argv_framing :
  (forall st v, framed_or (Convert.inputFile v = [])
                          (Convert.inputFile v) (Convert.handleSubmit st v))
  /\ (forall st v, framed_or (ResolutionVideo.inputFile v = [])
                             (ResolutionVideo.inputFile v)
                             (ResolutionVideo.handleSubmit st v))
  /\ (forall st v, framed_or (ResizeImage.inputFile v = [])
                             (ResizeImage.inputFile v)
                             (ResizeImage.handleSubmit st v))
  /\ (forall st v, framed_or (Speed.inputFile v = [])
                             (Speed.inputFile v) (Speed.handleSubmit st v))
  /\ (forall st v, framed_or (Resize.inputFile v = [])
                             (Resize.inputFile v) (Resize.handleSubmit st v))
  /\ (forall st v, framed_or (Compress.inputFile v = []
                              \/ Compress.fileType st = None)
                             (Compress.inputFile v)
                             (Compress.handleSubmit st v)).
Proof.
  repeat split; intros st v.
  - unfold Convert.handleSubmit.
    destruct (Convert.inputFile v) as [|p rest]; simpl; [reflexivity|].
    destruct (encode_appends (Convert.fileType st) v ["-i"; p]
                (basename p (extname p))) as [extra He].
    destruct (Convert.encode _ _ _ _) as [args name]; simpl in *; subst args.
    frame_with extra.
  - unfold ResolutionVideo.handleSubmit.
    destruct (ResolutionVideo.inputFile v) as [|p rest]; simpl; [reflexivity|].
    destruct (ResolutionVideo.keepAudioBitrate v).
    + frame_with ["-vf"; ResolutionVideo.scaleFilter v; "-preset";
                  ResolutionVideo.preset v; "-c:a"; "copy"].
    + frame_with ["-vf"; ResolutionVideo.scaleFilter v; "-preset";
                  ResolutionVideo.preset v].
  - unfold ResizeImage.handleSubmit.
    destruct (ResizeImage.inputFile v) as [|p rest]; simpl; [reflexivity|].
    destruct (negb _).
    + frame_with ["-vf"; ResizeImage.scaleFilter v; "-q:v";
                  ResizeImage.quality v].
    + frame_with ["-vf"; ResizeImage.scaleFilter v].
  - unfold Speed.handleSubmit.
    destruct (Speed.inputFile v) as [|p rest]; simpl; [reflexivity|].
    destruct (Speed.fileType st) as [[| |]|]; simpl.
    + frame_with ["-filter:v"; Speed.videoFilter v;
                  "-filter:a"; Speed.audioFilter v].
    + frame_with ["-filter:a";
                  "atempo=" ++ to_string (parseFloat (Speed.speed v))].
    + frame_with ["-filter:a";
                  "atempo=" ++ to_string (parseFloat (Speed.speed v))].
    + frame_with ["-filter:a";
                  "atempo=" ++ to_string (parseFloat (Speed.speed v))].
  - unfold Resize.handleSubmit.
    destruct (Resize.inputFile v) as [|p rest]; simpl; [reflexivity|].
    destruct (Resize.fileType v); simpl.
    + destruct (truthy (Resize.quality v)); simpl.
      * frame_with ["-vf"; Resize.scaleFilter v; "-q:v";
                    tmpl (Resize.quality v)].
      * frame_with ["-vf"; Resize.scaleFilter v].
    + destruct (truthy_bool (Resize.keepAudioBitrate v)).
      * frame_with ["-vf"; Resize.scaleFilter v; "-preset";
                    or_else (Resize.preset v) "medium"; "-c:a"; "copy"].
      * frame_with ["-vf"; Resize.scaleFilter v; "-preset";
                    or_else (Resize.preset v) "medium"].
  - unfold Compress.handleSubmit, Compress.qualityValue.
    destruct (Compress.inputFile v) as [|p rest]; simpl; [now left|].
    destruct (Compress.fileType st) as [[| |]|];
      destruct (negb _); simpl; try (now right).
    all: try (frame_with ["-crf"; Compress.quality v; "-preset"; "medium"]).
    all: try (frame_with ["-crf";
                          Compress.QUALITY_PRESETS Video (Compress.preset v);
                         "-preset"; "medium"]).
    all: try (frame_with ["-b:a"; Compress.quality v ++ "k"]).
    all: try (frame_with ["-b:a";
                Compress.QUALITY_PRESETS Audio (Compress.preset v) ++ "k"]).
    all: try (frame_with ["-q:v"; Compress.quality v]).
    all: try (frame_with ["-q:v";
                Compress.QUALITY_PRESETS Image (Compress.preset v)]).
Qed.

Ltac compiled := unfold compiles_to; do 2 eexists; repeat split; reflexivity.

(* ================================================================== *)
(** * Undetermined media kind *)

(** With the media kind undetermined the compress handler raises, whether
    or not a quality was typed in. *)
Lemma compress_undetermined_kind_raises st v :
  Compress.fileType st = None ->
  exists e, Compress.handleSubmit st v = Throw e.
Proof.
  intros Hk. unfold Compress.handleSubmit, Compress.qualityValue.
  rewrite Hk.
  destruct (Compress.inputFile v); [eexists; reflexivity|].
  destruct (truthy _); eexists; reflexivity.
Qed.

(** The convert handler has no such case: every branch on the file type is
    skipped and the bare list is compiled. *)
Lemma convert_undetermined_kind st v inputPath rest :
  Convert.fileType st = None ->
  Convert.inputFile v = inputPath :: rest ->
  let outputPath :=
    join (dirname inputPath)
         (basename inputPath (extname inputPath) ++ "." ++ Convert.format v) in
  Convert.handleSubmit st v
  = Ok (mkJob ["-i"; inputPath; "-y"; outputPath] outputPath).
Proof.
  intros Hk Hf. unfold Convert.handleSubmit. rewrite Hk, Hf. reflexivity.
Qed.

(** C2 (the code departs from the claim). Converting a file whose media
    kind is undetermined does not raise: the handler returns the argument
    list [-i input -y output] with none of the options in it, where the
    compress handler on the same file raises. *)
Example convert_undetermined_kind_compiles :
  Convert.handleSubmit
    {| Convert.defaultFile := [];
       Convert.fileType := None;
       Convert.maintainQualityState := false |}
    {| Convert.inputFile := ["/Users/me/notes.txt"];
       Convert.format := "mp4";
       Convert.codec := None;
       Convert.quality := None;
       Convert.maintainQuality := None |}
  = Ok (mkJob ["-i"; "/Users/me/notes.txt"; "-y"; "/Users/me/notes.mp4"]
              "/Users/me/notes.mp4")
  /\ Compress.handleSubmit
       {| Compress.defaultFile := []; Compress.fileType := None |}
       {| Compress.inputFile := ["/Users/me/notes.txt"];
          Compress.quality := "18";
          Compress.preset := Compress.medium |}
     = Throw UnsupportedFileType.
Proof. split; vm_compute; reflexivity. Qed.

(* ================================================================== *)
(** * Rescale *)

(** C5. With the aspect ratio maintained the scale filter fixes the width
    and leaves the height to the tool, as [-2] for video and as [-1] for
    images, in the stand-alone forms and in the unified one (whose video
    branch always does so); a video of width 1920 with the bicubic filter
    gets [scale=1920:-2:flags=bicubic] and the file-name token [1920p]. *)
Theorem rescale_keep_aspect :
  (forall st v inputPath rest,
     ResolutionVideo.inputFile v = inputPath :: rest ->
     ResolutionVideo.maintainAspectRatio v = true ->
     compiles_to (ResolutionVideo.handleSubmit st v) inputPath
       ["-vf"; "scale=" ++ ResolutionVideo.width v ++ ":-2:flags="
                        ++ ResolutionVideo.filter v]
       (stem inputPath ++ "." ++ (ResolutionVideo.width v ++ "p")
             ++ ResolutionVideo.presetSuffix v ++ extname inputPath))
  /\ (forall st v inputPath rest,
     ResizeImage.inputFile v = inputPath :: rest ->
     ResizeImage.maintainAspectRatio v = true ->
     compiles_to (ResizeImage.handleSubmit st v) inputPath
       ["-vf"; "scale=" ++ ResizeImage.width v ++ ":-1:flags="
                        ++ ResizeImage.filter v]
       (stem inputPath ++ "." ++ (ResizeImage.width v ++ "w")
             ++ ResizeImage.qualitySuffix v ++ extname inputPath))
  /\ (forall st v inputPath rest,
     Resize.inputFile v = inputPath :: rest ->
     Resize.fileType v = Resize.video ->
     compiles_to (Resize.handleSubmit st v) inputPath
       ["-vf"; "scale=" ++ Resize.width v ++ ":-2:flags=" ++ Resize.filter v]
       (stem inputPath ++ "." ++ Resize.sanitize (Resize.width v ++ "p")
             ++ Resize.presetSuffix v ++ extname inputPath))
  /\ (forall st v inputPath rest,
     Resize.inputFile v = inputPath :: rest ->
     Resize.fileType v = Resize.image ->
     Resize.maintainAspectRatio v = true ->
     compiles_to (Resize.handleSubmit st v) inputPath
       ["-vf"; "scale=" ++ Resize.width v ++ ":-1:flags=" ++ Resize.filter v]
       (stem inputPath ++ "." ++ Resize.sanitize (Resize.width v ++ "w")
             ++ Resize.qualitySuffix v ++ extname inputPath))
  /\ (forall st v inputPath rest,
     ResolutionVideo.inputFile v = inputPath :: rest ->
     ResolutionVideo.maintainAspectRatio v = true ->
     ResolutionVideo.width v = "1920" ->
     ResolutionVideo.filter v = "bicubic" ->
     compiles_to (ResolutionVideo.handleSubmit st v) inputPath
       ["-vf"; "scale=1920:-2:flags=bicubic"]
       (stem inputPath ++ ".1920p"
             ++ ResolutionVideo.presetSuffix v ++ extname inputPath))
  /\ (forall st v inputPath rest,
     Resize.inputFile v = inputPath :: rest ->
     Resize.fileType v = Resize.video ->
     Resize.width v = "1920" ->
     Resize.filter v = "bicubic" ->
     compiles_to (Resize.handleSubmit st v) inputPath
       ["-vf"; "scale=1920:-2:flags=bicubic"]
       (stem inputPath ++ ".1920p"
             ++ Resize.presetSuffix v ++ extname inputPath)).
Proof.
  repeat apply conj.
  - intros st v p rest Hf Ha.
    unfold ResolutionVideo.handleSubmit, ResolutionVideo.scaleFilter,
      ResolutionVideo.resolution.
    rewrite Hf, Ha.
    destruct (ResolutionVideo.keepAudioBitrate v); compiled.
  - intros st v p rest Hf Ha.
    unfold ResizeImage.handleSubmit, ResizeImage.scaleFilter,
      ResizeImage.resolution.
    rewrite Hf, Ha.
    destruct (truthy (Some (ResizeImage.quality v))); compiled.
  - intros st v p rest Hf Hk.
    unfold Resize.handleSubmit, Resize.scaleFilter,
      Resize.sanitizedResolution, Resize.resolution, Resize.qualitySuffix,
      Resize.scaling.
    rewrite Hf, Hk. simpl.
    destruct (truthy_bool (Resize.keepAudioBitrate v)); compiled.
  - intros st v p rest Hf Hk Ha.
    unfold Resize.handleSubmit, Resize.scaleFilter,
      Resize.sanitizedResolution, Resize.resolution, Resize.presetSuffix,
      Resize.scaling.
    rewrite Hf, Hk, Ha, andb_false_r. simpl.
    destruct (truthy (Resize.quality v)); compiled.
  - intros st v p rest Hf Ha Hw Hfl.
    unfold ResolutionVideo.handleSubmit, ResolutionVideo.scaleFilter,
      ResolutionVideo.resolution.
    rewrite Hf, Ha, Hw, Hfl.
    destruct (ResolutionVideo.keepAudioBitrate v); compiled.
  - intros st v p rest Hf Hk Hw Hfl.
    unfold Resize.handleSubmit, Resize.scaleFilter,
      Resize.sanitizedResolution, Resize.resolution, Resize.qualitySuffix,
      Resize.scaling.
    rewrite Hf, Hk, Hw, Hfl. simpl.
    destruct (truthy_bool (Resize.keepAudioBitrate v)); compiled.
Qed.

Lemma rescale_keep_aspect_witness :
  compiles_to (ResolutionVideo.handleSubmit rv_state (rv_values true ""))
    clip ["-vf"; "scale=1920:-2:flags=bicubic"] "clip.1920p.mp4"
  /\ compiles_to (ResizeImage.handleSubmit ri_state (ri_values true "800" ""))
       photo ["-vf"; "scale=800:-1:flags=lanczos"] "photo.800w.png"
  /\ compiles_to (Resize.handleSubmit rs_state (rs_video true None))
       clip ["-vf"; "scale=1920:-2:flags=bicubic"] "clip.1920p.mp4"
  /\ compiles_to (Resize.handleSubmit rs_state (rs_image true "800" None))
       photo ["-vf"; "scale=800:-1:flags=lanczos"] "photo.800w.png".
Proof.
  destruct rescale_keep_aspect as (H1 & H2 & H3 & H4 & H5 & H6).
  repeat apply conj.
  - exact (H5 rv_state (rv_values true "") clip [] eq_refl eq_refl
              eq_refl eq_refl).
  - exact (H2 ri_state (ri_values true "800" "") photo [] eq_refl eq_refl).
  - exact (H6 rs_state (rs_video true None) clip [] eq_refl eq_refl
              eq_refl eq_refl).
  - exact (H4 rs_state (rs_image true "800" None) photo [] eq_refl eq_refl
              eq_refl).
Defined.

(** C4, as amended. With the aspect ratio not maintained, the stand-alone
    video and image forms put both width and height in the scale filter,
    [scale={width}:{height}:flags={filter}], and name the file
    [{width}x{height}]; the unified form does so for images when a height
    is supplied (the file-name token with every character outside letters,
    digits, dot and hyphen removed), so an image of 800 by 600 gets
    [scale=800:600:flags={filter}] and the token [800x600]; for video the
    unified form has no height and keeps [scale={width}:-2:flags={filter}]
    and [{width}p] whatever the flag. *)
Theorem rescale_explicit_dimensions :
  (forall st v inputPath rest,
     ResolutionVideo.inputFile v = inputPath :: rest ->
     ResolutionVideo.maintainAspectRatio v = false ->
     compiles_to (ResolutionVideo.handleSubmit st v) inputPath
       ["-vf"; "scale=" ++ ResolutionVideo.width v ++ ":"
                        ++ ResolutionVideo.height v ++ ":flags="
                        ++ ResolutionVideo.filter v]
       (stem inputPath ++ "."
             ++ (ResolutionVideo.width v ++ "x" ++ ResolutionVideo.height v)
             ++ ResolutionVideo.presetSuffix v ++ extname inputPath))
  /\ (forall st v inputPath rest,
     ResizeImage.inputFile v = inputPath :: rest ->
     ResizeImage.maintainAspectRatio v = false ->
     compiles_to (ResizeImage.handleSubmit st v) inputPath
       ["-vf"; "scale=" ++ ResizeImage.width v ++ ":"
                        ++ ResizeImage.height v ++ ":flags="
                        ++ ResizeImage.filter v]
       (stem inputPath ++ "."
             ++ (ResizeImage.width v ++ "x" ++ ResizeImage.height v)
             ++ ResizeImage.qualitySuffix v ++ extname inputPath))
  /\ (forall st v inputPath rest h,
     Resize.inputFile v = inputPath :: rest ->
     Resize.fileType v = Resize.image ->
     Resize.maintainAspectRatio v = false ->
     Resize.height v = Some h -> h <> "" ->
     compiles_to (Resize.handleSubmit st v) inputPath
       ["-vf"; "scale=" ++ Resize.width v ++ ":" ++ h ++ ":flags="
                        ++ Resize.filter v]
       (stem inputPath ++ "."
             ++ Resize.sanitize (Resize.width v ++ "x" ++ h)
             ++ Resize.qualitySuffix v ++ extname inputPath))
  /\ (forall st v inputPath rest,
     ResizeImage.inputFile v = inputPath :: rest ->
     ResizeImage.maintainAspectRatio v = false ->
     ResizeImage.width v = "800" -> ResizeImage.height v = "600" ->
     compiles_to (ResizeImage.handleSubmit st v) inputPath
       ["-vf"; "scale=800:600:flags=" ++ ResizeImage.filter v]
       (stem inputPath ++ ".800x600"
             ++ ResizeImage.qualitySuffix v ++ extname inputPath))
  /\ (forall st v inputPath rest,
     Resize.inputFile v = inputPath :: rest ->
     Resize.fileType v = Resize.image ->
     Resize.maintainAspectRatio v = false ->
     Resize.width v = "800" -> Resize.height v = Some "600" ->
     compiles_to (Resize.handleSubmit st v) inputPath
       ["-vf"; "scale=800:600:flags=" ++ Resize.filter v]
       (stem inputPath ++ ".800x600"
             ++ Resize.qualitySuffix v ++ extname inputPath))
  /\ (forall st v inputPath rest,
     Resize.inputFile v = inputPath :: rest ->
     Resize.fileType v = Resize.video ->
     Resize.maintainAspectRatio v = false ->
     compiles_to (Resize.handleSubmit st v) inputPath
       ["-vf"; "scale=" ++ Resize.width v ++ ":-2:flags=" ++ Resize.filter v]
       (stem inputPath ++ "." ++ Resize.sanitize (Resize.width v ++ "p")
             ++ Resize.presetSuffix v ++ extname inputPath)).
Proof.
  assert (Hne : forall h, h <> "" -> truthy (Some h) = true).
  { intros h Hh. simpl. apply negb_true_iff. now apply String.eqb_neq. }
  repeat apply conj.
  - intros st v p rest Hf Ha.
    unfold ResolutionVideo.handleSubmit, ResolutionVideo.scaleFilter,
      ResolutionVideo.resolution.
    rewrite Hf, Ha.
    destruct (ResolutionVideo.keepAudioBitrate v); compiled.
  - intros st v p rest Hf Ha.
    unfold ResizeImage.handleSubmit, ResizeImage.scaleFilter,
      ResizeImage.resolution.
    rewrite Hf, Ha.
    destruct (truthy (Some (ResizeImage.quality v))); compiled.
  - intros st v p rest h Hf Hk Ha Hh Hne'.
    unfold Resize.handleSubmit, Resize.scaleFilter,
      Resize.sanitizedResolution, Resize.resolution, Resize.presetSuffix,
      Resize.scaling.
    rewrite Hf, Hk, Ha, Hh, (Hne h Hne'). simpl.
    destruct (truthy (Resize.quality v)); compiled.
  - intros st v p rest Hf Ha Hw Hh.
    unfold ResizeImage.handleSubmit, ResizeImage.scaleFilter,
      ResizeImage.resolution.
    rewrite Hf, Ha, Hw, Hh.
    destruct (truthy (Some (ResizeImage.quality v))); compiled.
  - intros st v p rest Hf Hk Ha Hw Hh.
    unfold Resize.handleSubmit, Resize.scaleFilter,
      Resize.sanitizedResolution, Resize.resolution, Resize.presetSuffix,
      Resize.scaling.
    rewrite Hf, Hk, Ha, Hw, Hh. simpl.
    destruct (truthy (Resize.quality v)); compiled.
  - intros st v p rest Hf Hk Ha.
    unfold Resize.handleSubmit, Resize.scaleFilter,
      Resize.sanitizedResolution, Resize.resolution, Resize.qualitySuffix,
      Resize.scaling.
    rewrite Hf, Hk. simpl.
    destruct (truthy_bool (Resize.keepAudioBitrate v)); compiled.
Qed.

Lemma rescale_explicit_dimensions_witness :
  compiles_to (ResolutionVideo.handleSubmit rv_state (rv_values false "1080"))
    clip ["-vf"; "scale=1920:1080:flags=bicubic"] "clip.1920x1080.mp4"
  /\ compiles_to
       (ResizeImage.handleSubmit ri_state (ri_values false "800" "600"))
       photo ["-vf"; "scale=800:600:flags=lanczos"] "photo.800x600.png"
  /\ compiles_to
       (Resize.handleSubmit rs_state (rs_image false "80 0" (Some "60:0")))
       photo ["-vf"; "scale=80 0:60:0:flags=lanczos"] "photo.800x600.png"
  /\ compiles_to
       (Resize.handleSubmit rs_state (rs_image false "800" (Some "600")))
       photo ["-vf"; "scale=800:600:flags=lanczos"] "photo.800x600.png"
  /\ compiles_to
       (Resize.handleSubmit rs_state (rs_video false (Some "1080")))
       clip ["-vf"; "scale=1920:-2:flags=bicubic"] "clip.1920p.mp4".
Proof.
  destruct rescale_explicit_dimensions as (H1 & H2 & H3 & H4 & H5 & H6).
  repeat apply conj.
  - exact (H1 rv_state (rv_values false "1080") clip [] eq_refl eq_refl).
  - exact (H4 ri_state (ri_values false "800" "600") photo [] eq_refl
              eq_refl eq_refl eq_refl).
  - refine (H3 rs_state (rs_image false "80 0" (Some "60:0")) photo []
               "60:0" eq_refl eq_refl eq_refl eq_refl _).
    discriminate.
  - exact (H5 rs_state (rs_image false "800" (Some "600")) photo []
              eq_refl eq_refl eq_refl eq_refl eq_refl).
  - exact (H6 rs_state (rs_video false (Some "1080")) clip [] eq_refl
              eq_refl eq_refl).
Defined.

(** C4 as stated fails for video in the unified form: with the aspect
    ratio not maintained and a height of 1080 submitted, the scale filter
    is still [scale=1920:-2:flags=bicubic] and the token [1920p]. *)
Lemma unified_video_ignores_explicit_height :
  Resize.maintainAspectRatio (rs_video false (Some "1080")) = false
  /\ Resize.handleSubmit rs_state (rs_video false (Some "1080"))
     = Ok (mkJob ["-i"; clip; "-vf"; "scale=1920:-2:flags=bicubic";
                  "-preset"; "medium"; "-c:a"; "copy";
                  "-y"; "/Users/me/clip.1920p.mp4"]
                 "/Users/me/clip.1920p.mp4")
  /\ ~ (exists fileName,
         compiles_to
           (Resize.handleSubmit rs_state (rs_video false (Some "1080")))
           clip ["-vf"; "scale=1920:1080:flags=bicubic"] fileName).
Proof.
  split; [reflexivity|]. split; [vm_compute; reflexivity|].
  intros (fileName & job & more & Hr & Ha & _).
  vm_compute in Hr. injection Hr as <-. simpl in Ha. discriminate Ha.
Qed.

(* ================================================================== *)
(** * ChangeSpeed *)

Lemma speedSuffix_tokens v :
  Speed.speedSuffix v
  = to_string (parseFloat (Speed.speed v)) ++ "x"
    ++ (if strict_eqb (Speed.audioSpeed v) (parseFloat (Speed.speed v))
        then "" else ".a" ++ to_string (Speed.audioSpeed v) ++ "x")
    ++ (if truthy_bool (Speed.maintainPitch v) then ".pitch" else "").
Proof.
  unfold Speed.speedSuffix.
  destruct (strict_eqb _ _), (truthy_bool _); simpl;
    repeat (rewrite !append_assoc; simpl);
    rewrite ?append_nil_r; reflexivity.
Qed.

Lemma two_point_zero :
  to_string (parseFloat "2.0") = "2"
  /\ to_string (div (of_Z 1) (parseFloat "2.0")) = "0.5"
  /\ strict_eqb (parseFloat "2.0") (parseFloat "2.0") = true.
Proof. repeat split; vm_compute; reflexivity. Qed.

(** C6. On video the file-name token is [{speed}x], followed by
    [.a{audioSpeed}x] exactly when the audio speed is not equal ([!==]) to
    the video speed, followed by [.pitch] exactly when the pitch is
    maintained; the audio speed is the custom one when that field is
    filled in and the video speed otherwise.  With speed 2.0, no custom
    audio speed and the pitch maintained, the audio filter is
    [asetrate=44100*2,aresample=44100,atempo=1] and the token
    [2x.pitch]. *)
Theorem speed_video_suffix :
  (forall st v inputPath rest,
     Speed.fileType st = Some Video ->
     Speed.inputFile v = inputPath :: rest ->
     let speed := parseFloat (Speed.speed v) in
     let audioSpeed :=
       if truthy (Speed.customAudioSpeed v)
       then parseFloat (tmpl (Speed.customAudioSpeed v)) else speed in
     compiles_to (Speed.handleSubmit st v) inputPath
       ["-filter:v"; "setpts=" ++ to_string (div (of_Z 1) speed) ++ "*PTS";
        "-filter:a";
        if truthy_bool (Speed.maintainPitch v)
        then "asetrate=44100*" ++ to_string audioSpeed
                               ++ ",aresample=44100,atempo=1"
        else "atempo=" ++ to_string audioSpeed]
       (stem inputPath ++ "."
             ++ (to_string speed ++ "x"
                 ++ (if strict_eqb audioSpeed speed then ""
                     else ".a" ++ to_string audioSpeed ++ "x")
                 ++ (if truthy_bool (Speed.maintainPitch v)
                     then ".pitch" else ""))
             ++ extname inputPath))
  /\ (forall st v inputPath rest,
     Speed.fileType st = Some Video ->
     Speed.inputFile v = inputPath :: rest ->
     Speed.speed v = "2.0" ->
     truthy (Speed.customAudioSpeed v) = false ->
     Speed.maintainPitch v = Some true ->
     compiles_to (Speed.handleSubmit st v) inputPath
       ["-filter:v"; "setpts=0.5*PTS";
        "-filter:a"; "asetrate=44100*2,aresample=44100,atempo=1"]
       (stem inputPath ++ ".2x.pitch" ++ extname inputPath)).
Proof.
  destruct two_point_zero as (H2 & Hhalf & Heq).
  split.
  - intros st v p rest Hk Hf speed audioSpeed.
    unfold Speed.handleSubmit. rewrite Hf, Hk, speedSuffix_tokens.
    unfold Speed.videoFilter, Speed.audioFilter.
    change (Speed.audioSpeed v) with audioSpeed.
    change (parseFloat (Speed.speed v)) with speed.
    compiled.
  - intros st v p rest Hk Hf Hs Hc Hp.
    unfold Speed.handleSubmit. rewrite Hf, Hk, speedSuffix_tokens.
    unfold Speed.videoFilter, Speed.audioFilter, Speed.audioSpeed.
    rewrite Hs, Hc, Hp, H2, Hhalf, Heq.
    compiled.
Qed.

Lemma speed_video_suffix_witness :
  compiles_to (Speed.handleSubmit sp_state (sp_values "3.0" (Some "1.0") None))
    clip ["-filter:v"; "setpts=0.3333333333333333*PTS";
          "-filter:a"; "atempo=1"]
    "clip.3x.a1x.mp4"
  /\ compiles_to
       (Speed.handleSubmit sp_state (sp_values "2.0" (Some "") (Some true)))
       clip ["-filter:v"; "setpts=0.5*PTS";
             "-filter:a"; "asetrate=44100*2,aresample=44100,atempo=1"]
       "clip.2x.pitch.mp4".
Proof.
  destruct speed_video_suffix as (H1 & H2).
  split.
  - exact (H1 sp_state (sp_values "3.0" (Some "1.0") None) clip []
              eq_refl eq_refl).
  - exact (H2 sp_state (sp_values "2.0" (Some "") (Some true)) clip []
              eq_refl eq_refl eq_refl eq_refl eq_refl).
Defined.

(* ================================================================== *)
(** * Compress *)

(** C7. A quality typed into the form is used as it is, whatever the
    preset; with the field empty the preset is looked up in the table of
    the media kind, so audio at preset medium is compressed at
    [-b:a 192k] and named [192kbps]. *)
Theorem compress_quality_precedence :
  (forall st v kind inputPath rest,
     Compress.fileType st = Some kind ->
     Compress.inputFile v = inputPath :: rest ->
     Compress.quality v <> "" ->
     compiles_to (Compress.handleSubmit st v) inputPath
       (compress_options kind (Compress.quality v))
       (stem inputPath ++ "." ++ compress_token kind (Compress.quality v)
             ++ extname inputPath))
  /\ (forall st v kind inputPath rest,
     Compress.fileType st = Some kind ->
     Compress.inputFile v = inputPath :: rest ->
     Compress.quality v = "" ->
     compiles_to (Compress.handleSubmit st v) inputPath
       (compress_options kind
          (Compress.QUALITY_PRESETS kind (Compress.preset v)))
       (stem inputPath ++ "."
             ++ compress_token kind
                  (Compress.QUALITY_PRESETS kind (Compress.preset v))
             ++ extname inputPath))
  /\ (forall st v inputPath rest,
     Compress.fileType st = Some Audio ->
     Compress.inputFile v = inputPath :: rest ->
     Compress.quality v = "" ->
     Compress.preset v = Compress.medium ->
     compiles_to (Compress.handleSubmit st v) inputPath
       ["-b:a"; "192k"]
       (stem inputPath ++ ".192kbps" ++ extname inputPath)).
Proof.
  repeat apply conj.
  - intros st v kind p rest Hk Hf Hq.
    unfold Compress.handleSubmit, Compress.qualityValue.
    rewrite Hf, Hk.
    replace (truthy (Some (Compress.quality v))) with true
      by (symmetry; simpl; apply negb_true_iff; now apply String.eqb_neq).
    destruct kind; simpl; rewrite ?append_assoc; compiled.
  - intros st v kind p rest Hk Hf Hq.
    unfold Compress.handleSubmit, Compress.qualityValue.
    rewrite Hf, Hk, Hq.
    destruct kind; simpl; rewrite ?append_assoc; compiled.
  - intros st v p rest Hk Hf Hq Hp.
    unfold Compress.handleSubmit, Compress.qualityValue.
    rewrite Hf, Hk, Hq, Hp. compiled.
Qed.

Lemma compress_quality_precedence_witness :
  compiles_to
    (Compress.handleSubmit (cp_state (Some Video))
                           (cp_values clip "20" Compress.low))
    clip ["-crf"; "20"; "-preset"; "medium"] "clip.crf20.mp4"
  /\ compiles_to
       (Compress.handleSubmit (cp_state (Some Image))
                              (cp_values photo "" Compress.very_low))
       photo ["-q:v"; "20"] "photo.q20.png"
  /\ compiles_to
       (Compress.handleSubmit (cp_state (Some Audio))
                              (cp_values song "" Compress.medium))
       song ["-b:a"; "192k"] "song.192kbps.mp3".
Proof.
  destruct compress_quality_precedence as (H1 & H2 & H3).
  repeat apply conj.
  - refine (H1 (cp_state (Some Video)) (cp_values clip "20" Compress.low)
               Video clip [] eq_refl eq_refl _).
    discriminate.
  - exact (H2 (cp_state (Some Image)) (cp_values photo "" Compress.very_low)
              Image photo [] eq_refl eq_refl eq_refl).
  - exact (H3 (cp_state (Some Audio)) (cp_values song "" Compress.medium)
              song [] eq_refl eq_refl eq_refl eq_refl).
Defined.

(* ================================================================== *)
(** * Convert *)

(** C8. Converting a video to libx264 at maximum quality compiles
    [-c:v libx264 -crf 0 -preset veryslow -c:a copy] and names the file
    [{base}.libx264.lossless.{format}]. *)
Theorem convert_x264_lossless st v inputPath rest :
  Convert.fileType st = Some Video ->
  Convert.inputFile v = inputPath :: rest ->
  Convert.codec v = Some "libx264" ->
  Convert.maintainQuality v = Some true ->
  let outputPath :=
    join (dirname inputPath)
         (stem inputPath ++ ".libx264.lossless" ++ "." ++ Convert.format v) in
  Convert.handleSubmit st v
  = Ok (mkJob ["-i"; inputPath; "-c:v"; "libx264"; "-crf"; "0";
               "-preset"; "veryslow"; "-c:a"; "copy"; "-y"; outputPath]
              outputPath).
Proof.
  intros Hk Hf Hc Hm. unfold Convert.handleSubmit, Convert.encode.
  rewrite Hf, Hk, Hc, Hm. simpl.
  repeat (rewrite !append_assoc; simpl). reflexivity.
Qed.

Lemma convert_x264_lossless_witness :
  Convert.handleSubmit (cv_state (Some Video))
                       (cv_values "mkv" (Some "libx264") None (Some true))
  = Ok (mkJob ["-i"; clip; "-c:v"; "libx264"; "-crf"; "0";
               "-preset"; "veryslow"; "-c:a"; "copy";
               "-y"; "/Users/me/clip.libx264.lossless.mkv"]
              "/Users/me/clip.libx264.lossless.mkv").
Proof.
  exact (convert_x264_lossless (cv_state (Some Video))
           (cv_values "mkv" (Some "libx264") None (Some true)) clip []
           eq_refl eq_refl eq_refl eq_refl).
Defined.

(* ================================================================== *)
(** * The job request a handler depends on *)

Lemma hd_error_eq {A} (l1 l2 : list A) :
  hd_error l1 = hd_error l2 ->
  (l1 = [] /\ l2 = [])
  \/ exists x r1 r2, l1 = x :: r1 /\ l2 = x :: r2.
Proof.
  destruct l1, l2; simpl; intros H; try discriminate.
  - now left.
  - injection H as <-. right. now do 3 eexists.
Qed.

Ltac same_request H :=
  repeat match type of H with
         | (_, _) = (_, _) =>
             let H1 := fresh "H" in
             let H2 := fresh "H" in
             injection H as H1 H2;
             try same_request H1; try same_request H2
         end.

(** C9. Each handler is a function of the job request alone: two
    submissions with the same input path, media kind and option values
    compile to the same argument list and the same output path (or raise
    the same exception), whatever else the component state and the rest of
    the submitted file list hold. *)
Theorem compile_depends_on_request_only :
  (forall st1 st2 v1 v2,
     convert_request st1 v1 = convert_request st2 v2 ->
     Convert.handleSubmit st1 v1 = Convert.handleSubmit st2 v2)
  /\ (forall st1 st2 v1 v2,
     resolution_video_request st1 v1 = resolution_video_request st2 v2 ->
     ResolutionVideo.handleSubmit st1 v1 = ResolutionVideo.handleSubmit st2 v2)
  /\ (forall st1 st2 v1 v2,
     resize_image_request st1 v1 = resize_image_request st2 v2 ->
     ResizeImage.handleSubmit st1 v1 = ResizeImage.handleSubmit st2 v2)
  /\ (forall st1 st2 v1 v2,
     speed_request st1 v1 = speed_request st2 v2 ->
     Speed.handleSubmit st1 v1 = Speed.handleSubmit st2 v2)
  /\ (forall st1 st2 v1 v2,
     resize_request st1 v1 = resize_request st2 v2 ->
     Resize.handleSubmit st1 v1 = Resize.handleSubmit st2 v2)
  /\ (forall st1 st2 v1 v2,
     compress_request st1 v1 = compress_request st2 v2 ->
     Compress.handleSubmit st1 v1 = Compress.handleSubmit st2 v2).
Proof.
  repeat apply conj; intros st1 st2 v1 v2 H;
    destruct st1, st2, v1, v2;
    cbv beta iota delta
        [convert_request resolution_video_request resize_image_request
         speed_request resize_request compress_request
         Convert.inputFile Convert.fileType Convert.format Convert.codec
         Convert.quality Convert.maintainQuality
         ResolutionVideo.inputFile ResolutionVideo.width
         ResolutionVideo.height ResolutionVideo.maintainAspectRatio
         ResolutionVideo.preset ResolutionVideo.filter
         ResolutionVideo.keepAudioBitrate
         ResizeImage.inputFile ResizeImage.width ResizeImage.height
         ResizeImage.maintainAspectRatio ResizeImage.quality
         ResizeImage.filter
         Speed.inputFile Speed.fileType Speed.speed Speed.maintainPitch
         Speed.customAudioSpeed
         Resize.inputFile Resize.fileType Resize.width Resize.height
         Resize.maintainAspectRatio Resize.filter Resize.quality
         Resize.preset Resize.keepAudioBitrate
         Compress.inputFile Compress.fileType Compress.quality
         Compress.preset] in H;
    same_request H; subst;
    match goal with
    | Hh : hd_error _ = hd_error _ |- _ =>
        destruct (hd_error_eq _ _ Hh) as [[-> ->] | (x & r1 & r2 & -> & ->)]
    end; reflexivity.
Qed.

Lemma compile_depends_on_request_only_witness :
  Convert.handleSubmit
    (cv_state (Some Video))
    (cv_values "mkv" (Some "libx265") (Some "20") None)
  = Convert.handleSubmit
      {| Convert.defaultFile := [photo];
         Convert.fileType := Some Video;
         Convert.maintainQualityState := true |}
      {| Convert.inputFile := [clip; song];
         Convert.format := "mkv";
         Convert.codec := Some "libx265";
         Convert.quality := Some "20";
         Convert.maintainQuality := None |}
  /\ ResolutionVideo.handleSubmit rv_state (rv_values true "")
     = ResolutionVideo.handleSubmit
         {| ResolutionVideo.defaultFile := [song] |}
         {| ResolutionVideo.inputFile := [clip; photo];
            ResolutionVideo.width := "1920";
            ResolutionVideo.height := "";
            ResolutionVideo.maintainAspectRatio := true;
            ResolutionVideo.preset := "medium";
            ResolutionVideo.filter := "bicubic";
            ResolutionVideo.keepAudioBitrate := true |}
  /\ ResizeImage.handleSubmit ri_state (ri_values false "800" "600")
     = ResizeImage.handleSubmit
         {| ResizeImage.defaultFile := [clip] |}
         {| ResizeImage.inputFile := [photo; photo];
            ResizeImage.width := "800";
            ResizeImage.height := "600";
            ResizeImage.maintainAspectRatio := false;
            ResizeImage.quality := "";
            ResizeImage.filter := "lanczos" |}
  /\ Speed.handleSubmit sp_state (sp_values "2.0" None (Some true))
     = Speed.handleSubmit
         {| Speed.defaultFile := [song]; Speed.fileType := Some Video |}
         {| Speed.inputFile := [clip; song];
            Speed.speed := "2.0";
            Speed.maintainPitch := Some true;
            Speed.customAudioSpeed := None |}
  /\ Resize.handleSubmit rs_state (rs_video true None)
     = Resize.handleSubmit
         {| Resize.defaultFile := [clip];
            Resize.fileTypeState := Resize.video |}
         {| Resize.inputFile := [clip; photo];
            Resize.width := "1920";
            Resize.height := None;
            Resize.maintainAspectRatio := true;
            Resize.filter := "bicubic";
            Resize.fileType := Resize.video;
            Resize.quality := None;
            Resize.preset := Some "medium";
            Resize.keepAudioBitrate := Some true |}
  /\ Compress.handleSubmit (cp_state (Some Audio))
                           (cp_values song "" Compress.medium)
     = Compress.handleSubmit
         {| Compress.defaultFile := [song];
            Compress.fileType := Some Audio |}
         {| Compress.inputFile := [song; clip];
            Compress.quality := "";
            Compress.preset := Compress.medium |}.
Proof.
  destruct compile_depends_on_request_only
    as (H1 & H2 & H3 & H4 & H5 & H6).
  repeat apply conj;
    [apply H1 | apply H2 | apply H3 | apply H4 | apply H5 | apply H6];
    reflexivity.
Defined.

(* ================================================================== *)
(** * The sanitized resolution token of the unified resize *)

Lemma allowed_safe c : Resize.allowed c = true <-> safe_char c.
Proof.
  unfold safe_char.
  assert (H : Resize.allowed c = existsb (Ascii.eqb c) (chars safe_alphabet)).
  { destruct c as [[] [] [] [] [] [] [] []]; vm_compute; reflexivity. }
  rewrite H, existsb_exists. split.
  - intros (x & Hin & Heq). apply Ascii.eqb_eq in Heq. now subst.
  - intros Hin. exists c. split; [assumption | apply Ascii.eqb_refl].
Qed.

Lemma sanitize_safe s : Forall safe_char (chars (Resize.sanitize s)).
Proof.
  unfold Resize.sanitize. rewrite chars_str.
  apply Forall_forall. intros c Hc.
  apply filter_In in Hc. now apply allowed_safe.
Qed.

Lemma sanitize_fixes_safe s :
  Forall safe_char (chars s) -> Resize.sanitize s = s.
Proof.
  unfold Resize.sanitize. intros H.
  rewrite <- (str_chars s) at 2. f_equal.
  induction H as [|c l Hc _ IH]; simpl; [reflexivity|].
  apply allowed_safe in Hc. now rewrite Hc, IH.
Qed.

(** C10. In the unified resize the output file is named
    [{base}.{token}{quality suffix}{preset suffix}{extension}] where the
    token is the resolution ([{width}p], [{width}w] or [{width}x{height}])
    with every character other than an ASCII letter, a digit, a dot or a
    hyphen removed: the token holds such characters only, keeps those of
    the resolution in their order, and is the resolution itself when this
    has no other character. *)
Theorem resize_token_sanitized st v :
  let token := Resize.sanitizedResolution v in
  match Resize.handleSubmit st v with
  | Ok job =>
      exists inputPath rest,
        Resize.inputFile v = inputPath :: rest
        /\ outputPath job
           = join (dirname inputPath)
                  (stem inputPath ++ "." ++ token ++ Resize.qualitySuffix v
                        ++ Resize.presetSuffix v ++ extname inputPath)
  | Throw _ => Resize.inputFile v = []
  end
  /\ Forall safe_char (chars token)
  /\ chars token
     = List.filter (fun c => if in_dec ascii_dec c (chars safe_alphabet)
                             then true else false)
                   (chars (Resize.resolution v))
  /\ (Resize.resolution v = Resize.width v ++ "p"
      \/ Resize.resolution v = Resize.width v ++ "w"
      \/ Resize.resolution v
         = Resize.width v ++ "x" ++ tmpl (Resize.height v))
  /\ (Forall safe_char (chars (Resize.resolution v)) ->
      token = Resize.resolution v).
Proof.
  intros token. repeat apply conj.
  - unfold Resize.handleSubmit.
    destruct (Resize.inputFile v) as [|p rest]; [reflexivity|].
    now exists p, rest.
  - apply sanitize_safe.
  - unfold token, Resize.sanitizedResolution, Resize.sanitize.
    rewrite chars_str. apply filter_ext. intros c.
    destruct (in_dec _ _ _) as [Hin | Hout].
    + now apply allowed_safe.
    + destruct (Resize.allowed c) eqn:E; [|reflexivity].
      apply allowed_safe in E. contradiction.
  - unfold Resize.resolution, Resize.scaling.
    destruct (Resize.fileType v); [|now left].
    destruct (_ && _)%bool; simpl; auto.
  - apply sanitize_fixes_safe.
Qed.

Lemma resize_token_sanitized_witness :
  Resize.sanitizedResolution (rs_image false "800" (Some "600")) = "800x600"
  /\ Resize.sanitizedResolution (rs_image false "80 0" (Some "6/00"))
     = "800x600"
  /\ Resize.handleSubmit rs_state (rs_image false "80 0" (Some "6/00"))
     = Ok (mkJob ["-i"; photo; "-vf"; "scale=80 0:6/00:flags=lanczos";
                  "-y"; "/Users/me/photo.800x600.png"]
                 "/Users/me/photo.800x600.png").
Proof.
  repeat apply conj.
  - refine (proj2 (proj2 (proj2 (proj2
             (resize_token_sanitized rs_state
                (rs_image false "800" (Some "600")))))) _).
    vm_compute.
    repeat (constructor; [vm_compute; tauto|]). constructor.
  - reflexivity.
  - reflexivity.
Defined.

(* ================================================================== *)
(** * Where the output file is written *)

Lemma encode_name ft v args name :
  snd (Convert.encode ft v args name) = name ++ convert_suffix ft v.
Proof.
  unfold convert_suffix, Convert.encode.
  destruct ft as [[| |]|];
    repeat match goal with
           | |- context [if ?b then _ else _] => destruct b
           end; simpl;
    repeat (rewrite !append_assoc; simpl);
    rewrite ?append_nil_r; reflexivity.
Qed.

Lemma str_is_true v lit : str_is v lit = true -> v = Some lit.
Proof.
  destruct v as [s|]; simpl; [|discriminate].
  intros H. apply String.eqb_eq in H. now subst.
Qed.

Lemma convert_suffix_shape ft v :
  if convert_keeps_name ft v then convert_suffix ft v = ""
  else exists s, convert_suffix ft v = "." ++ s.
Proof.
  unfold convert_keeps_name, convert_suffix, Convert.encode.
  destruct ft as [[| |]|]; [| | |reflexivity].
  - destruct (str_is (Convert.codec v) "libvpx-vp9") eqn:Evp.
    + apply str_is_true in Evp. rewrite Evp. simpl.
      destruct (truthy_bool _); simpl; eexists; reflexivity.
    + destruct (truthy (Convert.codec v)), (str_is (Convert.codec v) "copy");
        simpl; try reflexivity.
      destruct (truthy_bool _), (_ || _)%bool; simpl; eexists; reflexivity.
  - destruct (truthy_bool _), (truthy _); simpl;
      try reflexivity; eexists; reflexivity.
  - destruct (truthy_bool _), (truthy _); simpl;
      try reflexivity; eexists; reflexivity.
Qed.

Lemma sep_free_or_else v d :
  sep_free (tmpl v) = true -> sep_free d = true ->
  sep_free (or_else v d) = true.
Proof. unfold or_else. now destruct (truthy v). Qed.

Lemma sep_free_cons c s :
  sep_free (String c s) = (not_sep c && sep_free s)%bool.
Proof. reflexivity. Qed.

Lemma sanitize_sep_free s : sep_free (Resize.sanitize s) = true.
Proof.
  unfold sep_free, Resize.sanitize. rewrite chars_str.
  apply forallb_forall. intros c Hc. apply filter_In in Hc as [_ Hc].
  unfold not_sep, is_sep. apply negb_true_iff.
  destruct (Ascii.eqb c "/") eqn:E; [|reflexivity].
  apply Ascii.eqb_eq in E. subst c. discriminate Hc.
Qed.

(** Separator-freeness of a name assembled from separator-free parts. *)
Ltac sep_free_parts :=
  repeat first
    [ rewrite sep_free_cons
    | rewrite sep_free_app
    | rewrite sep_free_or_else by auto
    | rewrite sanitize_sep_free
    | rewrite to_string_sep_free
    | match goal with H : sep_free _ = true |- _ => rewrite H end ];
  reflexivity.

Lemma convert_suffix_sep_free ft v :
  sep_free (tmpl (Convert.codec v)) = true ->
  sep_free (tmpl (Convert.quality v)) = true ->
  sep_free (convert_suffix ft v) = true.
Proof.
  intros Hc Hq. unfold convert_suffix, Convert.encode.
  destruct ft as [[| |]|];
    repeat match goal with
           | |- context [if ?b then _ else _] => destruct b
           end; simpl; sep_free_parts.
Qed.

Lemma sanitize_app a b :
  Resize.sanitize (a ++ b) = Resize.sanitize a ++ Resize.sanitize b.
Proof.
  unfold Resize.sanitize. now rewrite chars_app, filter_app, str_app.
Qed.

Lemma speedSuffix_sep_free v : sep_free (Speed.speedSuffix v) = true.
Proof.
  rewrite speedSuffix_tokens.
  destruct (strict_eqb _ _), (truthy_bool _); sep_free_parts.
Qed.

Lemma nonempty_by_length (s : string) : 1 <= String.length s -> s <> "".
Proof. destruct s; simpl; [lia | discriminate]. Qed.

Ltac nonempty :=
  apply nonempty_by_length;
  repeat (rewrite ?length_append; simpl String.length); lia.

(** C3, as amended. For an input path made of plain components
    ([/d1/.../dn/file]) and options that hold no path separator, every
    handler writes its output in the directory of the input.  The rescale,
    speed and compress handlers always give it a name other than the
    input's.  The convert handler gives it the input's name exactly when
    it appends no suffix (codec copy or none for a video, neither a
    quality nor maximum quality for audio and images, an undetermined
    kind) and the target format is the input's extension; that job is
    compiled like any other. *)
Theorem output_beside_input dirs file :
  forallb plain_name dirs = true ->
  plain_name file = true ->
  let inputPath := abs_path dirs file in
  (forall st v rest,
     ResolutionVideo.inputFile v = inputPath :: rest ->
     sep_free (ResolutionVideo.width v) = true ->
     sep_free (ResolutionVideo.height v) = true ->
     sep_free (ResolutionVideo.preset v) = true ->
     placed_beside inputPath (ResolutionVideo.handleSubmit st v) False)
  /\ (forall st v rest,
     ResizeImage.inputFile v = inputPath :: rest ->
     sep_free (ResizeImage.width v) = true ->
     sep_free (ResizeImage.height v) = true ->
     sep_free (ResizeImage.quality v) = true ->
     placed_beside inputPath (ResizeImage.handleSubmit st v) False)
  /\ (forall st v rest,
     Resize.inputFile v = inputPath :: rest ->
     sep_free (tmpl (Resize.quality v)) = true ->
     sep_free (tmpl (Resize.preset v)) = true ->
     placed_beside inputPath (Resize.handleSubmit st v) False)
  /\ (forall st v rest,
     Speed.inputFile v = inputPath :: rest ->
     placed_beside inputPath (Speed.handleSubmit st v) False)
  /\ (forall st v rest kind,
     Compress.inputFile v = inputPath :: rest ->
     Compress.fileType st = Some kind ->
     sep_free (Compress.quality v) = true ->
     placed_beside inputPath (Compress.handleSubmit st v) False)
  /\ (forall st v rest,
     Convert.inputFile v = inputPath :: rest ->
     sep_free (tmpl (Convert.codec v)) = true ->
     sep_free (tmpl (Convert.quality v)) = true ->
     sep_free (Convert.format v) = true ->
     Convert.format v <> "" ->
     placed_beside inputPath (Convert.handleSubmit st v)
       (convert_keeps_name (Convert.fileType st) v = true
        /\ "." ++ Convert.format v = extname inputPath)).
Proof.
  intros Hdirs Hfile inputPath.
  assert (Hplace : forall args name token,
             name = stem inputPath ++ "." ++ token ++ extname inputPath ->
             sep_free token = true -> token <> "" ->
             placed_beside inputPath
               (Ok (mkJob args (join (dirname inputPath) name))) False).
  { intros args name token -> Hsf Hne.
    destruct (suffixed_sibling dirs file Hdirs Hfile token Hsf Hne)
      as (Hdir & Hdiff).
    eexists. split; [reflexivity|]. split; [exact Hdir | tauto]. }
  repeat apply conj.
  - intros st v rest Hf Hw Hh Hp.
    unfold ResolutionVideo.handleSubmit. rewrite Hf. fold (stem inputPath).
    apply Hplace
      with (token := ResolutionVideo.resolution v
                     ++ ResolutionVideo.presetSuffix v).
    + now rewrite append_assoc.
    + unfold ResolutionVideo.resolution, ResolutionVideo.presetSuffix.
      destruct (ResolutionVideo.maintainAspectRatio v), (negb _);
        sep_free_parts.
    + unfold ResolutionVideo.resolution.
      destruct (ResolutionVideo.maintainAspectRatio v); nonempty.
  - intros st v rest Hf Hw Hh Hq.
    unfold ResizeImage.handleSubmit. rewrite Hf. fold (stem inputPath).
    apply Hplace
      with (token := ResizeImage.resolution v ++ ResizeImage.qualitySuffix v).
    + now rewrite append_assoc.
    + unfold ResizeImage.resolution, ResizeImage.qualitySuffix.
      destruct (ResizeImage.maintainAspectRatio v), (truthy _);
        sep_free_parts.
    + unfold ResizeImage.resolution.
      destruct (ResizeImage.maintainAspectRatio v); nonempty.
  - intros st v rest Hf Hq Hp.
    unfold Resize.handleSubmit. rewrite Hf. fold (stem inputPath).
    apply Hplace
      with (token := Resize.sanitizedResolution v ++ Resize.qualitySuffix v
                     ++ Resize.presetSuffix v).
    + now rewrite !append_assoc.
    + unfold Resize.sanitizedResolution, Resize.qualitySuffix,
        Resize.presetSuffix.
      destruct (_ && _)%bool, (_ && _)%bool; sep_free_parts.
    + unfold Resize.sanitizedResolution, Resize.resolution, Resize.scaling.
      destruct (Resize.fileType v); [destruct (_ && _)%bool|];
        simpl fst; rewrite !sanitize_app;
        change (Resize.sanitize "p") with "p";
        change (Resize.sanitize "w") with "w";
        change (Resize.sanitize "x") with "x"; nonempty.
  - intros st v rest Hf.
    unfold Speed.handleSubmit. rewrite Hf. fold (stem inputPath).
    destruct (Speed.fileType st) as [[| |]|]; cbv beta iota zeta.
    + apply Hplace with (token := Speed.speedSuffix v);
        [reflexivity | apply speedSuffix_sep_free |].
      rewrite speedSuffix_tokens. nonempty.
    + apply Hplace
        with (token := to_string (parseFloat (Speed.speed v)) ++ "x");
        [now rewrite append_assoc | sep_free_parts | nonempty].
    + apply Hplace
        with (token := to_string (parseFloat (Speed.speed v)) ++ "x");
        [now rewrite append_assoc | sep_free_parts | nonempty].
    + apply Hplace
        with (token := to_string (parseFloat (Speed.speed v)) ++ "x");
        [now rewrite append_assoc | sep_free_parts | nonempty].
  - intros st v rest kind Hf Hk Hq.
    unfold Compress.handleSubmit, Compress.qualityValue.
    rewrite Hf, Hk. fold (stem inputPath).
    assert (Hpreset : sep_free
                        (Compress.QUALITY_PRESETS kind (Compress.preset v))
                      = true)
      by (destruct kind, (Compress.preset v); reflexivity).
    destruct (truthy _), kind; cbv beta iota zeta.
    + apply Hplace with (token := "crf" ++ Compress.quality v);
        [reflexivity | sep_free_parts | nonempty].
    + apply Hplace with (token := Compress.quality v ++ "kbps");
        [now rewrite append_assoc | sep_free_parts | nonempty].
    + apply Hplace with (token := "q" ++ Compress.quality v);
        [reflexivity | sep_free_parts | nonempty].
    + apply Hplace
        with (token := "crf" ++ Compress.QUALITY_PRESETS Video
                                  (Compress.preset v));
        [reflexivity | sep_free_parts | nonempty].
    + apply Hplace
        with (token := Compress.QUALITY_PRESETS Audio (Compress.preset v)
                       ++ "kbps");
        [now rewrite append_assoc | sep_free_parts | nonempty].
    + apply Hplace
        with (token := "q" ++ Compress.QUALITY_PRESETS Image
                                (Compress.preset v));
        [reflexivity | sep_free_parts | nonempty].
  - intros st v rest Hf Hc Hq Hfmt Hne.
    unfold Convert.handleSubmit. rewrite Hf. fold (stem inputPath).
    pose proof (encode_name (Convert.fileType st) v ["-i"; inputPath]
                  (stem inputPath)) as Hname.
    destruct (Convert.encode _ _ _ _) as [args name]. simpl in Hname.
    subst name.
    pose proof (convert_suffix_shape (Convert.fileType st) v) as Hshape.
    destruct (converted_sibling dirs file Hdirs Hfile
                (convert_suffix (Convert.fileType st) v) (Convert.format v))
      as (Hdir & Hsame); auto using convert_suffix_sep_free.
    { destruct (convert_keeps_name _ _); [now left | now right]. }
    eexists. split; [reflexivity|]. split; [exact Hdir|].
    simpl outputPath. fold inputPath in Hsame. rewrite Hsame.
    destruct (convert_keeps_name _ _).
    + rewrite Hshape. tauto.
    + destruct Hshape as (s & ->). split; intros [H _]; discriminate H.
Qed.

Lemma output_beside_input_witness :
  placed_beside clip
    (ResolutionVideo.handleSubmit rv_state (rv_values true "")) False
  /\ placed_beside photo
       (ResizeImage.handleSubmit ri_state (ri_values false "800" "600")) False
  /\ placed_beside photo
       (Resize.handleSubmit rs_state (rs_image false "80 0" (Some "6/00")))
       False
  /\ placed_beside clip
       (Speed.handleSubmit sp_state (sp_values "2.0" None (Some true))) False
  /\ placed_beside song
       (Compress.handleSubmit (cp_state (Some Audio))
                              (cp_values song "" Compress.medium)) False
  /\ placed_beside clip
       (Convert.handleSubmit (cv_state (Some Video))
                             (cv_values "mp4" (Some "copy") None None))
       (true = true /\ ".mp4" = ".mp4")
  /\ placed_beside clip
       (Convert.handleSubmit (cv_state (Some Video))
                             (cv_values "mp4" (Some "libx264") None None))
       (false = true /\ ".mp4" = ".mp4").
Proof.
  destruct (output_beside_input ["Users"; "me"] "clip.mp4" eq_refl eq_refl)
    as (Hrv & _ & _ & Hsp & _ & Hcv).
  destruct (output_beside_input ["Users"; "me"] "photo.png" eq_refl eq_refl)
    as (_ & Hri & Hrs & _ & _ & _).
  destruct (output_beside_input ["Users"; "me"] "song.mp3" eq_refl eq_refl)
    as (_ & _ & _ & _ & Hcp & _).
  repeat apply conj.
  - exact (Hrv rv_state (rv_values true "") [] eq_refl eq_refl eq_refl
               eq_refl).
  - exact (Hri ri_state (ri_values false "800" "600") [] eq_refl eq_refl
               eq_refl eq_refl).
  - exact (Hrs rs_state (rs_image false "80 0" (Some "6/00")) [] eq_refl
               eq_refl eq_refl).
  - exact (Hsp sp_state (sp_values "2.0" None (Some true)) [] eq_refl).
  - exact (Hcp (cp_state (Some Audio)) (cp_values song "" Compress.medium)
               [] Audio eq_refl eq_refl eq_refl).
  - refine (Hcv (cv_state (Some Video))
                (cv_values "mp4" (Some "copy") None None) [] eq_refl
                eq_refl eq_refl eq_refl _).
    discriminate.
  - refine (Hcv (cv_state (Some Video))
                (cv_values "mp4" (Some "libx264") None None) [] eq_refl
                eq_refl eq_refl eq_refl _).
    discriminate.
Defined.

(** C3 as stated fails for a video converted with codec copy: a quality
    of 18 and maximum quality are submitted, neither is the empty default,
    and the output path is the input path. *)
Lemma convert_copy_keeps_input_path :
  truthy (Convert.quality
            (cv_values "mp4" (Some "copy") (Some "18") (Some true))) = true
  /\ truthy_bool (Convert.maintainQuality
                    (cv_values "mp4" (Some "copy") (Some "18") (Some true)))
     = true
  /\ Convert.handleSubmit
       (cv_state (Some Video))
       (cv_values "mp4" (Some "copy") (Some "18") (Some true))
     = Ok (mkJob ["-i"; clip; "-c:v"; "copy"; "-c:a"; "copy"; "-y"; clip]
                 clip)
  /\ ~ (forall job,
          Convert.handleSubmit
            (cv_state (Some Video))
            (cv_values "mp4" (Some "copy") (Some "18") (Some true))
          = Ok job ->
          outputPath job <> clip).
Proof.
  repeat apply conj; try (vm_compute; reflexivity).
  intros H. apply (H (mkJob ["-i"; clip; "-c:v"; "copy"; "-c:a"; "copy";
                             "-y"; clip] clip));
    vm_compute; reflexivity.
Qed.

(* ================================================================== *)
(** * The name of the output file *)

Lemma extname_of_name pre x e :
  x <> [] -> 3 <= List.length x + 1 + List.length e ->
  forallb not_sep x = true -> forallb not_sep e = true ->
  forallb not_dot e = true ->
  extname_l (pre ++ "/"%char :: x ++ "."%char :: e)%list = "."%char :: e.
Proof.
  intros Hne Hlen Hx He Hdots. unfold extname_l.
  assert (Hsf : forallb not_sep (x ++ "."%char :: e) = true)
    by (rewrite forallb_app; simpl; now rewrite Hx, He).
  rewrite last_component_rev_name by (auto; now destruct x).
  rewrite rev_app_distr. simpl rev. rewrite <- app_assoc. simpl app.
  rewrite takeWhile_app_stop, dropWhile_app_stop
    by (rewrite ?forallb_rev; auto).
  pose proof (rev_nonempty x Hne) as Hr.
  assert (Hrl : List.length (rev x) = List.length x) by apply length_rev.
  destruct (rev x) as [|c r]; [congruence|].
  rewrite list_eqb_neq, rev_involutive; [reflexivity|].
  intros E. apply (f_equal (@List.length _)) in E.
  rewrite length_rev, length_app, length_rev in E. simpl in E, Hrl. lia.
Qed.

Lemma basename_of_name pre name :
  name <> [] -> forallb not_sep name = true ->
  basename_l (pre ++ "/"%char :: name)%list [] = name.
Proof.
  intros Hne Hsf. unfold basename_l.
  now rewrite last_component_rev_name, rev_involutive.
Qed.

Lemma length_chars s : List.length (chars s) = String.length s.
Proof. induction s as [|c s IH]; simpl; [reflexivity | now rewrite IH]. Qed.

Lemma abs_path_split dirs name :
  exists pre, chars (abs_path dirs name) = (pre ++ "/"%char :: chars name)%list.
Proof.
  rewrite chars_abs_path. unfold file_path_l. rewrite join_segments_snoc.
  destruct (map chars dirs) as [|d ds].
  - now exists [].
  - now exists ("/"%char :: join_segments (d :: ds)).
Qed.

Section OutputName.
Variables (dirs : list string) (file : string).
Hypothesis Hdirs : forallb plain_name dirs = true.
Hypothesis Hfile : plain_name file = true.

Let inputPath := abs_path dirs file.

(** The file written for a token: its name read back from the output
    path, and its extension. *)
Lemma suffixed_name token :
  sep_free token = true -> token <> "" ->
  let name := stem inputPath ++ "." ++ token ++ extname inputPath in
  let out := join (dirname inputPath) name in
  basename out "" = name
  /\ (extname inputPath <> "" -> extname out = extname inputPath).
Proof.
  intros Hsf Hne name out.
  destruct (stem_extname dirs file Hfile)
    as (Hsplit & Hstem & Hsb & Hse & Hext).
  fold inputPath in Hsplit, Hstem, Hsb, Hse, Hext.
  assert (Hlen : 1 <= String.length token)
    by (destruct token; [congruence | simpl; lia]).
  assert (Hlen' : 1 <= String.length (stem inputPath))
    by (destruct (stem inputPath); [congruence | simpl; lia]).
  assert (Hname_sf : sep_free name = true)
    by (unfold name; rewrite !sep_free_app, Hsb, Hsf, Hse; reflexivity).
  assert (Hplain : plain_name name = true).
  { apply plain_of_long; [assumption|].
    unfold name. rewrite !length_append. simpl. lia. }
  assert (Hout : out = abs_path dirs name).
  { unfold out, inputPath. rewrite dirname_abs_path by assumption.
    now apply join_abs_path. }
  destruct (abs_path_split dirs name) as (pre & Hpre).
  destruct (plain_name_l _ Hplain) as (Hne_l & Hsf_l & _).
  split.
  - rewrite Hout. unfold basename. rewrite Hpre. simpl chars.
    rewrite basename_of_name by assumption. apply str_chars.
  - intros Hhas. destruct Hext as [He | (e & He & Hdots)]; [contradiction|].
    rewrite Hout. unfold extname at 1. rewrite Hpre.
    assert (Hname : chars name
                    = (chars (stem inputPath ++ "." ++ token)
                         ++ "."%char :: chars e)%list).
    { unfold name. rewrite He.
      replace (stem inputPath ++ "." ++ token ++ "." ++ e)
        with ((stem inputPath ++ "." ++ token) ++ String "." e)
        by (now rewrite !append_assoc).
      now rewrite chars_app, chars_cons. }
    rewrite Hname.
    rewrite He in Hse.
    change (sep_free ("." ++ e)) with (not_sep "." && sep_free e)%bool in Hse.
    apply andb_prop in Hse as [_ Hse].
    rewrite extname_of_name; auto.
    + rewrite He. change ("." ++ e) with (String "." e).
      now rewrite <- chars_cons, str_chars.
    + apply chars_nonempty. intros E.
      apply (f_equal String.length) in E.
      rewrite !length_append in E. simpl in E. lia.
    + rewrite !length_chars, !length_append. simpl. lia.
    + change (forallb not_sep (chars (stem inputPath ++ "." ++ token)))
        with (sep_free (stem inputPath ++ "." ++ token)).
      rewrite !sep_free_app, Hsb, Hsf. reflexivity.
Qed.

End OutputName.

Section ConvertedName.
Variables (dirs : list string) (file : string).
Hypothesis Hdirs : forallb plain_name dirs = true.
Hypothesis Hfile : plain_name file = true.

Let inputPath := abs_path dirs file.

(** The file written by a conversion: its name read back from the output
    path, and its extension. *)
Lemma converted_name sfx fmt :
  sep_free sfx = true -> sep_free fmt = true -> dot_free fmt = true ->
  fmt <> "" ->
  let name := (stem inputPath ++ sfx) ++ "." ++ fmt in
  let out := join (dirname inputPath) name in
  basename out "" = name /\ extname out = "." ++ fmt.
Proof.
  intros Hsf Hff Hdf Hne name out.
  destruct (stem_extname dirs file Hfile) as (_ & Hstem & Hsb & _).
  fold inputPath in Hstem, Hsb.
  assert (Hlen : 1 <= String.length fmt)
    by (destruct fmt; [congruence | simpl; lia]).
  assert (Hlen' : 1 <= String.length (stem inputPath))
    by (destruct (stem inputPath); [congruence | simpl; lia]).
  assert (Hname_sf : sep_free name = true)
    by (unfold name; rewrite !sep_free_app, Hsb, Hsf, Hff; reflexivity).
  assert (Hplain : plain_name name = true).
  { apply plain_of_long; [assumption|].
    unfold name. rewrite !length_append. simpl. lia. }
  assert (Hout : out = abs_path dirs name).
  { unfold out, inputPath. rewrite dirname_abs_path by assumption.
    now apply join_abs_path. }
  destruct (abs_path_split dirs name) as (pre & Hpre).
  destruct (plain_name_l _ Hplain) as (Hne_l & Hsf_l & _).
  split.
  - rewrite Hout. unfold basename. rewrite Hpre. simpl chars.
    rewrite basename_of_name by assumption. apply str_chars.
  - rewrite Hout. unfold extname. rewrite Hpre.
    assert (Hname : chars name
                    = (chars (stem inputPath ++ sfx)
                         ++ "."%char :: chars fmt)%list)
      by (unfold name; now rewrite chars_app).
    rewrite Hname, extname_of_name; auto.
    + now rewrite <- chars_cons, str_chars.
    + apply chars_nonempty. intros E.
      apply (f_equal String.length) in E.
      rewrite !length_append in E. simpl in E. lia.
    + rewrite !length_chars, !length_append. lia.
    + change (forallb not_sep (chars (stem inputPath ++ sfx)))
        with (sep_free (stem inputPath ++ sfx)).
      rewrite sep_free_app, Hsb, Hsf. reflexivity.
Qed.

End ConvertedName.

(* ================================================================== *)
(** * The name of the output file *)

Section NamedAfter.
Variables (dirs : list string) (file : string).
Hypothesis Hdirs : forallb plain_name dirs = true.
Hypothesis Hfile : plain_name file = true.

Let inputPath := abs_path dirs file.

Lemma named_job args name token :
  name = stem inputPath ++ "." ++ token ++ extname inputPath ->
  sep_free token = true -> token <> "" ->
  named_after inputPath (Ok (mkJob args (join (dirname inputPath) name))).
Proof.
  intros -> Hsf Hne.
  destruct (suffixed_name dirs file Hdirs Hfile token Hsf Hne)
    as (Hbase & Hext).
  exists (mkJob args
            (join (dirname inputPath)
                  (stem inputPath ++ "." ++ token ++ extname inputPath))),
    token.
  repeat split; assumption.
Qed.

Lemma resolution_video_named st v rest :
  ResolutionVideo.inputFile v = inputPath :: rest ->
  sep_free (ResolutionVideo.width v) = true ->
  sep_free (ResolutionVideo.height v) = true ->
  sep_free (ResolutionVideo.preset v) = true ->
  named_after inputPath (ResolutionVideo.handleSubmit st v).
Proof.
  intros Hf Hw Hh Hp.
  unfold ResolutionVideo.handleSubmit. rewrite Hf. fold (stem inputPath).
  apply named_job
    with (token := ResolutionVideo.resolution v
                   ++ ResolutionVideo.presetSuffix v).
  - now rewrite append_assoc.
  - unfold ResolutionVideo.resolution, ResolutionVideo.presetSuffix.
    destruct (ResolutionVideo.maintainAspectRatio v), (negb _);
      sep_free_parts.
  - unfold ResolutionVideo.resolution.
    destruct (ResolutionVideo.maintainAspectRatio v); nonempty.
Qed.

Lemma resize_image_named st v rest :
  ResizeImage.inputFile v = inputPath :: rest ->
  sep_free (ResizeImage.width v) = true ->
  sep_free (ResizeImage.height v) = true ->
  sep_free (ResizeImage.quality v) = true ->
  named_after inputPath (ResizeImage.handleSubmit st v).
Proof.
  intros Hf Hw Hh Hq.
  unfold ResizeImage.handleSubmit. rewrite Hf. fold (stem inputPath).
  apply named_job
    with (token := ResizeImage.resolution v ++ ResizeImage.qualitySuffix v).
  - now rewrite append_assoc.
  - unfold ResizeImage.resolution, ResizeImage.qualitySuffix.
    destruct (ResizeImage.maintainAspectRatio v), (truthy _);
      sep_free_parts.
  - unfold ResizeImage.resolution.
    destruct (ResizeImage.maintainAspectRatio v); nonempty.
Qed.

Lemma resize_named st v rest :
  Resize.inputFile v = inputPath :: rest ->
  sep_free (tmpl (Resize.quality v)) = true ->
  sep_free (tmpl (Resize.preset v)) = true ->
  named_after inputPath (Resize.handleSubmit st v).
Proof.
  intros Hf Hq Hp.
  unfold Resize.handleSubmit. rewrite Hf. fold (stem inputPath).
  apply named_job
    with (token := Resize.sanitizedResolution v ++ Resize.qualitySuffix v
                   ++ Resize.presetSuffix v).
  - now rewrite !append_assoc.
  - unfold Resize.sanitizedResolution, Resize.qualitySuffix,
      Resize.presetSuffix.
    destruct (_ && _)%bool, (_ && _)%bool; sep_free_parts.
  - unfold Resize.sanitizedResolution, Resize.resolution, Resize.scaling.
    destruct (Resize.fileType v); [destruct (_ && _)%bool|];
      simpl fst; rewrite !sanitize_app;
      change (Resize.sanitize "p") with "p";
      change (Resize.sanitize "w") with "w";
      change (Resize.sanitize "x") with "x"; nonempty.
Qed.

Lemma speed_named st v rest :
  Speed.inputFile v = inputPath :: rest ->
  named_after inputPath (Speed.handleSubmit st v).
Proof.
  intros Hf.
  unfold Speed.handleSubmit. rewrite Hf. fold (stem inputPath).
  destruct (Speed.fileType st) as [[| |]|]; cbv beta iota zeta.
  - apply named_job with (token := Speed.speedSuffix v);
      [reflexivity | apply speedSuffix_sep_free |].
    rewrite speedSuffix_tokens. nonempty.
  - apply named_job
      with (token := to_string (parseFloat (Speed.speed v)) ++ "x");
      [now rewrite append_assoc | sep_free_parts | nonempty].
  - apply named_job
      with (token := to_string (parseFloat (Speed.speed v)) ++ "x");
      [now rewrite append_assoc | sep_free_parts | nonempty].
  - apply named_job
      with (token := to_string (parseFloat (Speed.speed v)) ++ "x");
      [now rewrite append_assoc | sep_free_parts | nonempty].
Qed.

Lemma compress_named st v rest kind :
  Compress.inputFile v = inputPath :: rest ->
  Compress.fileType st = Some kind ->
  sep_free (Compress.quality v) = true ->
  named_after inputPath (Compress.handleSubmit st v).
Proof.
  intros Hf Hk Hq.
  unfold Compress.handleSubmit, Compress.qualityValue.
  rewrite Hf, Hk. fold (stem inputPath).
  assert (Hpreset : sep_free
                      (Compress.QUALITY_PRESETS kind (Compress.preset v))
                    = true)
    by (destruct kind, (Compress.preset v); reflexivity).
  destruct (truthy _), kind; cbv beta iota zeta.
  - apply named_job with (token := "crf" ++ Compress.quality v);
      [reflexivity | sep_free_parts | nonempty].
  - apply named_job with (token := Compress.quality v ++ "kbps");
      [now rewrite append_assoc | sep_free_parts | nonempty].
  - apply named_job with (token := "q" ++ Compress.quality v);
      [reflexivity | sep_free_parts | nonempty].
  - apply named_job
      with (token := "crf" ++ Compress.QUALITY_PRESETS Video
                                (Compress.preset v));
      [reflexivity | sep_free_parts | nonempty].
  - apply named_job
      with (token := Compress.QUALITY_PRESETS Audio (Compress.preset v)
                     ++ "kbps");
      [now rewrite append_assoc | sep_free_parts | nonempty].
  - apply named_job
      with (token := "q" ++ Compress.QUALITY_PRESETS Image
                              (Compress.preset v));
      [reflexivity | sep_free_parts | nonempty].
Qed.

Lemma convert_named st v rest :
  Convert.inputFile v = inputPath :: rest ->
  sep_free (tmpl (Convert.codec v)) = true ->
  sep_free (tmpl (Convert.quality v)) = true ->
  sep_free (Convert.format v) = true ->
  dot_free (Convert.format v) = true ->
  Convert.format v <> "" ->
  exists job,
    Convert.handleSubmit st v = Ok job
    /\ basename (outputPath job) ""
       = (stem inputPath ++ convert_suffix (Convert.fileType st) v)
           ++ "." ++ Convert.format v
    /\ extname (outputPath job) = "." ++ Convert.format v.
Proof.
  intros Hf Hc Hq Hfmt Hdot Hne.
  unfold Convert.handleSubmit. rewrite Hf.
  fold (stem inputPath).
  pose proof (encode_name (Convert.fileType st) v
                ["-i"; inputPath] (stem inputPath))
    as Hname.
  destruct (Convert.encode _ _ _ _) as [args name]. simpl in Hname.
  subst name.
  destruct (converted_name dirs file Hdirs Hfile
              (convert_suffix (Convert.fileType st) v) (Convert.format v))
    as (Hbase & Hext); auto using convert_suffix_sep_free.
  eexists. split; [reflexivity|]. split; assumption.
Qed.

End NamedAfter.

(** X1. For an input path of plain components and options without a
    path separator, the rescale, speed and compress handlers name the
    output [{stem}.{token}{extension}] with a token that is not empty:
    read back with [basename], the output path gives that name, and when
    the input has an extension the output has the same one. *)
Theorem output_named_after_input dirs file :
  forallb plain_name dirs = true ->
  plain_name file = true ->
  let inputPath := abs_path dirs file in
  (forall st v rest,
     ResolutionVideo.inputFile v = inputPath :: rest ->
     sep_free (ResolutionVideo.width v) = true ->
     sep_free (ResolutionVideo.height v) = true ->
     sep_free (ResolutionVideo.preset v) = true ->
     named_after inputPath (ResolutionVideo.handleSubmit st v))
  /\ (forall st v rest,
     ResizeImage.inputFile v = inputPath :: rest ->
     sep_free (ResizeImage.width v) = true ->
     sep_free (ResizeImage.height v) = true ->
     sep_free (ResizeImage.quality v) = true ->
     named_after inputPath (ResizeImage.handleSubmit st v))
  /\ (forall st v rest,
     Resize.inputFile v = inputPath :: rest ->
     sep_free (tmpl (Resize.quality v)) = true ->
     sep_free (tmpl (Resize.preset v)) = true ->
     named_after inputPath (Resize.handleSubmit st v))
  /\ (forall st v rest,
     Speed.inputFile v = inputPath :: rest ->
     named_after inputPath (Speed.handleSubmit st v))
  /\ (forall st v rest kind,
     Compress.inputFile v = inputPath :: rest ->
     Compress.fileType st = Some kind ->
     sep_free (Compress.quality v) = true ->
     named_after inputPath (Compress.handleSubmit st v)).
Proof.
  intros Hdirs Hfile inputPath.
  repeat apply conj.
  - intros st v rest. now apply resolution_video_named.
  - intros st v rest. now apply resize_image_named.
  - intros st v rest. now apply resize_named.
  - intros st v rest. now apply speed_named.
  - intros st v rest kind. now apply compress_named.
Qed.

Lemma output_named_after_input_witness :
  named_after clip
    (ResolutionVideo.handleSubmit rv_state (rv_values true ""))
  /\ named_after photo
       (ResizeImage.handleSubmit ri_state (ri_values false "800" "600"))
  /\ named_after photo
       (Resize.handleSubmit rs_state (rs_image false "80 0" (Some "6/00")))
  /\ named_after clip
       (Speed.handleSubmit sp_state (sp_values "2.0" None (Some true)))
  /\ named_after song
       (Compress.handleSubmit (cp_state (Some Audio))
                              (cp_values song "" Compress.medium)).
Proof.
  destruct (output_named_after_input ["Users"; "me"] "clip.mp4"
              eq_refl eq_refl) as (Hrv & _ & _ & Hsp & _).
  destruct (output_named_after_input ["Users"; "me"] "photo.png"
              eq_refl eq_refl) as (_ & Hri & Hrs & _ & _).
  destruct (output_named_after_input ["Users"; "me"] "song.mp3"
              eq_refl eq_refl) as (_ & _ & _ & _ & Hcp).
  repeat apply conj.
  - exact (Hrv rv_state (rv_values true "") [] eq_refl eq_refl eq_refl
               eq_refl).
  - exact (Hri ri_state (ri_values false "800" "600") [] eq_refl eq_refl
               eq_refl eq_refl).
  - exact (Hrs rs_state (rs_image false "80 0" (Some "6/00")) [] eq_refl
               eq_refl eq_refl).
  - exact (Hsp sp_state (sp_values "2.0" None (Some true)) [] eq_refl).
  - exact (Hcp (cp_state (Some Audio)) (cp_values song "" Compress.medium)
               [] Audio eq_refl eq_refl eq_refl).
Defined.

(** X2. For an input path of plain components, a format that is not
    empty and holds neither a dot nor a separator, and a codec and a
    quality without a separator, the convert handler names the output
    [{stem}{suffix}.{format}]: the output path read back with [basename]
    gives that name, and its extension is the chosen format, whatever the
    extension of the input. *)
Theorem convert_output_name dirs file st v rest :
  forallb plain_name dirs = true ->
  plain_name file = true ->
  Convert.inputFile v = abs_path dirs file :: rest ->
  sep_free (tmpl (Convert.codec v)) = true ->
  sep_free (tmpl (Convert.quality v)) = true ->
  sep_free (Convert.format v) = true ->
  dot_free (Convert.format v) = true ->
  Convert.format v <> "" ->
  exists job,
    Convert.handleSubmit st v = Ok job
    /\ basename (outputPath job) ""
       = (stem (abs_path dirs file)
               ++ convert_suffix (Convert.fileType st) v)
           ++ "." ++ Convert.format v
    /\ extname (outputPath job) = "." ++ Convert.format v.
Proof.
  intros Hdirs Hfile. now apply convert_named.
Qed.

Lemma convert_output_name_witness :
  exists job,
    Convert.handleSubmit (cv_state (Some Video))
                         (cv_values "mkv" (Some "libx264") None None)
    = Ok job
    /\ basename (outputPath job) "" = "clip.libx264.q23.mkv"
    /\ extname (outputPath job) = ".mkv".
Proof.
  exact (convert_output_name ["Users"; "me"] "clip.mp4"
           (cv_state (Some Video))
           (cv_values "mkv" (Some "libx264") None None) []
           eq_refl eq_refl eq_refl eq_refl eq_refl eq_refl eq_refl
           ltac:(discriminate)).
Defined.

(* ================================================================== *)
(** * Exceptions and options that are not read *)

(** X3. The compress handler raises in three cases only, in this order:
    with no file submitted, a type error on the path; with a file, the
    media kind undetermined and a quality typed in, the error
    [Unsupported file type]; with a file, the kind undetermined and the
    quality left empty, the type error of the lookup in the preset table,
    before the switch on the kind is reached. *)
Theorem compress_raises st v e :
  Compress.handleSubmit st v = Throw e <->
  (Compress.inputFile v = [] /\ e = InvalidPathArgument)
  \/ (Compress.inputFile v <> [] /\ Compress.fileType st = None
      /\ Compress.quality v <> "" /\ e = UnsupportedFileType)
  \/ (Compress.inputFile v <> [] /\ Compress.fileType st = None
      /\ Compress.quality v = "" /\ e = UndefinedLookup).
Proof.
  unfold Compress.handleSubmit, Compress.qualityValue. simpl truthy.
  destruct (Compress.inputFile v) as [|p rest].
  { split.
    - intros H. injection H as <-. now left.
    - intros [[_ ->] | [(H & _) | (H & _)]]; congruence. }
  destruct (String.eqb_spec (Compress.quality v) "") as [Hq | Hq];
    destruct (Compress.fileType st) as [[| |]|]; simpl; split;
    try discriminate;
    try (intros [[H _] | [(_ & H & _) | (_ & H & _)]]; discriminate H).
  - intros H. injection H as <-. right. right. repeat split; congruence.
  - intros [[H _] | [(_ & _ & H & _) | (_ & _ & _ & ->)]];
      [discriminate H | contradiction | reflexivity].
  - intros H. injection H as <-. right. left. repeat split; congruence.
  - intros [[H _] | [(_ & _ & _ & ->) | (_ & _ & H & _)]];
      [discriminate H | reflexivity | contradiction].
Qed.

Lemma compress_raises_witness :
  Compress.handleSubmit (cp_state None) (cp_values clip "18" Compress.medium)
  = Throw UnsupportedFileType
  /\ Compress.handleSubmit (cp_state None)
                           (cp_values clip "" Compress.medium)
     = Throw UndefinedLookup.
Proof.
  split.
  - apply (proj2 (compress_raises (cp_state None)
                    (cp_values clip "18" Compress.medium)
                    UnsupportedFileType)).
    right. left. repeat split; discriminate.
  - apply (proj2 (compress_raises (cp_state None)
                    (cp_values clip "" Compress.medium) UndefinedLookup)).
    right. right. repeat split; discriminate.
Defined.

(** X4. Options the convert handler does not read.  With maximum quality
    ticked the quality field has no effect, for any media kind.  For a
    video with no codec or codec copy, neither the quality nor maximum
    quality has an effect.  For audio and images the codec has no
    effect. *)
Theorem convert_unread_options :
  (forall st v1 v2,
     Convert.inputFile v1 = Convert.inputFile v2 ->
     Convert.format v1 = Convert.format v2 ->
     Convert.codec v1 = Convert.codec v2 ->
     Convert.maintainQuality v1 = Convert.maintainQuality v2 ->
     truthy_bool (Convert.maintainQuality v1) = true ->
     Convert.handleSubmit st v1 = Convert.handleSubmit st v2)
  /\ (forall st v1 v2,
     Convert.fileType st = Some Video ->
     Convert.inputFile v1 = Convert.inputFile v2 ->
     Convert.format v1 = Convert.format v2 ->
     convert_keeps_name (Some Video) v1 = true ->
     convert_keeps_name (Some Video) v2 = true ->
     Convert.handleSubmit st v1 = Convert.handleSubmit st v2)
  /\ (forall st v1 v2,
     Convert.fileType st = Some Audio \/ Convert.fileType st = Some Image ->
     Convert.inputFile v1 = Convert.inputFile v2 ->
     Convert.format v1 = Convert.format v2 ->
     Convert.quality v1 = Convert.quality v2 ->
     Convert.maintainQuality v1 = Convert.maintainQuality v2 ->
     Convert.handleSubmit st v1 = Convert.handleSubmit st v2).
Proof.
  repeat apply conj.
  - intros st v1 v2 Hf Hfmt Hc Hm Hmax.
    unfold Convert.handleSubmit, Convert.encode.
    rewrite <- Hf, <- Hfmt, <- Hc, <- Hm, Hmax. reflexivity.
  - intros st v1 v2 Hk Hf Hfmt H1 H2.
    unfold Convert.handleSubmit, Convert.encode.
    rewrite <- Hf, <- Hfmt, Hk.
    simpl in H1, H2.
    assert (Hskip : forall v,
               (negb (truthy (Convert.codec v))
                || str_is (Convert.codec v) "copy")%bool = true ->
               str_is (Convert.codec v) "libvpx-vp9" = false
               /\ (truthy (Convert.codec v)
                   && negb (str_is (Convert.codec v) "copy"))%bool = false).
    { intros v H. destruct (Convert.codec v) as [c|]; simpl in *.
      - destruct (String.eqb_spec c "copy") as [Hc | Hc].
        + subst c. now split.
        + rewrite orb_false_r in H.
          apply negb_true_iff, negb_false_iff, String.eqb_eq in H.
          subst c. now split.
      - now split. }
    destruct (Hskip v1 H1) as (-> & ->).
    destruct (Hskip v2 H2) as (-> & ->). reflexivity.
  - intros st v1 v2 Hk Hf Hfmt Hq Hm.
    unfold Convert.handleSubmit, Convert.encode.
    rewrite <- Hf, <- Hfmt, <- Hq, <- Hm.
    destruct Hk as [-> | ->]; reflexivity.
Qed.

Lemma convert_unread_options_witness :
  Convert.handleSubmit (cv_state (Some Audio))
                       (cv_values "flac" None (Some "192") (Some true))
  = Convert.handleSubmit (cv_state (Some Audio))
                         (cv_values "flac" None None (Some true))
  /\ Convert.handleSubmit (cv_state (Some Video))
                          (cv_values "mkv" (Some "copy") (Some "18")
                                     (Some true))
     = Convert.handleSubmit (cv_state (Some Video))
                            (cv_values "mkv" None None None)
  /\ Convert.handleSubmit (cv_state (Some Image))
                          (cv_values "png" (Some "libx264") (Some "5") None)
     = Convert.handleSubmit (cv_state (Some Image))
                            (cv_values "png" None (Some "5") None).
Proof.
  destruct convert_unread_options as (H1 & H2 & H3).
  repeat apply conj.
  - apply H1; reflexivity.
  - apply H2; reflexivity.
  - apply H3; try reflexivity. now right.
Defined.

(** Equal numbers print alike. *)
Lemma strict_eqb_same x y :
  strict_eqb x y = true ->
  x = y \/ exists s1 s2, x = S754_zero s1 /\ y = S754_zero s2.
Proof.
  unfold strict_eqb, SFeqb, SFcompare.
  destruct x as [sx|sx| |sx mx ex], y as [sy|sy| |sy my ey]; intros H;
    try discriminate H;
    try (destruct sx; discriminate H); try (destruct sy; discriminate H).
  - right. now exists sx, sy.
  - left. destruct sx, sy; try discriminate H; reflexivity.
  - left. destruct sx, sy; try discriminate H;
      destruct (Z.compare_spec ex ey) as [-> | |]; try discriminate H;
      change (PosDef.Pos.compare_cont Eq mx my) with (Pos.compare mx my) in H;
      destruct (Pos.compare_spec mx my) as [-> | |];
      try discriminate H; reflexivity.
Qed.

Lemma strict_eqb_to_string x y :
  strict_eqb x y = true -> to_string x = to_string y.
Proof.
  intros H. destruct (strict_eqb_same x y H) as [-> | (s1 & s2 & -> & ->)];
    reflexivity.
Qed.

(** X5. For anything but a video the speed handler reads the speed only:
    the custom audio speed and the pitch box have no effect. *)
Theorem speed_audio_unread_options st v1 v2 :
  Speed.fileType st <> Some Video ->
  Speed.inputFile v1 = Speed.inputFile v2 ->
  Speed.speed v1 = Speed.speed v2 ->
  Speed.handleSubmit st v1 = Speed.handleSubmit st v2.
Proof.
  intros Hk Hf Hs. unfold Speed.handleSubmit. rewrite <- Hf, <- Hs.
  destruct (Speed.fileType st) as [[| |]|]; try reflexivity.
  contradiction.
Qed.

Lemma speed_audio_unread_options_witness :
  Speed.handleSubmit
    {| Speed.defaultFile := []; Speed.fileType := Some Audio |}
    (sp_values "2.0" (Some "1.0") (Some true))
  = Speed.handleSubmit
      {| Speed.defaultFile := []; Speed.fileType := Some Audio |}
      (sp_values "2.0" None None).
Proof.
  apply speed_audio_unread_options; [discriminate | reflexivity..].
Defined.

(** X6. A custom audio speed that is the same number as the video speed,
    however it is written, compiles the same job as no custom audio
    speed. *)
Theorem speed_same_audio_speed st v a :
  Speed.customAudioSpeed v = Some a -> a <> "" ->
  strict_eqb (parseFloat a) (parseFloat (Speed.speed v)) = true ->
  Speed.handleSubmit st v
  = Speed.handleSubmit st
      {| Speed.inputFile := Speed.inputFile v;
         Speed.speed := Speed.speed v;
         Speed.maintainPitch := Speed.maintainPitch v;
         Speed.customAudioSpeed := None |}.
Proof.
  intros Ha Hne Heq.
  assert (Htruthy : truthy (Some a) = true)
    by (simpl; apply negb_true_iff; now apply String.eqb_neq).
  pose proof (strict_eqb_to_string _ _ Heq) as Hprint.
  unfold Speed.handleSubmit, Speed.speedSuffix, Speed.videoFilter,
    Speed.audioFilter, Speed.audioSpeed.
  cbn [Speed.inputFile Speed.speed Speed.maintainPitch
       Speed.customAudioSpeed].
  rewrite Ha, Htruthy. cbn [truthy tmpl].
  rewrite Heq, Hprint.
  assert (Hself : strict_eqb (parseFloat (Speed.speed v))
                             (parseFloat (Speed.speed v)) = true).
  { destruct (strict_eqb_same _ _ Heq) as [E | (s1 & s2 & _ & E)].
    - rewrite E in Heq. exact Heq.
    - rewrite E. reflexivity. }
  rewrite Hself. reflexivity.
Qed.

Lemma speed_same_audio_speed_witness :
  Speed.handleSubmit sp_state (sp_values "2.0" (Some "2") (Some true))
  = Speed.handleSubmit sp_state (sp_values "2.0" None (Some true))
  /\ Speed.handleSubmit sp_state
       (sp_values "2.0" (Some (nbsp ++ "20e-1")) None)
     = Speed.handleSubmit sp_state (sp_values "2.0" None None).
Proof.
  split.
  - refine (speed_same_audio_speed sp_state
              (sp_values "2.0" (Some "2") (Some true)) "2" eq_refl _ _).
    + discriminate.
    + vm_compute. reflexivity.
  - refine (speed_same_audio_speed sp_state
              (sp_values "2.0" (Some (nbsp ++ "20e-1")) None)
              (nbsp ++ "20e-1") eq_refl _ _).
    + discriminate.
    + vm_compute. reflexivity.
Defined.

Lemma parseFloat_not_a_number a :
  no_numeral a = true -> parseFloat a = NaN.
Proof.
  unfold no_numeral, parseFloat, parseFloat_l.
  destruct (trim_start (chars a)) as [|c r]; [reflexivity|].
  intros H. apply negb_true_iff in H.
  destruct c as [[] [] [] [] [] [] [] []];
    first [discriminate H | reflexivity].
Qed.

(** X7. A custom audio speed that is no number is not refused.  When the
    field is not empty and, after its leading white space, is at its end
    or at a character that can not start a number, a video is compiled
    with the audio filter [atempo=NaN] (or, with the pitch maintained,
    [asetrate=44100*NaN,aresample=44100,atempo=1]) and named
    [{speed}x.aNaNx], [.pitch] added as usual. *)
Theorem speed_audio_speed_not_a_number st v inputPath rest a :
  Speed.fileType st = Some Video ->
  Speed.inputFile v = inputPath :: rest ->
  Speed.customAudioSpeed v = Some a ->
  a <> "" ->
  no_numeral a = true ->
  let speed := to_string (parseFloat (Speed.speed v)) in
  compiles_to (Speed.handleSubmit st v) inputPath
    ["-filter:v";
     "setpts=" ++ to_string (div (of_Z 1) (parseFloat (Speed.speed v)))
               ++ "*PTS";
     "-filter:a";
     if truthy_bool (Speed.maintainPitch v)
     then "asetrate=44100*NaN,aresample=44100,atempo=1"
     else "atempo=NaN"]
    (stem inputPath ++ "."
          ++ (speed ++ "x.aNaNx"
                    ++ (if truthy_bool (Speed.maintainPitch v)
                        then ".pitch" else ""))
          ++ extname inputPath).
Proof.
  intros Hk Hf Ha Hne Hc speed.
  pose proof (parseFloat_not_a_number a Hc) as Hnan.
  assert (Htruthy : truthy (Some a) = true)
    by (simpl; apply negb_true_iff; now apply String.eqb_neq).
  unfold Speed.handleSubmit. rewrite Hf, Hk, speedSuffix_tokens.
  unfold Speed.videoFilter, Speed.audioFilter, Speed.audioSpeed.
  rewrite Ha, Htruthy. cbn [tmpl]. rewrite Hnan.
  change (strict_eqb NaN (parseFloat (Speed.speed v))) with false.
  change (to_string NaN) with "NaN".
  destruct (truthy_bool (Speed.maintainPitch v)); compiled.
Qed.

Lemma speed_audio_speed_not_a_number_witness :
  compiles_to
    (Speed.handleSubmit sp_state (sp_values "2.0" (Some "fast") None))
    clip ["-filter:v"; "setpts=0.5*PTS"; "-filter:a"; "atempo=NaN"]
    "clip.2x.aNaNx.mp4"
  /\ compiles_to
       (Speed.handleSubmit sp_state
          (sp_values "2.0" (Some (nbsp ++ " ")) (Some true)))
       clip
       ["-filter:v"; "setpts=0.5*PTS"; "-filter:a";
        "asetrate=44100*NaN,aresample=44100,atempo=1"]
       "clip.2x.aNaNx.pitch.mp4".
Proof.
  split.
  - refine (speed_audio_speed_not_a_number sp_state
              (sp_values "2.0" (Some "fast") None) clip [] "fast"
              eq_refl eq_refl eq_refl _ eq_refl).
    discriminate.
  - refine (speed_audio_speed_not_a_number sp_state
              (sp_values "2.0" (Some (nbsp ++ " ")) (Some true)) clip []
              (nbsp ++ " ") eq_refl eq_refl eq_refl _ eq_refl).
    discriminate.
Defined.

(* ================================================================== *)
(** * The unified resize: options by media kind *)

(** X8. In the unified resize a video is compiled from the width, the
    filter, the preset and the audio box only (height, aspect-ratio box
    and quality are not read), and an image from the width, the height,
    the aspect-ratio box, the filter and the quality only (preset and
    audio box are not read). *)
Theorem resize_unread_options :
  (forall st v1 v2,
     Resize.fileType v1 = Resize.video ->
     Resize.fileType v2 = Resize.video ->
     Resize.inputFile v1 = Resize.inputFile v2 ->
     Resize.width v1 = Resize.width v2 ->
     Resize.filter v1 = Resize.filter v2 ->
     Resize.preset v1 = Resize.preset v2 ->
     Resize.keepAudioBitrate v1 = Resize.keepAudioBitrate v2 ->
     Resize.handleSubmit st v1 = Resize.handleSubmit st v2)
  /\ (forall st v1 v2,
     Resize.fileType v1 = Resize.image ->
     Resize.fileType v2 = Resize.image ->
     Resize.inputFile v1 = Resize.inputFile v2 ->
     Resize.width v1 = Resize.width v2 ->
     Resize.height v1 = Resize.height v2 ->
     Resize.maintainAspectRatio v1 = Resize.maintainAspectRatio v2 ->
     Resize.filter v1 = Resize.filter v2 ->
     Resize.quality v1 = Resize.quality v2 ->
     Resize.handleSubmit st v1 = Resize.handleSubmit st v2).
Proof.
  split.
  - intros st v1 v2 H1 H2 Hf Hw Hfl Hp Hk.
    unfold Resize.handleSubmit, Resize.sanitizedResolution,
      Resize.resolution, Resize.scaleFilter, Resize.scaling,
      Resize.qualitySuffix, Resize.presetSuffix.
    rewrite H1, H2, <- Hf, <- Hw, <- Hfl, <- Hp, <- Hk. reflexivity.
  - intros st v1 v2 H1 H2 Hf Hw Hh Ha Hfl Hq.
    unfold Resize.handleSubmit, Resize.sanitizedResolution,
      Resize.resolution, Resize.scaleFilter, Resize.scaling,
      Resize.qualitySuffix, Resize.presetSuffix.
    rewrite H1, H2, <- Hf, <- Hw, <- Hh, <- Ha, <- Hfl, <- Hq. reflexivity.
Qed.

Lemma resize_unread_options_witness :
  Resize.handleSubmit rs_state (rs_video false (Some "1080"))
  = Resize.handleSubmit rs_state (rs_video true None)
  /\ Resize.handleSubmit rs_state (rs_image false "800" (Some "600"))
     = Resize.handleSubmit rs_state
         {| Resize.inputFile := [photo];
            Resize.width := "800";
            Resize.height := Some "600";
            Resize.maintainAspectRatio := false;
            Resize.filter := "lanczos";
            Resize.fileType := Resize.image;
            Resize.quality := None;
            Resize.preset := Some "veryslow";
            Resize.keepAudioBitrate := Some true |}.
Proof.
  destruct resize_unread_options as (H1 & H2).
  split; [apply H1 | apply H2]; reflexivity.
Defined.

(** X9. In the unified resize an image submitted without a height, or
    with an empty one, is scaled on its width alone even when the
    aspect-ratio box is unticked: the filter is
    [scale={width}:-1:flags={filter}] and the token [{width}w]. *)
Theorem resize_image_without_height st v inputPath rest :
  Resize.inputFile v = inputPath :: rest ->
  Resize.fileType v = Resize.image ->
  truthy (Resize.height v) = false ->
  compiles_to (Resize.handleSubmit st v) inputPath
    ["-vf"; "scale=" ++ Resize.width v ++ ":-1:flags=" ++ Resize.filter v]
    (stem inputPath ++ "." ++ Resize.sanitize (Resize.width v ++ "w")
          ++ Resize.qualitySuffix v ++ extname inputPath).
Proof.
  intros Hf Hk Hh.
  unfold Resize.handleSubmit, Resize.scaleFilter,
    Resize.sanitizedResolution, Resize.resolution, Resize.presetSuffix,
    Resize.scaling.
  rewrite Hf, Hk, Hh. simpl.
  destruct (truthy (Resize.quality v)); compiled.
Qed.

Lemma resize_image_without_height_witness :
  compiles_to (Resize.handleSubmit rs_state (rs_image false "800" (Some "")))
    photo ["-vf"; "scale=800:-1:flags=lanczos"] "photo.800w.png".
Proof.
  exact (resize_image_without_height rs_state
           (rs_image false "800" (Some "")) photo [] eq_refl eq_refl
           eq_refl).
Defined.

(** X10. In the unified resize of a video the preset passed to the tool
    and the preset in the file name part ways when the preset is missing
    or empty: the tool gets [-preset medium], the name gets [.undefined]
    or a bare dot.  With preset medium the name has no preset part, and
    with any other preset the tool gets it and the name ends in it. *)
Theorem resize_video_preset st v inputPath rest :
  Resize.inputFile v = inputPath :: rest ->
  Resize.fileType v = Resize.video ->
  let scale :=
    "scale=" ++ Resize.width v ++ ":-2:flags=" ++ Resize.filter v in
  let named part :=
    stem inputPath ++ "." ++ Resize.sanitize (Resize.width v ++ "p")
         ++ part ++ extname inputPath in
  (Resize.preset v = None ->
   compiles_to (Resize.handleSubmit st v) inputPath
     ["-vf"; scale; "-preset"; "medium"] (named ".undefined"))
  /\ (Resize.preset v = Some "" ->
      compiles_to (Resize.handleSubmit st v) inputPath
        ["-vf"; scale; "-preset"; "medium"] (named "."))
  /\ (Resize.preset v = Some "medium" ->
      compiles_to (Resize.handleSubmit st v) inputPath
        ["-vf"; scale; "-preset"; "medium"] (named ""))
  /\ (forall p, Resize.preset v = Some p -> p <> "" -> p <> "medium" ->
      compiles_to (Resize.handleSubmit st v) inputPath
        ["-vf"; scale; "-preset"; p] (named ("." ++ p))).
Proof.
  intros Hf Hk scale named. unfold scale, named.
  unfold Resize.handleSubmit, Resize.scaleFilter,
    Resize.sanitizedResolution, Resize.resolution, Resize.qualitySuffix,
    Resize.presetSuffix, Resize.scaling.
  rewrite Hf, Hk. simpl.
  repeat apply conj.
  - intros ->. simpl.
    destruct (truthy_bool (Resize.keepAudioBitrate v)); compiled.
  - intros ->. simpl.
    destruct (truthy_bool (Resize.keepAudioBitrate v)); compiled.
  - intros ->. simpl.
    destruct (truthy_bool (Resize.keepAudioBitrate v)); compiled.
  - intros p -> Hne Hmed. unfold or_else. simpl.
    apply String.eqb_neq in Hne, Hmed. rewrite Hne, Hmed. simpl.
    destruct (truthy_bool (Resize.keepAudioBitrate v)); compiled.
Qed.

Lemma resize_video_preset_witness :
  compiles_to (Resize.handleSubmit rs_state (rs_video_preset None))
    clip ["-vf"; "scale=1920:-2:flags=bicubic"; "-preset"; "medium"]
    "clip.1920p.undefined.mp4"
  /\ compiles_to (Resize.handleSubmit rs_state (rs_video_preset (Some "slow")))
       clip ["-vf"; "scale=1920:-2:flags=bicubic"; "-preset"; "slow"]
       "clip.1920p.slow.mp4".
Proof.
  split.
  - exact (proj1 (resize_video_preset rs_state (rs_video_preset None)
                    clip [] eq_refl eq_refl) eq_refl).
  - refine (proj2 (proj2 (proj2
              (resize_video_preset rs_state (rs_video_preset (Some "slow"))
                 clip [] eq_refl eq_refl)))
              "slow" eq_refl _ _); discriminate.
Defined.

(* ================================================================== *)
(** * Codecs of a video conversion, sanitizing, presets *)

(** X11. Every video conversion names both codecs: the argument list is
    [-i input -c:v {video codec}], the quality options, then
    [-c:a {audio codec} -y output].  The video codec is the chosen one,
    and copy when there is none; the audio is copied, except with VP9
    where it is encoded with libopus. *)
Theorem convert_video_codecs st v inputPath rest :
  Convert.fileType st = Some Video ->
  Convert.inputFile v = inputPath :: rest ->
  let videoCodec :=
    if truthy (Convert.codec v) then tmpl (Convert.codec v) else "copy" in
  let audioCodec :=
    if str_is (Convert.codec v) "libvpx-vp9" then "libopus" else "copy" in
  exists job qualityOptions,
    Convert.handleSubmit st v = Ok job
    /\ argv job
       = (["-i"; inputPath; "-c:v"; videoCodec] ++ qualityOptions
          ++ ["-c:a"; audioCodec; "-y"; outputPath job])%list.
Proof.
  intros Hk Hf videoCodec audioCodec. unfold videoCodec, audioCodec.
  unfold Convert.handleSubmit, Convert.encode. rewrite Hf, Hk.
  destruct (str_is (Convert.codec v) "libvpx-vp9") eqn:Evp.
  - apply str_is_true in Evp. rewrite Evp. simpl.
    destruct (truthy_bool (Convert.maintainQuality v)); simpl.
    + eexists.
      exists ["-b:v"; "0"; "-crf"; "0"; "-row-mt"; "1"; "-cpu-used"; "0"].
      split; reflexivity.
    + eexists.
      exists ["-b:v"; "0"; "-crf"; or_else (Convert.quality v) "30";
              "-row-mt"; "1"].
      split; reflexivity.
  - destruct (truthy (Convert.codec v)) eqn:Et; simpl.
    + destruct (str_is (Convert.codec v) "copy") eqn:Ec; simpl.
      * apply str_is_true in Ec. rewrite Ec. simpl.
        eexists; exists []; split; reflexivity.
      * destruct (truthy_bool (Convert.maintainQuality v)),
          (_ || _)%bool; simpl.
        -- eexists. exists ["-crf"; "0"; "-preset"; "veryslow"].
           split; reflexivity.
        -- eexists; exists []; split; reflexivity.
        -- eexists. exists ["-crf"; or_else (Convert.quality v) "23"].
           split; reflexivity.
        -- eexists; exists []; split; reflexivity.
    + eexists; exists []; split; reflexivity.
Qed.

Lemma convert_video_codecs_witness :
  exists job qualityOptions,
    Convert.handleSubmit (cv_state (Some Video))
                         (cv_values "webm" (Some "libvpx-vp9") None None)
    = Ok job
    /\ argv job
       = (["-i"; clip; "-c:v"; "libvpx-vp9"] ++ qualityOptions
          ++ ["-c:a"; "libopus"; "-y"; outputPath job])%list.
Proof.
  exact (convert_video_codecs (cv_state (Some Video))
           (cv_values "webm" (Some "libvpx-vp9") None None) clip []
           eq_refl eq_refl).
Defined.

(** X12. Sanitizing a token twice is sanitizing it once, sanitizing a
    concatenation is concatenating the sanitized parts, and a sanitized
    token is never longer than the token. *)
Theorem sanitize_laws a b :
  Resize.sanitize (Resize.sanitize a) = Resize.sanitize a
  /\ Resize.sanitize (a ++ b) = Resize.sanitize a ++ Resize.sanitize b
  /\ String.length (Resize.sanitize a) <= String.length a.
Proof.
  repeat split.
  - apply sanitize_fixes_safe, sanitize_safe.
  - apply sanitize_app.
  - unfold Resize.sanitize. rewrite <- !length_chars, chars_str.
    apply filter_length_le.
Qed.

(** X13. Every value of the preset table is a decimal numeral, and the
    table follows the order of the dropdown: a preset further down asks
    for a larger CRF on video and a larger quality index on images (both
    mean lower quality), and for a smaller bitrate on audio. *)
Theorem presets_ordered kind p1 p2 :
  preset_rank p1 < preset_rank p2 ->
  is_numeral (Compress.QUALITY_PRESETS kind p1) = true
  /\ is_numeral (Compress.QUALITY_PRESETS kind p2) = true
  /\ (numeral (Compress.QUALITY_PRESETS Video p1)
      < numeral (Compress.QUALITY_PRESETS Video p2))%Z
  /\ (numeral (Compress.QUALITY_PRESETS Image p1)
      < numeral (Compress.QUALITY_PRESETS Image p2))%Z
  /\ (numeral (Compress.QUALITY_PRESETS Audio p1)
      > numeral (Compress.QUALITY_PRESETS Audio p2))%Z.
Proof.
  intros Hrank.
  destruct kind, p1, p2; simpl in Hrank; try lia;
    repeat split; reflexivity.
Qed.

Lemma presets_ordered_witness :
  (numeral (Compress.QUALITY_PRESETS Video Compress.high)
   < numeral (Compress.QUALITY_PRESETS Video Compress.low))%Z
  /\ (numeral (Compress.QUALITY_PRESETS Audio Compress.high)
      > numeral (Compress.QUALITY_PRESETS Audio Compress.low))%Z.
Proof.
  destruct (presets_ordered Video Compress.high Compress.low)
    as (_ & _ & Hv & _ & Ha).
  - simpl. lia.
  - split; assumption.
Defined.


(* ================================================================== *)
(** * The file picker *)

(** X14. The file picker of the convert, compress and speed commands
    records the picked list, raises exactly when the list is empty, and
    never clears the media kind: the kind is undetermined afterwards only
    if it was before (and the first file, if any, is not recognised). *)
Theorem picker_never_clears_kind :
  (forall st files,
     let '(st', raised) := ConvertCommand.onChange st files in
     Convert.defaultFile st' = files
     /\ (raised <> None <-> files = [])
     /\ (Convert.fileType st' = None -> Convert.fileType st = None)
     /\ Convert.maintainQualityState st' = Convert.maintainQualityState st)
  /\ (forall st files,
     let '(st', raised) := CompressCommand.onChange st files in
     Compress.defaultFile st' = files
     /\ (raised <> None <-> files = [])
     /\ (Compress.fileType st' = None -> Compress.fileType st = None))
  /\ (forall st files,
     let '(st', raised) := SpeedCommand.onChange st files in
     Speed.defaultFile st' = files
     /\ (raised <> None <-> files = [])
     /\ (Speed.fileType st' = None -> Speed.fileType st = None)).
Proof.
  repeat apply conj; intros st files.
  - unfold ConvertCommand.onChange. destruct files as [|f rest].
    + repeat split; auto. now intros _.
    + destruct (ConvertCommand.detect _); simpl; repeat split; auto;
        try discriminate; intros H; congruence.
  - unfold CompressCommand.onChange. destruct files as [|f rest].
    + repeat split; auto. now intros _.
    + destruct (CompressCommand.detect _); simpl; repeat split; auto;
        try discriminate; intros H; congruence.
  - unfold SpeedCommand.onChange. destruct files as [|f rest].
    + repeat split; auto. now intros _.
    + destruct (SpeedCommand.detect _); simpl; repeat split; auto;
        try discriminate; intros H; congruence.
Qed.

Lemma picker_never_clears_kind_witness :
  Convert.fileType
    (fst (ConvertCommand.onChange (cv_state (Some Video)) [notes]))
  <> None.
Proof.
  pose proof (proj1 picker_never_clears_kind (cv_state (Some Video)) [notes])
    as H.
  destruct (ConvertCommand.onChange (cv_state (Some Video)) [notes])
    as [st' raised].
  destruct H as (_ & _ & H & _). intros E. apply H in E. discriminate E.
Defined.

(** X15. A file of an unrecognised extension picked after a recognised
    one is submitted under the kind of the first: after picking [f1] of
    kind [k] and then [f2] whose extension is not recognised, the state
    holds the list of [f2] and the kind [k]. *)
Theorem picker_keeps_stale_kind st f1 rest1 f2 rest2 k :
  ConvertCommand.detect (toLowerCase (extname f1)) = Some k ->
  ConvertCommand.detect (toLowerCase (extname f2)) = None ->
  let st1 := fst (ConvertCommand.onChange st (f1 :: rest1)) in
  let st2 := fst (ConvertCommand.onChange st1 (f2 :: rest2)) in
  Convert.defaultFile st2 = f2 :: rest2
  /\ Convert.fileType st2 = Some k
  /\ forall v, Convert.handleSubmit st2 v
               = Convert.handleSubmit
                   {| Convert.defaultFile := [];
                      Convert.fileType := Some k;
                      Convert.maintainQualityState := false |} v.
Proof.
  intros H1 H2. unfold ConvertCommand.onChange. rewrite H1. simpl.
  rewrite H2. simpl. repeat split.
Qed.

Lemma picker_keeps_stale_kind_witness :
  Convert.fileType
    (fst (ConvertCommand.onChange
            (fst (ConvertCommand.onChange (cv_state None) [clip]))
            [notes]))
  = Some Video.
Proof.
  exact (proj1 (proj2 (picker_keeps_stale_kind (cv_state None) clip []
                         notes [] Video eq_refl eq_refl))).
Defined.

(** ** Letter case *)

Lemma lower_char_canonical c : lower_char (canonicalize c) = lower_char c.
Proof. destruct c as [[] [] [] [] [] [] [] []]; reflexivity. Qed.

Lemma byte_is_canonical c n :
  128 <= n -> byte_is (canonicalize c) n = byte_is c n.
Proof.
  intros Hn. unfold byte_is, canonicalize.
  destruct (Nat.leb 97 (nat_of_ascii c) && Nat.leb (nat_of_ascii c) 122)%bool
    eqn:E; [|reflexivity].
  apply andb_prop in E as [E1 E2].
  apply Nat.leb_le in E1, E2.
  rewrite nat_ascii_embedding by lia.
  rewrite (proj2 (Nat.eqb_neq _ n)), (proj2 (Nat.eqb_neq _ n)) by lia.
  reflexivity.
Qed.

Lemma canonical_lower a b :
  canonicalize a = canonicalize b -> lower_char a = lower_char b.
Proof.
  intros H. now rewrite <- (lower_char_canonical a), H, lower_char_canonical.
Qed.

Lemma canonical_byte a b n :
  128 <= n -> canonicalize a = canonicalize b -> byte_is a n = byte_is b n.
Proof.
  intros Hn H.
  now rewrite <- (byte_is_canonical a n Hn), H, byte_is_canonical.
Qed.

Lemma toLowerCase_l_case n :
  forall l1 l2,
    List.length l1 <= n ->
    Forall2 (fun a b => canonicalize a = canonicalize b) l1 l2 ->
    toLowerCase_l l1 = toLowerCase_l l2.
Proof.
  induction n as [|n IH]; intros l1 l2 Hlen H.
  - destruct H; [reflexivity | simpl in Hlen; lia].
  - destruct H as [|a a' r1 r1' Ha H1]; [reflexivity|].
    simpl in Hlen.
    assert (IH1 : toLowerCase_l r1 = toLowerCase_l r1')
      by (apply IH; [lia | assumption]).
    destruct H1 as [|b b' r2 r2' Hb H2].
    { simpl. now rewrite (canonical_lower a a'). }
    simpl in Hlen.
    assert (IH2 : toLowerCase_l r2 = toLowerCase_l r2')
      by (apply IH; [lia | assumption]).
    cbn [toLowerCase_l].
    rewrite (canonical_byte a a' 196), (canonical_byte b b' 176),
      (canonical_byte a a' 226), (canonical_byte b b' 132) by (lia || auto).
    destruct (byte_is a' 196 && byte_is b' 176)%bool;
      [now rewrite IH2|].
    destruct H2 as [|c c' r3 r3' Hc H3].
    { rewrite (canonical_lower a a') by assumption.
      f_equal. exact IH1. }
    simpl in Hlen.
    assert (IH3 : toLowerCase_l r3 = toLowerCase_l r3')
      by (apply IH; [lia | assumption]).
    rewrite (canonical_byte c c' 170) by (lia || auto).
    destruct (byte_is a' 226 && byte_is b' 132 && byte_is c' 170)%bool.
    + now rewrite IH3.
    + rewrite (canonical_lower a a') by assumption. f_equal. exact IH1.
Qed.

Lemma starts_with_ci_case pre :
  forall l1 l2,
    Forall2 (fun a b => canonicalize a = canonicalize b) l1 l2 ->
    starts_with_ci pre l1 = starts_with_ci pre l2.
Proof.
  induction pre as [|p pre IH]; intros l1 l2 H; [reflexivity|].
  destruct H as [|a b r1 r2 Hab H]; [reflexivity|].
  simpl. now rewrite Hab, (IH r1 r2).
Qed.

Lemma Forall2_rev_case l1 l2 :
  Forall2 (fun a b => canonicalize a = canonicalize b) l1 l2 ->
  Forall2 (fun a b => canonicalize a = canonicalize b) (rev l1) (rev l2).
Proof.
  induction 1 as [|a b r1 r2 Hab H IH]; [constructor|].
  simpl. apply Forall2_app; [assumption | now constructor].
Qed.

Lemma matches_extension_case words s1 s2 :
  same_up_to_case s1 s2 ->
  matches_extension words s1 = matches_extension words s2.
Proof.
  intros H. unfold matches_extension.
  induction words as [|w words IH]; [reflexivity|]. cbn [existsb].
  rewrite IH. f_equal.
  apply starts_with_ci_case, Forall2_rev_case, H.
Qed.

Lemma toLowerCase_case s1 s2 :
  same_up_to_case s1 s2 -> toLowerCase s1 = toLowerCase s2.
Proof.
  intros H. unfold toLowerCase. f_equal.
  apply (toLowerCase_l_case (List.length (chars s1))); [lia | exact H].
Qed.

(** X16. The media kind does not depend on the case of ASCII letters:
    two files whose extensions differ in letter case only set the same
    kind in the file picker of the convert, compress and speed commands,
    and two paths that differ in letter case only are matched alike by
    the clipboard test of the resize command. *)
Theorem kind_ignores_letter_case :
  (forall st f1 rest1 f2 rest2,
     same_up_to_case (extname f1) (extname f2) ->
     Convert.fileType (fst (ConvertCommand.onChange st (f1 :: rest1)))
     = Convert.fileType (fst (ConvertCommand.onChange st (f2 :: rest2))))
  /\ (forall st f1 rest1 f2 rest2,
     same_up_to_case (extname f1) (extname f2) ->
     Compress.fileType (fst (CompressCommand.onChange st (f1 :: rest1)))
     = Compress.fileType (fst (CompressCommand.onChange st (f2 :: rest2))))
  /\ (forall st f1 rest1 f2 rest2,
     same_up_to_case (extname f1) (extname f2) ->
     Speed.fileType (fst (SpeedCommand.onChange st (f1 :: rest1)))
     = Speed.fileType (fst (SpeedCommand.onChange st (f2 :: rest2))))
  /\ (forall words p1 p2,
     same_up_to_case p1 p2 ->
     matches_extension words p1 = matches_extension words p2).
Proof.
  repeat apply conj.
  - intros st f1 rest1 f2 rest2 H.
    unfold ConvertCommand.onChange.
    rewrite (toLowerCase_case _ _ H).
    destruct (ConvertCommand.detect _); reflexivity.
  - intros st f1 rest1 f2 rest2 H.
    unfold CompressCommand.onChange.
    rewrite (toLowerCase_case _ _ H).
    destruct (CompressCommand.detect _); reflexivity.
  - intros st f1 rest1 f2 rest2 H.
    unfold SpeedCommand.onChange.
    rewrite (toLowerCase_case _ _ H).
    destruct (SpeedCommand.detect _); reflexivity.
  - intros words p1 p2 H. now apply matches_extension_case.
Qed.

Lemma kind_ignores_letter_case_witness :
  Convert.fileType
    (fst (ConvertCommand.onChange (cv_state None) ["/Users/me/CLIP.Mp4"]))
  = Convert.fileType (fst (ConvertCommand.onChange (cv_state None) [clip])).
Proof.
  apply (proj1 kind_ignores_letter_case).
  vm_compute. repeat constructor.
Defined.

(* ================================================================== *)
(** * The clipboard *)

Lemma decode_percent_free l :
  forallb (fun c => negb (Ascii.eqb c "%")) l = true ->
  decode 0 [] l = Decoded l.
Proof.
  induction l as [|c l IH]; [reflexivity|].
  intros H. simpl in H. apply andb_prop in H as [Hc Hl].
  apply negb_true_iff in Hc. cbn [decode]. rewrite Hc, IH by assumption.
  reflexivity.
Qed.

Lemma prefix_empty s : prefix "" s = true.
Proof. now destruct s. Qed.

Lemma substring_all s : substring 0 (String.length s) s = s.
Proof. induction s as [|c s IH]; simpl; [reflexivity | now rewrite IH]. Qed.

(** X17. The path taken from the clipboard.  An entry that is missing or
    empty gives none.  From an entry [file:///{rest}] without a percent
    sign the scheme and all three slashes are removed, so that the path
    is [{rest}], without a leading slash; an entry without the scheme
    and without a percent sign is taken as it is. *)
Theorem clipboard_path_of_url :
  clipboardPath None = None
  /\ clipboardPath (Some "") = None
  /\ (forall rest,
        percent_free rest = true ->
        clipboardPath (Some ("file:///" ++ rest)) = Some rest)
  /\ (forall s,
        s <> "" -> prefix "file:///" s = false -> percent_free s = true ->
        clipboardPath (Some s) = Some s).
Proof.
  repeat apply conj; try reflexivity.
  - intros rest H. unfold clipboardPath, strip_file_scheme.
    cbn [truthy tmpl]. simpl.
    rewrite prefix_empty, Nat.sub_0_r, substring_all.
    unfold decodeURIComponent. rewrite decode_percent_free by exact H.
    now rewrite str_chars.
  - intros s Hne Hp H. unfold clipboardPath, strip_file_scheme.
    cbn [truthy tmpl]. rewrite Hp.
    apply String.eqb_neq in Hne. rewrite Hne. simpl.
    unfold decodeURIComponent. rewrite decode_percent_free by exact H.
    now rewrite str_chars.
Qed.

Lemma clipboard_path_of_url_witness :
  clipboardPath (Some "file:///Users/me/clip.mp4") = Some "Users/me/clip.mp4"
  /\ clipboardPath (Some "/Users/me/clip.mp4") = Some "/Users/me/clip.mp4".
Proof.
  destruct clipboard_path_of_url as (_ & _ & H1 & H2).
  split.
  - exact (H1 "Users/me/clip.mp4" eq_refl).
  - refine (H2 "/Users/me/clip.mp4" _ eq_refl eq_refl). discriminate.
Defined.

(** X18. The clipboard only ever offers a file that exists and is of a
    recognised kind: after [getClipboardFile] the state is unchanged, or
    its file list is the single path taken from the clipboard, this path
    exists, and it is recognised (by its extension in the convert,
    compress and speed commands, by the end of the whole path in the
    resize, resolution-video and resize-image commands); where the state
    holds a kind, it is the recognised one. *)
Theorem clipboard_offers_existing_files existsSync file :
  (forall st,
     let st' := ConvertCommand.getClipboardFile existsSync file st in
     st' = st
     \/ exists p k,
          clipboardPath file = Some p /\ existsSync p = true
          /\ ConvertCommand.detect (toLowerCase (extname p)) = Some k
          /\ Convert.defaultFile st' = [p] /\ Convert.fileType st' = Some k)
  /\ (forall st,
     let st' := CompressCommand.getClipboardFile existsSync file st in
     st' = st
     \/ exists p k,
          clipboardPath file = Some p /\ existsSync p = true
          /\ CompressCommand.detect (toLowerCase (extname p)) = Some k
          /\ Compress.defaultFile st' = [p] /\ Compress.fileType st' = Some k)
  /\ (forall st,
     let st' := SpeedCommand.getClipboardFile existsSync file st in
     st' = st
     \/ exists p k,
          clipboardPath file = Some p /\ existsSync p = true
          /\ SpeedCommand.detect (toLowerCase (extname p)) = Some k
          /\ Speed.defaultFile st' = [p] /\ Speed.fileType st' = Some k)
  /\ (forall st,
     let st' := ResizeCommand.getClipboardFile existsSync file st in
     st' = st
     \/ exists p,
          clipboardPath file = Some p /\ existsSync p = true
          /\ Resize.defaultFile st' = [p]
          /\ (matches_extension image_extensions p = true
              /\ Resize.fileTypeState st' = Resize.image
              \/ matches_extension image_extensions p = false
                 /\ matches_extension video_extensions p = true
                 /\ Resize.fileTypeState st' = Resize.video))
  /\ (forall st,
     let st' := ResolutionVideoCommand.getClipboardFile existsSync file st in
     st' = st
     \/ exists p,
          clipboardPath file = Some p /\ existsSync p = true
          /\ matches_extension video_extensions p = true
          /\ ResolutionVideo.defaultFile st' = [p])
  /\ (forall st,
     let st' := ResizeImageCommand.getClipboardFile existsSync file st in
     st' = st
     \/ exists p,
          clipboardPath file = Some p /\ existsSync p = true
          /\ matches_extension image_extensions p = true
          /\ ResizeImage.defaultFile st' = [p]).
Proof.
  repeat apply conj; intros st;
    unfold ConvertCommand.getClipboardFile, CompressCommand.getClipboardFile,
      SpeedCommand.getClipboardFile, ResizeCommand.getClipboardFile,
      ResolutionVideoCommand.getClipboardFile,
      ResizeImageCommand.getClipboardFile;
    destruct (clipboardPath file) as [p|]; [|now left| |now left| |now left
                                            | |now left| |now left| |now left];
    destruct (existsSync p) eqn:Ex; try (now left).
  - destruct (ConvertCommand.detect _) as [k|] eqn:Ek; [|now left].
    right. exists p, k. repeat split; assumption.
  - destruct (CompressCommand.detect _) as [k|] eqn:Ek; [|now left].
    right. exists p, k. repeat split; assumption.
  - destruct (SpeedCommand.detect _) as [k|] eqn:Ek; [|now left].
    right. exists p, k. repeat split; assumption.
  - destruct (matches_extension image_extensions p) eqn:Ei.
    + right. exists p. repeat split; auto.
    + destruct (matches_extension video_extensions p) eqn:Ev; [|now left].
      right. exists p. repeat split; auto.
  - destruct (matches_extension video_extensions p) eqn:Ev; simpl;
      [|now left].
    right. exists p. repeat split; auto.
  - destruct (matches_extension image_extensions p) eqn:Ei; simpl;
      [|now left].
    right. exists p. repeat split; auto.
Qed.

(* ================================================================== *)
(** * Reporting the outcome *)

Lemma report_success successTitle failureTitle spawn compiled :
  style (report successTitle failureTitle spawn compiled) = Success
  <-> exists job chunks,
        compiled = Ok job /\ spawn (argv job) = Close (Some 0%Z) chunks.
Proof.
  unfold report. split.
  - destruct compiled as [job|e]; [|discriminate].
    destruct (spawn (argv job)) as [msg|[[|c|c]|] chunks] eqn:E;
      try discriminate.
    intros _. now exists job, chunks.
  - intros (job & chunks & -> & ->). reflexivity.
Qed.

Lemma fold_left_append (chunks : list Buffer) (acc : string) :
  fold_left (fun acc data => acc ++ toString data) chunks acc
  = acc ++ String.concat "" (map toString chunks).
Proof.
  revert acc. induction chunks as [|c chunks IH]; intros acc.
  - simpl. now rewrite append_nil_r.
  - cbn [fold_left]. rewrite IH.
    destruct chunks as [|c' chunks].
    + simpl. now rewrite append_nil_r.
    + cbn [map String.concat]. cbn [append]. now rewrite append_assoc.
Qed.

Ltac bools :=
  repeat match goal with
  | H : (_ && _)%bool = true |- _ => apply andb_prop in H as [? ?]
  | H : (_ || _)%bool = true |- _ => apply orb_prop in H as [?|?]
  | H : Nat.leb _ _ = true |- _ => apply Nat.leb_le in H
  | H : Nat.ltb _ _ = true |- _ => apply Nat.ltb_lt in H
  | H : Nat.ltb _ _ = false |- _ => apply Nat.ltb_ge in H
  | H : Nat.eqb _ _ = true |- _ => apply Nat.eqb_eq in H
  end.

Lemma in_range_true lo hi n : lo <= n -> n <= hi -> in_range lo hi n = true.
Proof.
  intros H1 H2. unfold in_range.
  apply andb_true_intro. split; now apply Nat.leb_le.
Qed.

Lemma in_range_false lo hi n : n < lo \/ hi < n -> in_range lo hi n = false.
Proof.
  intros H. unfold in_range. apply andb_false_iff.
  destruct H; [left | right]; apply Nat.leb_gt; assumption.
Qed.

Lemma first_byte_single b : b < 128 -> first_byte b = Single.
Proof. intros H. unfold first_byte. apply Nat.ltb_lt in H. now rewrite H. Qed.

Lemma first_byte_two b :
  194 <= b -> b <= 223 -> first_byte b = Lead 1 128 191.
Proof.
  intros H1 H2. unfold first_byte.
  replace (Nat.ltb b 128) with false by (symmetry; apply Nat.ltb_ge; lia).
  now rewrite in_range_true.
Qed.

Lemma first_byte_three b :
  224 <= b -> b <= 239 ->
  first_byte b = Lead 2 (if Nat.eqb b 224 then 160 else 128)
                      (if Nat.eqb b 237 then 159 else 191).
Proof.
  intros H1 H2. unfold first_byte.
  replace (Nat.ltb b 128) with false by (symmetry; apply Nat.ltb_ge; lia).
  rewrite (in_range_false 194 223) by lia.
  now rewrite in_range_true.
Qed.

Lemma first_byte_four b :
  240 <= b -> b <= 244 ->
  first_byte b = Lead 3 (if Nat.eqb b 240 then 144 else 128)
                      (if Nat.eqb b 244 then 143 else 191).
Proof.
  intros H1 H2. unfold first_byte.
  replace (Nat.ltb b 128) with false by (symmetry; apply Nat.ltb_ge; lia).
  rewrite (in_range_false 194 223) by lia.
  rewrite (in_range_false 224 239) by lia.
  now rewrite in_range_true.
Qed.

(** Well-formed bytes are decoded to themselves. *)
Lemma well_formed_decodes n :
  forall l, List.length l <= n -> well_formed l = true ->
            utf8_decode [] 0 128 191 l = l.
Proof.
  induction n as [|n IH]; intros l Hlen Hwf.
  - destruct l; [reflexivity | simpl in Hlen; lia].
  - destruct l as [|b0 r1]; [reflexivity|].
    simpl in Hlen. cbn [well_formed] in Hwf.
    destruct (Nat.ltb (nat_of_ascii b0) 128) eqn:E0.
    + cbn [utf8_decode]. apply Nat.ltb_lt in E0.
      rewrite first_byte_single by assumption.
      now rewrite IH by (assumption || lia).
    + apply Nat.ltb_ge in E0.
      destruct r1 as [|b1 r2]; [discriminate|].
      simpl in Hlen.
      destruct (valid_utf8 [nat_of_ascii b0; nat_of_ascii b1]) eqn:E1.
      { unfold valid_utf8, in_range in E1. bools.
        cbn [utf8_decode]. rewrite first_byte_two by assumption.
        rewrite in_range_true by assumption.
        cbn [app]. now rewrite IH by (assumption || lia). }
      destruct r2 as [|b2 r3]; [discriminate|].
      simpl in Hlen.
      destruct (valid_utf8 [nat_of_ascii b0; nat_of_ascii b1;
                            nat_of_ascii b2]) eqn:E2.
      { unfold valid_utf8, in_range in E2. bools;
          cbn [utf8_decode]; rewrite first_byte_three by lia;
          (rewrite in_range_true;
           [rewrite in_range_true by assumption;
            cbn [app]; now rewrite IH by (assumption || lia)
           | destruct (Nat.eqb_spec (nat_of_ascii b0) 224); lia
           | destruct (Nat.eqb_spec (nat_of_ascii b0) 237); lia]). }
      destruct r3 as [|b3 r4]; [discriminate|].
      simpl in Hlen. apply andb_prop in Hwf as [E3 Hwf].
      unfold valid_utf8, in_range in E3. bools;
        cbn [utf8_decode]; rewrite first_byte_four by lia;
        (rewrite in_range_true;
         [rewrite !in_range_true by assumption;
          cbn [app]; now rewrite IH by (assumption || lia)
         | destruct (Nat.eqb_spec (nat_of_ascii b0) 240); lia
         | destruct (Nat.eqb_spec (nat_of_ascii b0) 244); lia]).
Qed.

Lemma concat_well_formed (chunks : list Buffer) :
  forallb well_formed chunks = true ->
  String.concat "" (map toString chunks) = str (List.concat chunks).
Proof.
  induction chunks as [|c chunks IH]; [reflexivity|].
  intros H. cbn [forallb] in H. apply andb_prop in H as [Hc Hs].
  specialize (IH Hs).
  assert (Ec : toString c = str c)
    by (unfold toString;
        now rewrite (well_formed_decodes (List.length c) c (le_n _) Hc)).
  cbn [map List.concat]. rewrite str_app, <- IH, Ec.
  destruct chunks as [|c' chunks].
  - simpl. now rewrite append_nil_r.
  - reflexivity.
Qed.

(** X19. Each command ends with the success toast exactly when the
    arguments were compiled and the process started on them closed with
    exit code 0.  A command whose arguments could not be compiled never
    reports success, whatever a process would have done. *)
Theorem success_exactly_on_clean_exit spawn :
  (forall st v,
     style (ConvertCommand.submit spawn st v) = Success
     <-> exists job chunks,
           Convert.handleSubmit st v = Ok job
           /\ spawn (argv job) = Close (Some 0%Z) chunks)
  /\ (forall st v,
     style (CompressCommand.submit spawn st v) = Success
     <-> exists job chunks,
           Compress.handleSubmit st v = Ok job
           /\ spawn (argv job) = Close (Some 0%Z) chunks)
  /\ (forall st v,
     style (SpeedCommand.submit spawn st v) = Success
     <-> exists job chunks,
           Speed.handleSubmit st v = Ok job
           /\ spawn (argv job) = Close (Some 0%Z) chunks)
  /\ (forall st v,
     style (ResizeCommand.submit spawn st v) = Success
     <-> exists job chunks,
           Resize.handleSubmit st v = Ok job
           /\ spawn (argv job) = Close (Some 0%Z) chunks)
  /\ (forall st v,
     style (ResolutionVideoCommand.submit spawn st v) = Success
     <-> exists job chunks,
           ResolutionVideo.handleSubmit st v = Ok job
           /\ spawn (argv job) = Close (Some 0%Z) chunks)
  /\ (forall st v,
     style (ResizeImageCommand.submit spawn st v) = Success
     <-> exists job chunks,
           ResizeImage.handleSubmit st v = Ok job
           /\ spawn (argv job) = Close (Some 0%Z) chunks).
Proof.
  repeat apply conj; intros st v; apply report_success.
Qed.

(** X20. When the process closes with anything but exit code 0, the
    command ends with a failure toast whose message gives the exit code
    and then what was received on the error stream: the chunks in the
    order of their arrival, each decoded as UTF-8 on its own, so that
    the bytes of a character cut by the end of a chunk are shown as
    U+FFFD.  When every chunk is well-formed UTF-8, this is the text of
    all the bytes received. *)
Theorem failure_carries_error_stream
        successTitle failureTitle spawn job code chunks :
  spawn (argv job) = Close code chunks ->
  code <> Some 0%Z ->
  let shown := String.concat "" (map toString chunks) in
  report successTitle failureTitle spawn (Ok job)
  = mkToast Failure failureTitle
            (Text ("FFmpeg failed with code " ++ code_text code
                   ++ ". Error: " ++ shown))
  /\ (forallb well_formed chunks = true ->
      shown = str (List.concat chunks)).
Proof.
  intros Hs Hc shown. split.
  - unfold report. rewrite Hs.
    assert (E : stderrData chunks = shown)
      by (unfold stderrData; now rewrite fold_left_append).
    rewrite E.
    destruct code as [[|c|c]|]; try reflexivity. congruence.
  - apply concat_well_formed.
Qed.

Lemma failure_carries_error_stream_witness :
  report "Conversion successful" "Failed to convert"
         (fun _ => Close (Some 1%Z)
                         [chars "clip.mp4: "; chars "No such file"])
         (Ok (mkJob ["-i"; clip; "-y"; clip] clip))
  = mkToast Failure "Failed to convert"
            (Text "FFmpeg failed with code 1. Error: clip.mp4: No such file")
  /\ report "Conversion successful" "Failed to convert"
         (fun _ => Close None
                         [(chars "caf" ++ firstn 1 e_acute)%list;
                          skipn 1 e_acute])
         (Ok (mkJob ["-i"; clip; "-y"; clip] clip))
     = mkToast Failure "Failed to convert"
               (Text ("FFmpeg failed with code null. Error: caf"
                        ++ replacement_character ++ replacement_character)).
Proof.
  split.
  - refine (proj1 (failure_carries_error_stream
                     "Conversion successful" "Failed to convert"
                     (fun _ => Close (Some 1%Z)
                                  [chars "clip.mp4: "; chars "No such file"])
                     (mkJob ["-i"; clip; "-y"; clip] clip)
                     (Some 1%Z) [chars "clip.mp4: "; chars "No such file"]
                     eq_refl _)).
    discriminate.
  - refine (proj1 (failure_carries_error_stream
                     "Conversion successful" "Failed to convert"
                     (fun _ => Close None
                                  [(chars "caf" ++ firstn 1 e_acute)%list;
                                   skipn 1 e_acute])
                     (mkJob ["-i"; clip; "-y"; clip] clip)
                     None
                     [(chars "caf" ++ firstn 1 e_acute)%list;
                      skipn 1 e_acute]
                     eq_refl _)).
    discriminate.
Defined.

Lemma announce successTitle failureTitle spawn inputPath r :
  (forall args, exists chunks, spawn args = Close (Some 0%Z) chunks) ->
  named_after inputPath r ->
  announces inputPath (report successTitle failureTitle spawn r).
Proof.
  intros Hs (job & token & -> & Hne & Hbase & _).
  destruct (Hs (argv job)) as (chunks & Hc).
  exists token. unfold report. rewrite Hc, Hbase. auto.
Qed.

(** X21. When the process exits with code 0, the success toast names the
    file that was written: for an input path of plain components and
    options without a path separator, the message of the rescale, speed
    and compress commands is [Created {stem}.{token}{extension}] with a
    token that is not empty, and the message of the convert command is
    [Created {stem}{suffix}.{format}]. *)
Theorem success_toast_names_output dirs file spawn :
  forallb plain_name dirs = true ->
  plain_name file = true ->
  (forall args, exists chunks, spawn args = Close (Some 0%Z) chunks) ->
  let inputPath := abs_path dirs file in
  (forall st v rest,
     ResolutionVideo.inputFile v = inputPath :: rest ->
     sep_free (ResolutionVideo.width v) = true ->
     sep_free (ResolutionVideo.height v) = true ->
     sep_free (ResolutionVideo.preset v) = true ->
     announces inputPath (ResolutionVideoCommand.submit spawn st v))
  /\ (forall st v rest,
     ResizeImage.inputFile v = inputPath :: rest ->
     sep_free (ResizeImage.width v) = true ->
     sep_free (ResizeImage.height v) = true ->
     sep_free (ResizeImage.quality v) = true ->
     announces inputPath (ResizeImageCommand.submit spawn st v))
  /\ (forall st v rest,
     Resize.inputFile v = inputPath :: rest ->
     sep_free (tmpl (Resize.quality v)) = true ->
     sep_free (tmpl (Resize.preset v)) = true ->
     announces inputPath (ResizeCommand.submit spawn st v))
  /\ (forall st v rest,
     Speed.inputFile v = inputPath :: rest ->
     announces inputPath (SpeedCommand.submit spawn st v))
  /\ (forall st v rest kind,
     Compress.inputFile v = inputPath :: rest ->
     Compress.fileType st = Some kind ->
     sep_free (Compress.quality v) = true ->
     announces inputPath (CompressCommand.submit spawn st v))
  /\ (forall st v rest,
     Convert.inputFile v = inputPath :: rest ->
     sep_free (tmpl (Convert.codec v)) = true ->
     sep_free (tmpl (Convert.quality v)) = true ->
     sep_free (Convert.format v) = true ->
     dot_free (Convert.format v) = true ->
     Convert.format v <> "" ->
     ConvertCommand.submit spawn st v
     = mkToast Success "Conversion successful"
               (Text ("Created "
                        ++ (stem inputPath
                                 ++ convert_suffix (Convert.fileType st) v)
                        ++ "." ++ Convert.format v))).
Proof.
  intros Hdirs Hfile Hs inputPath.
  repeat apply conj.
  - intros st v rest Hf Hw Hh Hp. apply announce; [assumption|].
    now apply resolution_video_named with (rest := rest).
  - intros st v rest Hf Hw Hh Hq. apply announce; [assumption|].
    now apply resize_image_named with (rest := rest).
  - intros st v rest Hf Hq Hp. apply announce; [assumption|].
    now apply resize_named with (rest := rest).
  - intros st v rest Hf. apply announce; [assumption|].
    now apply speed_named with (rest := rest).
  - intros st v rest kind Hf Hk Hq. apply announce; [assumption|].
    now apply compress_named with (rest := rest) (kind := kind).
  - intros st v rest Hf Hc Hq Hfmt Hdot Hne.
    destruct (convert_named dirs file Hdirs Hfile st v rest
                Hf Hc Hq Hfmt Hdot Hne) as (job & Hjob & Hbase & _).
    unfold ConvertCommand.submit, report. rewrite Hjob.
    destruct (Hs (argv job)) as (chunks & ->). now rewrite Hbase.
Qed.

Lemma success_toast_names_output_witness :
  announces song
    (CompressCommand.submit clean_exit (cp_state (Some Audio))
                            (cp_values song "" Compress.medium))
  /\ ConvertCommand.submit clean_exit (cv_state (Some Video))
                           (cv_values "mkv" (Some "libx264") None None)
     = mkToast Success "Conversion successful"
               (Text "Created clip.libx264.q23.mkv").
Proof.
  assert (Hs : forall args,
             exists chunks, clean_exit args = Close (Some 0%Z) chunks)
    by (intros args; exists []; reflexivity).
  destruct (success_toast_names_output ["Users"; "me"] "song.mp3"
              clean_exit eq_refl eq_refl Hs) as (_ & _ & _ & _ & Hcp & _).
  destruct (success_toast_names_output ["Users"; "me"] "clip.mp4"
              clean_exit eq_refl eq_refl Hs) as (_ & _ & _ & _ & _ & Hcv).
  split.
  - exact (Hcp (cp_state (Some Audio)) (cp_values song "" Compress.medium)
               [] Audio eq_refl eq_refl eq_refl).
  - refine (Hcv (cv_state (Some Video))
                (cv_values "mkv" (Some "libx264") None None) []
                eq_refl eq_refl eq_refl eq_refl eq_refl _).
    discriminate.
Defined.

(** X22. A clipboard file that exists and whose kind is recognised leaves
    the form of the convert, compress and speed commands exactly as if
    that file had been chosen in the file picker. *)
Theorem clipboard_file_as_picked existsSync file p :
  clipboardPath file = Some p ->
  existsSync p = true ->
  (forall st,
     ConvertCommand.detect (toLowerCase (extname p)) <> None ->
     ConvertCommand.getClipboardFile existsSync file st
     = fst (ConvertCommand.onChange st [p]))
  /\ (forall st,
     CompressCommand.detect (toLowerCase (extname p)) <> None ->
     CompressCommand.getClipboardFile existsSync file st
     = fst (CompressCommand.onChange st [p]))
  /\ (forall st,
     SpeedCommand.detect (toLowerCase (extname p)) <> None ->
     SpeedCommand.getClipboardFile existsSync file st
     = fst (SpeedCommand.onChange st [p])).
Proof.
  intros Hp Hex. repeat apply conj; intros st Hk.
  - unfold ConvertCommand.getClipboardFile, ConvertCommand.onChange.
    rewrite Hp, Hex.
    destruct (ConvertCommand.detect _); [reflexivity | congruence].
  - unfold CompressCommand.getClipboardFile, CompressCommand.onChange.
    rewrite Hp, Hex.
    destruct (CompressCommand.detect _); [reflexivity | congruence].
  - unfold SpeedCommand.getClipboardFile, SpeedCommand.onChange.
    rewrite Hp, Hex.
    destruct (SpeedCommand.detect _); [reflexivity | congruence].
Qed.

Lemma clipboard_file_as_picked_witness :
  ConvertCommand.getClipboardFile (only_file "Users/me/clip.mp4")
    (Some "file:///Users/me/clip.mp4") (cv_state None)
  = fst (ConvertCommand.onChange (cv_state None) ["Users/me/clip.mp4"]).
Proof.
  destruct (clipboard_file_as_picked (only_file "Users/me/clip.mp4")
              (Some "file:///Users/me/clip.mp4") "Users/me/clip.mp4"
              eq_refl eq_refl) as (H & _).
  apply H. discriminate.
Defined.
